(** * Smart-contract auditor, ML service: the pattern scan and its scoring

    A shallow embedding of [ml-service/app.py]: the rule catalog
    [VULNERABILITY_PATTERNS], the scan [analyze_contract_patterns] with its
    context checks, [calculate_confidence], [extract_code_snippet],
    [get_line_number], [calculate_risk_score], [count_by_field] and the two
    endpoints [analyze_contract] and [batch_analyze].

    Modelling conventions.
    - Python [str] is [string]; [int] is [Z]; offsets returned by the regex
      library are [nat] (they are never negative).
    - Python [float] is IEEE binary64. The risk score and the mean
      confidence are computed on primitive doubles, with [round(x, 2)], [min]
      and [sum] as Python defines them on floats. The [confidence] field of a
      finding holds the decimal with two places that [round(confidence, 2)]
      denotes ([Q]); the double a computation reads from the field is the
      nearest one ([confidence_float]). The confidence of a match is
      computed on the decimals the literals spell and also in binary64
      ([calculate_confidence_binary64]); the two agree on the confidences a
      scan produces.
    - Python's [re] module is not part of the program: it is an interface
      ([Re]) the scan is parametrised by.
    - A [dict] used as a map is a [gmap]; a [dict] that is iterated in
      insertion order (the catalog, the body of a batch request) is an
      association list.
    - A parsed request body is a JSON value ([json]); what the [try] block
      of the batch endpoint raises on it is an [exception]. *)

From Stdlib Require Import ZArith QArith Qabs Qpower Qminmax Qround.
From Stdlib Require Import String Ascii List Lia Lqa.
From Stdlib Require Import PrimFloat FloatOps SpecFloat FloatAxioms.
From stdpp Require Import gmap strings list fin_maps pretty.

Local Open Scope string_scope.
Local Open Scope list_scope.
Local Open Scope Z_scope.

(** ** Python primitives used by the service *)

Module Py.

(** [s[:n]] for [n >= 0]. *)
Fixpoint slice_to (s : string) (n : nat) : string :=
  match n, s with
  | S n', String c s' => String c (slice_to s' n')
  | _, _ => EmptyString
  end.

(** [s[n:]] for [n >= 0]. *)
Fixpoint slice_from (s : string) (n : nat) : string :=
  match n, s with
  | S n', String c s' => slice_from s' n'
  | _, _ => s
  end.

(** [s[-n:]] for [n > 0]: the slice starts at [max (len s - n) 0]. *)
Definition slice_last (s : string) (n : nat) : string :=
  slice_from s (String.length s - n).

(** [l[start:stop]] on a list, for [start >= 0] and any integer [stop];
    a negative [stop] counts from the end, as Python does. *)
Definition list_slice {A} (l : list A) (start stop : Z) : list A :=
  let len := Z.of_nat (length l) in
  let stop' := if stop <? 0 then Z.max (len + stop) 0 else Z.min stop len in
  let start' := Z.min start len in
  take (Z.to_nat (stop' - start')) (drop (Z.to_nat start') l).

Definition newline : ascii := "010"%char.

(** [s.split('\n')]: always at least one piece. *)
Fixpoint split_lines (s : string) : list string :=
  match s with
  | EmptyString => [EmptyString]
  | String c s' =>
      if Ascii.eqb c newline then EmptyString :: split_lines s'
      else match split_lines s' with
           | piece :: pieces => String c piece :: pieces
           | [] => [String c EmptyString]
           end
  end.

(** ['\n'.join(pieces)]. *)
Fixpoint join_lines (pieces : list string) : string :=
  match pieces with
  | [] => EmptyString
  | [piece] => piece
  | piece :: rest => piece +:+ String newline (join_lines rest)
  end.

(** [s.count('\n')]. *)
Fixpoint count_newlines (s : string) : nat :=
  match s with
  | EmptyString => 0%nat
  | String c s' =>
      ((if Ascii.eqb c newline then 1 else 0) + count_newlines s')%nat
  end.

(** [str(i)] for an integer. *)
Definition str (i : Z) : string := pretty i.

(** [enumerate(l, start=k)]. *)
Fixpoint enumerate {A} (l : list A) (k : Z) : list (Z * A) :=
  match l with
  | [] => []
  | x :: l' => (k, x) :: enumerate l' (k + 1)
  end.

(** Rounding of a rational to the nearest integer, ties to even. *)
Definition round_half_even (q : Q) : Z :=
  let f := Qfloor q in
  match (q - inject_Z f ?= 1 # 2)%Q with
  | Lt => f
  | Gt => f + 1
  | Eq => if Z.even f then f else f + 1
  end.

(** [round(x, 2)]. *)
Definition round2 (x : Q) : Q := Qmake (round_half_even (x * 100)) 100.

End Py.

(** ** The regex library, as an interface

    [re.finditer(pattern, text, flags)] yields the successive
    non-overlapping matches, of which the scan uses [start()] and [end()];
    [re.search(pattern, text, flags)] yields the first match or [None]. *)

Inductive re_flag := IGNORECASE | MULTILINE.

Record Match := { m_start : nat; m_end : nat }.

Class Re := {
  finditer : string -> string -> list re_flag -> list Match;
  search : string -> string -> list re_flag -> option Match
}.

(** ** Data classes *)

(** One entry of [VULNERABILITY_PATTERNS]: a dict whose keys
    [exclude], [check_before], [check_after] and [context] are optional
    ([key in vuln_info]), and whose [cwe_id] and [swc_id] are read with
    [.get]. *)
Module Info.
Record t := {
  pattern : string;
  exclude : option string;
  check_before : option string;
  check_after : option string;
  context : option string;
  name : string;
  description : string;
  severity : string;
  category : string;
  cwe_id : option string;
  swc_id : option string;
  recommendation : string
}.
End Info.

(** The dataclass [Vulnerability]. *)
Module Vulnerability.
Record t := {
  id : string;
  name : string;
  description : string;
  severity : string;
  category : string;
  line_number : Z;
  code_snippet : string;
  recommendation : string;
  confidence : Q;
  cwe_id : option string;
  swc_id : option string
}.
End Vulnerability.

(** ** The rule catalog *)

Module Rules.
Definition reentrancy : Info.t :=
  {| Info.pattern := "\.call\{.*value.*\}|\.call\.value\(|\.send\(|\.transfer\(";
     Info.exclude := None;
     Info.check_before := Some "(balances?\[|balance\s*[<>=]|require\s*\()";
     Info.check_after := None;
     Info.context := None;
     Info.name := "Reentrancy Vulnerability";
     Info.description := "External call made before state changes, allowing reentrancy attacks";
     Info.severity := "CRITICAL";
     Info.category := "REENTRANCY";
     Info.cwe_id := Some "CWE-841";
     Info.swc_id := Some "SWC-107";
     Info.recommendation := "Use the checks-effects-interactions pattern. Update state variables before making external calls, or use ReentrancyGuard." |}.

Definition integer_overflow : Info.t :=
  {| Info.pattern := "(\+\+|\-\-|\+=|\-=|\*=|\/=|\+|\-|\*|\/)\s*(?!.*SafeMath)";
     Info.exclude := Some "pragma\s+solidity\s*[\^>=]*\s*0\.[8-9]|SafeMath|unchecked";
     Info.check_before := None;
     Info.check_after := None;
     Info.context := None;
     Info.name := "Integer Overflow/Underflow";
     Info.description := "Arithmetic operation without overflow protection";
     Info.severity := "HIGH";
     Info.category := "ARITHMETIC";
     Info.cwe_id := Some "CWE-190";
     Info.swc_id := Some "SWC-101";
     Info.recommendation := "Use Solidity 0.8+ with built-in overflow checks, or use SafeMath library for older versions." |}.

Definition unchecked_call : Info.t :=
  {| Info.pattern := "\.call\(|\.delegatecall\(|\.staticcall\(";
     Info.exclude := None;
     Info.check_before := None;
     Info.check_after := Some "require\s*\(|if\s*\(.*success|assert\s*\(";
     Info.context := None;
     Info.name := "Unchecked External Call";
     Info.description := "Return value of external call not checked";
     Info.severity := "HIGH";
     Info.category := "UNCHECKED_CALL";
     Info.cwe_id := Some "CWE-252";
     Info.swc_id := Some "SWC-104";
     Info.recommendation := "Always check return values of low-level calls: (bool success, ) = addr.call(...); require(success);" |}.

Definition tx_origin : Info.t :=
  {| Info.pattern := "tx\.origin";
     Info.exclude := None;
     Info.check_before := None;
     Info.check_after := None;
     Info.context := Some "require\s*\(.*tx\.origin|if\s*\(.*tx\.origin|==\s*tx\.origin|tx\.origin\s*==";
     Info.name := "tx.origin Authentication";
     Info.description := "Using tx.origin for authentication is vulnerable to phishing attacks";
     Info.severity := "HIGH";
     Info.category := "ACCESS_CONTROL";
     Info.cwe_id := Some "CWE-287";
     Info.swc_id := Some "SWC-115";
     Info.recommendation := "Use msg.sender instead of tx.origin for authentication." |}.

Definition selfdestruct : Info.t :=
  {| Info.pattern := "selfdestruct\s*\(|suicide\s*\(";
     Info.exclude := None;
     Info.check_before := Some "onlyOwner|require\s*\(.*owner|modifier.*owner";
     Info.check_after := None;
     Info.context := None;
     Info.name := "Unprotected Selfdestruct";
     Info.description := "selfdestruct can be called without proper access control";
     Info.severity := "CRITICAL";
     Info.category := "ACCESS_CONTROL";
     Info.cwe_id := Some "CWE-284";
     Info.swc_id := Some "SWC-106";
     Info.recommendation := "Add proper access control (e.g., onlyOwner modifier) to selfdestruct functions." |}.

Definition delegatecall : Info.t :=
  {| Info.pattern := "\.delegatecall\(";
     Info.exclude := None;
     Info.check_before := None;
     Info.check_after := None;
     Info.context := None;
     Info.name := "Delegatecall Usage";
     Info.description := "delegatecall executes code in the context of the calling contract";
     Info.severity := "HIGH";
     Info.category := "DELEGATECALL";
     Info.cwe_id := Some "CWE-829";
     Info.swc_id := Some "SWC-112";
     Info.recommendation := "Ensure delegatecall target is trusted. Never use user-supplied addresses with delegatecall." |}.

Definition timestamp : Info.t :=
  {| Info.pattern := "block\.timestamp|now";
     Info.exclude := None;
     Info.check_before := None;
     Info.check_after := None;
     Info.context := Some "require\s*\(.*block\.timestamp|if\s*\(.*block\.timestamp|==\s*block\.timestamp";
     Info.name := "Timestamp Dependence";
     Info.description := "Block timestamp can be manipulated by miners within ~15 seconds";
     Info.severity := "MEDIUM";
     Info.category := "TIME_MANIPULATION";
     Info.cwe_id := Some "CWE-829";
     Info.swc_id := Some "SWC-116";
     Info.recommendation := "Don't use block.timestamp for critical logic. For randomness, use Chainlink VRF or commit-reveal schemes." |}.

Definition blockhash : Info.t :=
  {| Info.pattern := "blockhash\s*\(|block\.blockhash";
     Info.exclude := None;
     Info.check_before := None;
     Info.check_after := None;
     Info.context := None;
     Info.name := "Blockhash Usage for Randomness";
     Info.description := "Using blockhash for randomness is predictable and manipulable";
     Info.severity := "MEDIUM";
     Info.category := "RANDOMNESS";
     Info.cwe_id := Some "CWE-330";
     Info.swc_id := Some "SWC-120";
     Info.recommendation := "Use Chainlink VRF or other secure randomness sources." |}.

Definition floating_pragma : Info.t :=
  {| Info.pattern := "pragma\s+solidity\s*\^";
     Info.exclude := None;
     Info.check_before := None;
     Info.check_after := None;
     Info.context := None;
     Info.name := "Floating Pragma";
     Info.description := "Contract uses floating pragma which may compile with different versions";
     Info.severity := "LOW";
     Info.category := "VERSION";
     Info.cwe_id := Some "CWE-1103";
     Info.swc_id := Some "SWC-103";
     Info.recommendation := "Lock pragma to specific version: pragma solidity 0.8.19;" |}.

Definition outdated_compiler : Info.t :=
  {| Info.pattern := "pragma\s+solidity\s*[\^>=]*\s*0\.[0-6]\.";
     Info.exclude := None;
     Info.check_before := None;
     Info.check_after := None;
     Info.context := None;
     Info.name := "Outdated Compiler Version";
     Info.description := "Using outdated Solidity version with known vulnerabilities";
     Info.severity := "MEDIUM";
     Info.category := "VERSION";
     Info.cwe_id := Some "CWE-1103";
     Info.swc_id := Some "SWC-102";
     Info.recommendation := "Upgrade to Solidity 0.8.x for built-in overflow protection and security improvements." |}.

Definition default_visibility : Info.t :=
  {| Info.pattern := "function\s+\w+\s*\([^)]*\)\s*(?!.*(?:public|private|internal|external))";
     Info.exclude := None;
     Info.check_before := None;
     Info.check_after := None;
     Info.context := None;
     Info.name := "Default Visibility";
     Info.description := "Function visibility not explicitly specified";
     Info.severity := "MEDIUM";
     Info.category := "VISIBILITY";
     Info.cwe_id := Some "CWE-710";
     Info.swc_id := Some "SWC-100";
     Info.recommendation := "Always explicitly declare function visibility (public, private, internal, external)." |}.

Definition uninitialized_storage : Info.t :=
  {| Info.pattern := "struct\s+\w+.*storage\s+\w+\s*;";
     Info.exclude := None;
     Info.check_before := None;
     Info.check_after := None;
     Info.context := None;
     Info.name := "Uninitialized Storage Pointer";
     Info.description := "Storage pointer declared without initialization";
     Info.severity := "HIGH";
     Info.category := "STORAGE";
     Info.cwe_id := Some "CWE-824";
     Info.swc_id := Some "SWC-109";
     Info.recommendation := "Initialize storage pointers explicitly or use memory keyword." |}.

Definition dos_gas_limit : Info.t :=
  {| Info.pattern := "for\s*\([^)]*\.length|while\s*\(";
     Info.exclude := None;
     Info.check_before := None;
     Info.check_after := None;
     Info.context := None;
     Info.name := "Denial of Service - Gas Limit";
     Info.description := "Unbounded loop may exceed block gas limit";
     Info.severity := "MEDIUM";
     Info.category := "DOS";
     Info.cwe_id := Some "CWE-400";
     Info.swc_id := Some "SWC-128";
     Info.recommendation := "Implement pagination or limit loop iterations. Use pull over push pattern." |}.

Definition zero_address : Info.t :=
  {| Info.pattern := "function\s+\w+\s*\([^)]*address\s+\w+[^)]*\)\s*(?!.*require\s*\([^)]*!=\s*address\s*\(\s*0\s*\))";
     Info.exclude := None;
     Info.check_before := None;
     Info.check_after := None;
     Info.context := None;
     Info.name := "Missing Zero Address Check";
     Info.description := "Address parameter not validated for zero address";
     Info.severity := "LOW";
     Info.category := "INPUT_VALIDATION";
     Info.cwe_id := Some "CWE-20";
     Info.swc_id := Some "SWC-";
     Info.recommendation := "Add require(addr != address(0)) check for address parameters." |}.

Definition front_running : Info.t :=
  {| Info.pattern := "(approve\s*\(|swap|exchange|trade|buy|sell)";
     Info.exclude := None;
     Info.check_before := None;
     Info.check_after := None;
     Info.context := None;
     Info.name := "Potential Front-Running";
     Info.description := "Transaction may be vulnerable to front-running attacks";
     Info.severity := "MEDIUM";
     Info.category := "FRONT_RUNNING";
     Info.cwe_id := Some "CWE-362";
     Info.swc_id := Some "SWC-114";
     Info.recommendation := "Implement commit-reveal scheme or use flashbots for sensitive transactions." |}.

Definition signature_malleability : Info.t :=
  {| Info.pattern := "ecrecover\s*\(";
     Info.exclude := None;
     Info.check_before := None;
     Info.check_after := None;
     Info.context := None;
     Info.name := "Signature Malleability";
     Info.description := "ecrecover is vulnerable to signature malleability";
     Info.severity := "MEDIUM";
     Info.category := "CRYPTOGRAPHY";
     Info.cwe_id := Some "CWE-347";
     Info.swc_id := Some "SWC-117";
     Info.recommendation := "Use OpenZeppelin's ECDSA library which handles signature malleability." |}.

Definition hardcoded_address : Info.t :=
  {| Info.pattern := "0x[a-fA-F0-9]{40}";
     Info.exclude := Some "address\s*\(\s*0\s*\)|0x0{40}";
     Info.check_before := None;
     Info.check_after := None;
     Info.context := None;
     Info.name := "Hardcoded Address";
     Info.description := "Contract contains hardcoded address";
     Info.severity := "INFO";
     Info.category := "CODE_QUALITY";
     Info.cwe_id := Some "CWE-798";
     Info.swc_id := Some EmptyString;
     Info.recommendation := "Consider using constructor parameters or configurable addresses for flexibility." |}.

Definition missing_events : Info.t :=
  {| Info.pattern := "function\s+\w+\s*\([^)]*\)[^{]*\{[^}]*(?:balances?\[|\.transfer\(|\.send\(|owner\s*=)[^}]*\}(?![^}]*emit\s)";
     Info.exclude := None;
     Info.check_before := None;
     Info.check_after := None;
     Info.context := None;
     Info.name := "Missing Event Emission";
     Info.description := "State-changing function does not emit events";
     Info.severity := "LOW";
     Info.category := "CODE_QUALITY";
     Info.cwe_id := Some EmptyString;
     Info.swc_id := Some EmptyString;
     Info.recommendation := "Emit events for all state changes to enable off-chain monitoring." |}.

Definition assembly_usage : Info.t :=
  {| Info.pattern := "assembly\s*\{";
     Info.exclude := None;
     Info.check_before := None;
     Info.check_after := None;
     Info.context := None;
     Info.name := "Assembly Usage";
     Info.description := "Contract uses inline assembly which bypasses safety checks";
     Info.severity := "INFO";
     Info.category := "CODE_QUALITY";
     Info.cwe_id := Some EmptyString;
     Info.swc_id := Some EmptyString;
     Info.recommendation := "Ensure assembly code is thoroughly audited. Document why assembly is necessary." |}.
End Rules.

(** The catalog, in the insertion order of the dict literal. *)
Definition VULNERABILITY_PATTERNS : list (string * Info.t) :=
  [ ("reentrancy", Rules.reentrancy);
    ("integer_overflow", Rules.integer_overflow);
    ("unchecked_call", Rules.unchecked_call);
    ("tx_origin", Rules.tx_origin);
    ("selfdestruct", Rules.selfdestruct);
    ("delegatecall", Rules.delegatecall);
    ("timestamp", Rules.timestamp);
    ("blockhash", Rules.blockhash);
    ("floating_pragma", Rules.floating_pragma);
    ("outdated_compiler", Rules.outdated_compiler);
    ("default_visibility", Rules.default_visibility);
    ("uninitialized_storage", Rules.uninitialized_storage);
    ("dos_gas_limit", Rules.dos_gas_limit);
    ("zero_address", Rules.zero_address);
    ("front_running", Rules.front_running);
    ("signature_malleability", Rules.signature_malleability);
    ("hardcoded_address", Rules.hardcoded_address);
    ("missing_events", Rules.missing_events);
    ("assembly_usage", Rules.assembly_usage) ].

(** ** ML-enhanced analysis functions *)

(** The default of the parameter [code_quality_score]. *)
Definition default_code_quality_score : Q := 0.5.

Definition calculate_confidence (pattern_match context_match : bool)
    (code_quality_score : Q) : Q :=
  let base_confidence := (if pattern_match then 0.7 else 0.0)%Q in
  let base_confidence :=
    (if context_match then base_confidence + 0.2 else base_confidence)%Q in
  let base_confidence := (base_confidence + code_quality_score * 0.1)%Q in
  Qmin base_confidence 1.0.

(** One iteration of the rendering loop: [f"{prefix}{i}: {line}"]. *)
Definition snippet_line (line_number : Z) (il : Z * string) : string :=
  let '(i, line) := il in
  let prefix := if i =? line_number then ">>> " else "    " in
  prefix +:+ Py.str i +:+ ": " +:+ line.

Definition extract_code_snippet (source_code : string)
    (line_number context_lines : Z) : string :=
  let lines := Py.split_lines source_code in
  let start := Z.max 0 (line_number - context_lines - 1) in
  let end_ := Z.min (Z.of_nat (length lines)) (line_number + context_lines) in
  let snippet_lines :=
    map (snippet_line line_number)
        (Py.enumerate (Py.list_slice lines start end_) (start + 1)) in
  Py.join_lines snippet_lines.

Definition get_line_number (source_code : string) (match_position : nat) : Z :=
  Z.of_nat (Py.count_newlines (Py.slice_to source_code match_position)) + 1.

(** *** The confidence computation in IEEE binary64

    The same function on the machine's doubles: a decimal literal denotes
    the nearest double, as it does in Python, and [min(base, 1.0)] returns
    [1.0] only when it is smaller. *)

Local Set Warnings "-inexact-float".

Definition calculate_confidence_binary64 (pattern_match context_match : bool)
    (code_quality_score : float) : float :=
  let base_confidence := (if pattern_match then 0.7 else 0.0)%float in
  let base_confidence :=
    (if context_match then base_confidence + 0.2 else base_confidence)%float in
  let base_confidence := (base_confidence + code_quality_score * 0.1)%float in
  if (1.0 <? base_confidence)%float then 1.0%float else base_confidence.

(** The exact rational value of a finite double. *)
Definition binary64_value (x : float) : option Q :=
  match Prim2SF x with
  | S754_zero _ => Some 0%Q
  | S754_finite s m e =>
      let magnitude :=
        if 0 <=? e then inject_Z (Z.pos m * 2 ^ e)
        else Qmake (Z.pos m) (2 ^ Z.to_pos (- e))%positive in
      Some (if s then Qopp magnitude else magnitude)
  | S754_infinity _ | S754_nan => None
  end.

(** *** Python floats

    [+], [*] and [/] on floats are the primitive operations on doubles. The
    other operations the service uses are the conversion of a decimal to the
    nearest double, [round(x, 2)], [min] and [sum]. *)

Module PyFloat.

(** The binade of a positive rational: the [k] with [2^(k-1) <= q < 2^k]. *)
Definition magnitude (q : Q) : Z :=
  let k := Z.log2 (Qnum q) - Z.log2 (Z.pos (Qden q)) in
  if Qle_bool (2 ^ k) q then k + 1 else k.

(** The exponent of the doubles of the binade of [q]: a double has 53
    significant bits, and no exponent below -1074. *)
Definition exponent (q : Q) : Z := Z.max (magnitude q - 53) (-1074).

(** The mantissa at that exponent: the rational scaled to the exponent and
    rounded to the nearest integer, ties to even. *)
Definition mantissa (q : Q) : Z := Py.round_half_even (q / 2 ^ exponent q).

(** The double nearest to a non-negative rational, ties to the even
    mantissa, with the sign [s]: a mantissa that rounds up to [2^53] is that
    of the next binade, and an exponent above 971 overflows. *)
Definition nearest_spec (s : bool) (q : Q) : spec_float :=
  let '(m, e) :=
    if mantissa q =? 2 ^ 53 then (2 ^ 52, exponent q + 1)
    else (mantissa q, exponent q) in
  match m with
  | Z.pos p => if e <=? 971 then S754_finite s p e else S754_infinity s
  | _ => S754_zero s
  end.

(** The double nearest to a rational: the value of a decimal literal, and
    [float(i)] for an integer [i]. *)
Definition nearest (q : Q) : float :=
  SF2Prim (nearest_spec (Qnum q <? 0) (Qabs q)).

(** [round(x, 2)]: the double nearest to the decimal with two places that
    is nearest to the exact value of [x], ties to the even hundredth; the
    sign of [x] is kept when the result is zero, and zeros, infinities and
    NaN are returned as they are. *)
Definition round2 (x : float) : float :=
  match Prim2SF x, binary64_value x with
  | S754_finite s _ _, Some q =>
      let n := Py.round_half_even (q * 100) in
      if n =? 0 then SF2Prim (S754_zero s) else nearest (n # 100)
  | _, _ => x
  end.

(** [min(a, b)]: [b] when it is smaller, else [a]. *)
Definition min (a b : float) : float := if (b <? a)%float then b else a.

(** [sum(l)]: the additions from left to right, starting from [0], as
    CPython computes it up to version 3.11 (later versions compensate the
    rounding errors of a sum of floats). *)
Definition sum (l : list float) : float := fold_left PrimFloat.add l 0%float.

End PyFloat.

(** The double read from the [confidence] field of a finding. *)
Definition confidence_float (vuln : Vulnerability.t) : float :=
  PyFloat.nearest (Vulnerability.confidence vuln).

(** *** Values of non-negative doubles

    The order of non-negative doubles is the order of their values, where
    the infinity stands for [2^1024], the least magnitude that rounds to
    it. *)

Definition value_spec (x : spec_float) : Q :=
  match x with
  | S754_finite _ m e => (inject_Z (Z.pos m) * 2 ^ e)%Q
  | S754_infinity _ => (2 ^ 1024)%Q
  | _ => 0%Q
  end.

(** Zero of either sign, a positive finite double or the positive
    infinity. *)
Definition nonneg_spec (x : spec_float) : bool :=
  match x with
  | S754_zero _ => true
  | S754_finite s _ _ => negb s
  | S754_infinity s => negb s
  | S754_nan => false
  end.

(** The value of the double nearest to a non-negative rational. *)
Definition rounded (q : Q) : Q := value_spec (PyFloat.nearest_spec false q).

(** The value of [round(x, 2)] for a double of value [q]. *)
Definition rounded2 (q : Q) : Q :=
  rounded (inject_Z (Py.round_half_even (q * 100)) / 100).

(** The same on primitive doubles. *)
Definition value64 (x : float) : Q := value_spec (Prim2SF x).

Definition nonneg64 (x : float) : bool := nonneg_spec (Prim2SF x).

(** A zero or a finite double. *)
Definition finite64 (x : float) : bool :=
  match Prim2SF x with
  | S754_zero _ | S754_finite _ _ _ => true
  | _ => false
  end.

(** [x in [..]] on strings. *)
Definition in_list (x : string) (l : list string) : bool :=
  existsb (String.eqb x) l.

(** The state of the scan loop: the list being built and the counter
    [vuln_id]. *)
Definition scan_state : Type := list Vulnerability.t * Z.

Section Scan.
Context `{Re}.

(** The exclusion test at the head of the match loop: [true] when the
    iteration is abandoned by [continue]. *)
Definition excluded (vuln_info : Info.t) (source_code : string) : bool :=
  match Info.exclude vuln_info with
  | Some exclude =>
      match search exclude source_code [IGNORECASE] with
      | Some _ => true
      | None => false
      end
  | None => false
  end.

(** The value of [context_match] after the two mitigation checks. *)
Definition context_check (vuln_info : Info.t) (source_code : string)
    (m : Match) : bool :=
  let context_match := true in
  let context_match :=
    match Info.check_before vuln_info with
    | Some check_before =>
        let before_code := Py.slice_to source_code (m_start m) in
        match search check_before (Py.slice_last before_code 500) [IGNORECASE] with
        | Some _ => false
        | None => context_match
        end
    | None => context_match
    end in
  let context_match :=
    match Info.check_after vuln_info with
    | Some check_after =>
        let after_code := Py.slice_from source_code (m_end m) in
        match search check_after (Py.slice_to after_code 500) [IGNORECASE] with
        | Some _ => false
        | None => context_match
        end
    | None => context_match
    end in
  context_match.

(** The body of [for match in matches]. *)
Definition match_step (contract_name vuln_key : string) (vuln_info : Info.t)
    (source_code : string) (st : scan_state) (m : Match) : scan_state :=
  let '(vulnerabilities, vuln_id) := st in
  if excluded vuln_info source_code then st
  else
    let line_number := get_line_number source_code (m_start m) in
    let code_snippet := extract_code_snippet source_code line_number 2 in
    let context_match := context_check vuln_info source_code m in
    if negb context_match
       && negb (in_list (Info.severity vuln_info) ["CRITICAL"; "HIGH"])
    then st
    else
      let confidence :=
        calculate_confidence true context_match default_code_quality_score in
      let severity := Info.severity vuln_info in
      let '(severity, confidence) :=
        if negb context_match && in_list severity ["CRITICAL"; "HIGH"]
        then ("MEDIUM", (confidence * 0.8)%Q)
        else (severity, confidence) in
      let vuln :=
        {| Vulnerability.id :=
             contract_name +:+ "-" +:+ vuln_key +:+ "-" +:+ Py.str vuln_id;
           Vulnerability.name := Info.name vuln_info;
           Vulnerability.description := Info.description vuln_info;
           Vulnerability.severity := severity;
           Vulnerability.category := Info.category vuln_info;
           Vulnerability.line_number := line_number;
           Vulnerability.code_snippet := code_snippet;
           Vulnerability.recommendation := Info.recommendation vuln_info;
           Vulnerability.confidence := Py.round2 confidence;
           Vulnerability.cwe_id := Info.cwe_id vuln_info;
           Vulnerability.swc_id := Info.swc_id vuln_info |} in
      (vulnerabilities ++ [vuln], vuln_id + 1).

(** The body of [for vuln_key, vuln_info in ....items()]. *)
Definition rule_step (contract_name source_code : string) (st : scan_state)
    (entry : string * Info.t) : scan_state :=
  let '(vuln_key, vuln_info) := entry in
  let pattern := Info.pattern vuln_info in
  let matches := finditer pattern source_code [IGNORECASE; MULTILINE] in
  fold_left (match_step contract_name vuln_key vuln_info source_code) matches st.

(** The scan over an arbitrary catalog. *)
Definition analyze_rules (rules : list (string * Info.t))
    (source_code contract_name : string) : list Vulnerability.t :=
  fst (fold_left (rule_step contract_name source_code) rules ([], 1)).

Definition analyze_contract_patterns (source_code contract_name : string)
    : list Vulnerability.t :=
  analyze_rules VULNERABILITY_PATTERNS source_code contract_name.

End Scan.

(** The dict literal [severity_weights]. *)
Definition severity_weights : gmap string float :=
  <["CRITICAL" := 10.0%float]> (<["HIGH" := 7.0%float]>
    (<["MEDIUM" := 4.0%float]> (<["LOW" := 2.0%float]>
      (<["INFO" := 0.5%float]> ∅)))).

Definition calculate_risk_score (vulnerabilities : list Vulnerability.t)
    : float :=
  match vulnerabilities with
  | [] => 0.0%float
  | _ =>
      let total_weight :=
        fold_left
          (fun total_weight vuln =>
             let weight :=
               default 1.0%float
                 (severity_weights !! Vulnerability.severity vuln) in
             (total_weight + weight * confidence_float vuln)%float)
          vulnerabilities 0.0%float in
      let max_score := 100.0%float in
      let risk_score := PyFloat.min (total_weight * 5)%float max_score in
      PyFloat.round2 risk_score
  end.

(** [field] is the attribute read by [getattr(vuln, field)]; the service
    passes ['severity'] and ['category']. *)
Definition count_by_field (vulnerabilities : list Vulnerability.t)
    (field : Vulnerability.t -> string) : gmap string Z :=
  fold_left
    (fun counts vuln =>
       let value := field vuln in
       <[value := default 0 (counts !! value) + 1]> counts)
    vulnerabilities ∅.

(** ** API endpoints

    The single-contract endpoint is modelled on the requests whose body is
    absent or a JSON object with string fields: for these the [try] block
    raises nothing. The batch endpoint is modelled on every request, with
    the [except] branch that answers 500. The wall-clock field
    [processingTimeMs] of the responses is left out. *)

(** The [metrics] object of a response; the batch endpoint has no
    [modelConfidence]. *)
Record AnalysisMetrics := {
  overall_risk_score : float;
  total_vulnerabilities : Z;
  severity_count : gmap string Z;
  category_count : gmap string Z;
  model_confidence : option float
}.

Record AnalysisResponse := {
  success : bool;
  message : string;
  contract_name : option string;
  vulnerabilities : list Vulnerability.t;
  metrics : option AnalysisMetrics
}.

(** One entry of the batch result: the dict with [success] true, the
    findings and the metrics, or the dict with [success] false and a
    message. *)
Inductive batch_entry :=
| EntryAnalyzed (vulnerabilities : list Vulnerability.t) (metrics : AnalysisMetrics)
| EntryFailed (message : string).

Definition entry_success (e : batch_entry) : bool :=
  match e with
  | EntryAnalyzed _ _ => true
  | EntryFailed _ => false
  end.

(** A parsed JSON value, as [request.get_json()] returns it: an object is a
    Python dict, kept as the list of its items in insertion order. *)
Local Unset Elimination Schemes.
Inductive json :=
| JNull
| JBool (b : bool)
| JInt (i : Z)
| JFloat (x : float)
| JStr (s : string)
| JArray (elements : list json)
| JObject (items : list (string * json)).
Local Set Elimination Schemes.

(** [request.get_json()]: it raises (no body, a body that is not JSON,
    another content type) or returns the parsed body. *)
Inductive get_json :=
| GetJsonRaises
| GetJson (data : json).

(** The truth value of a JSON value in a condition. *)
Definition truthy (v : json) : bool :=
  match v with
  | JNull => false
  | JBool b => b
  | JInt i => negb (i =? 0)
  | JFloat x => negb (x =? 0)%float
  | JStr s => negb (String.eqb s EmptyString)
  | JArray elements => match elements with [] => false | _ => true end
  | JObject items => match items with [] => false | _ => true end
  end.

(** [isinstance(v, dict)]. *)
Definition is_dict (v : json) : bool :=
  match v with
  | JObject _ => true
  | _ => false
  end.

(** [d.get(key, default)] on the items of a dict. *)
Fixpoint dict_get (items : list (string * json)) (key : string)
    (default : json) : json :=
  match items with
  | [] => default
  | (k, v) :: items' =>
      if String.eqb k key then v else dict_get items' key default
  end.

(** What the body of the batch endpoint's [try] block can raise: the
    exception of [request.get_json()], the [AttributeError] of [.get] on a
    value that is not a dict, and the [TypeError] of [re.finditer] on a
    value that is not a string. *)
Inductive exception :=
| RequestError
| AttributeError
| TypeError.

(** The batch response: rejected as a whole (400), a result per contract
    (200), or the failure of the [except] branch (500), whose message is
    [Batch analysis failed: ] followed by the text of the exception. *)
Inductive batch_response :=
| BatchRejected (message : string)
| BatchResults (results : gmap string batch_entry)
| BatchFailed (e : exception).

Section Endpoints.
Context `{Re}.

(** [analyze_contract], with the HTTP status it answers. The mean
    confidence of no finding is the integer [0], rendered here as the
    double [0.0]. *)
Definition analyze_contract (data : option (gmap string string))
    : AnalysisResponse * Z :=
  let rejected msg :=
    ({| success := false; message := msg; contract_name := None;
        vulnerabilities := []; metrics := None |}, 400) in
  match data with
  | None => rejected "No JSON data provided"
  | Some data =>
      if bool_decide (data = ∅) then rejected "No JSON data provided"
      else
        let contract_code := default EmptyString (data !! "contractCode") in
        let contract_name := default "Unknown" (data !! "contractName") in
        if String.eqb contract_code EmptyString
        then rejected "Contract code is required"
        else
          let vulnerabilities :=
            analyze_contract_patterns contract_code contract_name in
          let risk_score := calculate_risk_score vulnerabilities in
          let severity_count :=
            count_by_field vulnerabilities Vulnerability.severity in
          let category_count :=
            count_by_field vulnerabilities Vulnerability.category in
          let avg_confidence :=
            match vulnerabilities with
            | [] => 0%float
            | _ => (PyFloat.sum (confidence_float <$> vulnerabilities)
                    / PyFloat.nearest
                        (inject_Z (Z.of_nat (length vulnerabilities))))%float
            end in
          ({| success := true;
              message :=
                "Analysis completed. Found "
                +:+ Py.str (Z.of_nat (length vulnerabilities))
                +:+ " potential vulnerabilities.";
              contract_name := Some contract_name;
              vulnerabilities := vulnerabilities;
              metrics :=
                Some {| overall_risk_score := risk_score;
                        total_vulnerabilities := Z.of_nat (length vulnerabilities);
                        severity_count := severity_count;
                        category_count := category_count;
                        model_confidence :=
                          Some (PyFloat.round2 avg_confidence) |} |},
           200)
  end.

(** The body of [for contract_name, contract_data in data.items()]: the
    results with the entry of this contract added, or the exception that
    ends the loop. *)
Definition batch_step (contract_name : string) (contract_data : json)
    (results : gmap string batch_entry)
    : exception + gmap string batch_entry :=
  match contract_data with
  | JObject items =>
      let contract_code := dict_get items "contractCode" (JStr EmptyString) in
      if truthy contract_code then
        match contract_code with
        | JStr contract_code =>
            let vulnerabilities :=
              analyze_contract_patterns contract_code contract_name in
            let risk_score := calculate_risk_score vulnerabilities in
            inr (<[contract_name :=
                     EntryAnalyzed vulnerabilities
                       {| overall_risk_score := risk_score;
                          total_vulnerabilities :=
                            Z.of_nat (length vulnerabilities);
                          severity_count :=
                            count_by_field vulnerabilities Vulnerability.severity;
                          category_count :=
                            count_by_field vulnerabilities Vulnerability.category;
                          model_confidence := None |}]> results)
        | _ => inl TypeError
        end
      else
        inr (<[contract_name := EntryFailed "No contract code provided"]> results)
  | _ => inl AttributeError
  end.

(** The loop over the items of the request, in their order; an exception
    leaves the loop. *)
Fixpoint batch_loop (items : list (string * json))
    (results : gmap string batch_entry)
    : exception + gmap string batch_entry :=
  match items with
  | [] => inr results
  | (contract_name, contract_data) :: items' =>
      match batch_step contract_name contract_data results with
      | inl e => inl e
      | inr results' => batch_loop items' results'
      end
  end.

(** [batch_analyze], with the HTTP status it answers. *)
Definition batch_analyze (request : get_json) : batch_response * Z :=
  match request with
  | GetJsonRaises => (BatchFailed RequestError, 500)
  | GetJson data =>
      if negb (truthy data) || negb (is_dict data)
      then (BatchRejected "Expected object with contract names as keys", 400)
      else
        let items := match data with JObject items => items | _ => [] end in
        match batch_loop items ∅ with
        | inl e => (BatchFailed e, 500)
        | inr results => (BatchResults results, 200)
        end
  end.

End Endpoints.

(** ** A regex engine given by a transcript

    A finite record of the answers of [re] at given patterns and texts;
    every pattern and text not in the record has no match. *)

Record transcript := {
  t_finditer : list (string * string * list Match);
  t_search : list (string * string * Match)
}.

Fixpoint transcript_lookup {A} (tbl : list (string * string * A))
    (pattern text : string) : option A :=
  match tbl with
  | [] => None
  | (p, s, a) :: tbl' =>
      if String.eqb p pattern && String.eqb s text then Some a
      else transcript_lookup tbl' pattern text
  end.

Definition transcript_re (t : transcript) : Re :=
  {| finditer pattern text _ :=
       default [] (transcript_lookup (t_finditer t) pattern text);
     search pattern text _ := transcript_lookup (t_search t) pattern text |}.

(** ** The specification's wording of the windows, the risk score, the snippet and the tallies *)

(** The text before a match, as the specification words it: the characters
    of the source at the (at most) 500 offsets that precede [start]. *)
Definition window_before (source : string) (start : nat) : string :=
  substring (start - 500) (Nat.min start 500) source.

(** The text after a match: the characters of the source at the (at most)
    500 offsets from [stop] on. *)
Definition window_after (source : string) (stop : nat) : string :=
  substring stop 500 source.

(** The severity weight table, as the specification words it. *)
Definition weight_of (severity : string) : float :=
  if String.eqb severity "CRITICAL" then 10.0
  else if String.eqb severity "HIGH" then 7.0
  else if String.eqb severity "MEDIUM" then 4.0
  else if String.eqb severity "LOW" then 2.0
  else if String.eqb severity "INFO" then 0.5
  else 1.0.

(** [totalWeight], the sum over the findings, in their order, of weight
    times confidence. *)
Definition total_weight (findings : list Vulnerability.t) : float :=
  PyFloat.sum
    ((fun f => weight_of (Vulnerability.severity f) * confidence_float f)%float
       <$> findings).

(** The invariant of the data model on a finding's confidence. *)
Definition confidence_in_range (f : Vulnerability.t) : Prop :=
  (0 <= Vulnerability.confidence f <= 1)%Q.

(** The snippet as the specification words it: the lines whose 1-based
    number lies in the inclusive range
    [line_number - context_lines, line_number + context_lines], each prefixed
    with its number, the target line marked. *)
Definition snippet_spec (source_code : string)
    (line_number context_lines : Z) : string :=
  Py.join_lines
    (map (snippet_line line_number)
       (filter
          (fun il : Z * string =>
             line_number - context_lines <= il.1 <= line_number + context_lines)
          (Py.enumerate (Py.split_lines source_code) 1))).

(** The sum of the counts of a tally. *)
Definition sum_counts (counts : gmap string Z) : Z :=
  map_fold (fun _ c acc => c + acc) 0 counts.

(** The entry of the batch result for a contract given by its code: the
    failure for the empty code, else the scan of that code alone. *)
Definition batch_result `{Re} (contract_name contract_code : string)
    : batch_entry :=
  if String.eqb contract_code EmptyString
  then EntryFailed "No contract code provided"
  else
    let vulnerabilities := analyze_contract_patterns contract_code contract_name in
    EntryAnalyzed vulnerabilities
      {| overall_risk_score := calculate_risk_score vulnerabilities;
         total_vulnerabilities := Z.of_nat (length vulnerabilities);
         severity_count := count_by_field vulnerabilities Vulnerability.severity;
         category_count := count_by_field vulnerabilities Vulnerability.category;
         model_confidence := None |}.

(** The [contractCode] of a batch entry that is an object: the value under
    the key, the empty string when the key is absent. *)
Definition entry_field (contract_data : json) : option json :=
  match contract_data with
  | JObject items => Some (dict_get items "contractCode" (JStr EmptyString))
  | _ => None
  end.

Definition is_str (v : json) : bool :=
  match v with
  | JStr _ => true
  | _ => false
  end.

(** A batch entry is well formed when it is an object whose [contractCode]
    is a string or a value that counts as false. *)
Definition entry_ok (contract_data : json) : bool :=
  match entry_field contract_data with
  | Some contract_code => is_str contract_code || negb (truthy contract_code)
  | None => false
  end.

(** The exception a batch entry that is not well formed raises. *)
Definition entry_exception (contract_data : json) : exception :=
  match contract_data with
  | JObject _ => TypeError
  | _ => AttributeError
  end.

(** The result stored for a well-formed entry. *)
Definition entry_result `{Re} (contract_name : string) (contract_data : json)
    : batch_entry :=
  match entry_field contract_data with
  | Some (JStr contract_code) => batch_result contract_name contract_code
  | _ => EntryFailed "No contract code provided"
  end.

(** ** Transcripts of [re] on the sources used as concrete inputs *)

Definition span (a b : nat) : Match := {| m_start := a; m_end := b |}.

(** Source [tx.origin == msg.sender]: only the [tx_origin] rule matches. *)
Definition tx_origin_source : string := "tx.origin == msg.sender".

Definition tx_origin_re : Re :=
  transcript_re
    {| t_finditer := [("tx\.origin", tx_origin_source, [span 0 9])];
       t_search := [] |}.

(** Source [require(ok); to.send(1);]: only the [reentrancy] rule matches,
    and its [check_before] pattern hits the text before the match. *)
Definition guarded_send_source : string := "require(ok); to.send(1);".

Definition guarded_send_re : Re :=
  transcript_re
    {| t_finditer :=
         [(Info.pattern Rules.reentrancy, guarded_send_source, [span 15 21])];
       t_search :=
         [("(balances?\[|balance\s*[<>=]|require\s*\()", "require(ok); to",
           span 0 8)] |}.

(** Source [pragma solidity ^0.8.0; x = a + b;]: [integer_overflow] and
    [floating_pragma] match, and the exclusion pattern of the former hits. *)
Definition pragma_add_source : string := "pragma solidity ^0.8.0; x = a + b;".

Definition pragma_add_re : Re :=
  transcript_re
    {| t_finditer :=
         [(Info.pattern Rules.integer_overflow, pragma_add_source, [span 30 32]);
          (Info.pattern Rules.floating_pragma, pragma_add_source, [span 0 17])];
       t_search :=
         [("pragma\s+solidity\s*[\^>=]*\s*0\.[8-9]|SafeMath|unchecked",
           pragma_add_source, span 0 20)] |}.

(** A MEDIUM rule with a mitigation pattern; the catalog has none. *)
Definition guarded_timestamp : Info.t :=
  {| Info.pattern := "block\.timestamp";
     Info.exclude := None;
     Info.check_before := Some "nonReentrant";
     Info.check_after := None;
     Info.context := None;
     Info.name := Info.name Rules.timestamp;
     Info.description := Info.description Rules.timestamp;
     Info.severity := "MEDIUM";
     Info.category := Info.category Rules.timestamp;
     Info.cwe_id := Info.cwe_id Rules.timestamp;
     Info.swc_id := Info.swc_id Rules.timestamp;
     Info.recommendation := Info.recommendation Rules.timestamp |}.

Definition guarded_timestamp_source : string := "nonReentrant block.timestamp".

Definition guarded_timestamp_re : Re :=
  transcript_re
    {| t_finditer :=
         [("block\.timestamp", guarded_timestamp_source, [span 13 28])];
       t_search := [("nonReentrant", "nonReentrant ", span 0 12)] |}.

(** Source [pragma solidity ^0.8.0;]: only [floating_pragma] matches. *)
Definition floating_pragma_source : string := "pragma solidity ^0.8.0;".

Definition floating_pragma_re : Re :=
  transcript_re
    {| t_finditer :=
         [(Info.pattern Rules.floating_pragma, floating_pragma_source,
           [span 0 17])];
       t_search := [] |}.

(** The finding of the scan of [tx.origin == msg.sender]. *)
Definition tx_origin_finding : Vulnerability.t :=
  {| Vulnerability.id := "C-tx_origin-1";
     Vulnerability.name := Info.name Rules.tx_origin;
     Vulnerability.description := Info.description Rules.tx_origin;
     Vulnerability.severity := "HIGH";
     Vulnerability.category := "ACCESS_CONTROL";
     Vulnerability.line_number := 1;
     Vulnerability.code_snippet := ">>> 1: tx.origin == msg.sender";
     Vulnerability.recommendation := Info.recommendation Rules.tx_origin;
     Vulnerability.confidence := 0.95;
     Vulnerability.cwe_id := Some "CWE-287";
     Vulnerability.swc_id := Some "SWC-115" |}.

(** A finding given by its severity and confidence alone. *)
Definition sample_finding (severity : string) (confidence : Q)
    : Vulnerability.t :=
  {| Vulnerability.id := "C-sample-1";
     Vulnerability.name := "Sample";
     Vulnerability.description := "Sample finding";
     Vulnerability.severity := severity;
     Vulnerability.category := "CODE_QUALITY";
     Vulnerability.line_number := 1;
     Vulnerability.code_snippet := ">>> 1: x";
     Vulnerability.recommendation := "None";
     Vulnerability.confidence := confidence;
     Vulnerability.cwe_id := None;
     Vulnerability.swc_id := None |}.

(** The request of the single-contract endpoint for the source
    [tx.origin == msg.sender]. *)
Definition tx_origin_request : gmap string string :=
  <["contractCode" := tx_origin_source]> (<["contractName" := "C"]> ∅).

(** The batch of the specification's example. *)
Definition example_batch : json :=
  JObject
    [ ("A", JObject [("contractCode", JStr floating_pragma_source)]);
      ("B", JObject [("contractCode", JStr EmptyString)]) ].

(** A batch with an entry of empty code followed by an entry that is not an
    object. *)
Definition aborted_batch : json :=
  JObject
    [ ("A", JObject [("contractCode", JStr EmptyString)]);
      ("B", JStr "x") ].

(** ** The pattern listing endpoint *)

(** One element of the [patterns] list of [list_patterns]; the key of the
    CWE identifier is spelled [cwdId] in the source. *)
Record PatternEntry := {
  entry_id : string;
  entry_name : string;
  entry_description : string;
  entry_severity : string;
  entry_category : string;
  entry_cwdId : option string;
  entry_swcId : option string
}.

Record PatternListing := {
  listing_success : bool;
  totalPatterns : Z;
  patterns : list PatternEntry
}.

(** The loop of [list_patterns] over an arbitrary catalog. *)
Definition list_rules (rules : list (string * Info.t)) : list PatternEntry :=
  fold_left
    (fun patterns '(key, info) =>
       patterns
       ++ [{| entry_id := key;
              entry_name := Info.name info;
              entry_description := Info.description info;
              entry_severity := Info.severity info;
              entry_category := Info.category info;
              entry_cwdId := Info.cwe_id info;
              entry_swcId := Info.swc_id info |}])
    rules [].

Definition list_patterns : PatternListing :=
  let patterns := list_rules VULNERABILITY_PATTERNS in
  {| listing_success := true;
     totalPatterns := Z.of_nat (length patterns);
     patterns := patterns |}.

(** ** Predicates used to state properties of the scan *)

(** [v] is the finding the loop body builds for match [m] of the rule
    [vuln_key] when the counter is [vuln_id]: the rule's metadata, the line
    and snippet of the match, and either the declared severity with
    confidence 0.95 (context satisfied) or MEDIUM with confidence 0.60
    (context not satisfied, rule CRITICAL or HIGH). *)
Definition built_from `{Re} (contract_name vuln_key : string)
    (vuln_info : Info.t) (source_code : string) (vuln_id : Z) (m : Match)
    (v : Vulnerability.t) : Prop :=
  Vulnerability.id v
  = contract_name +:+ "-" +:+ vuln_key +:+ "-" +:+ Py.str vuln_id
  /\ Vulnerability.name v = Info.name vuln_info
  /\ Vulnerability.description v = Info.description vuln_info
  /\ Vulnerability.category v = Info.category vuln_info
  /\ Vulnerability.recommendation v = Info.recommendation vuln_info
  /\ Vulnerability.cwe_id v = Info.cwe_id vuln_info
  /\ Vulnerability.swc_id v = Info.swc_id vuln_info
  /\ Vulnerability.line_number v = get_line_number source_code (m_start m)
  /\ Vulnerability.code_snippet v
     = extract_code_snippet source_code
         (get_line_number source_code (m_start m)) 2
  /\ ((context_check vuln_info source_code m = true
       /\ Vulnerability.severity v = Info.severity vuln_info
       /\ Vulnerability.confidence v = 0.95%Q)
      \/ (context_check vuln_info source_code m = false
          /\ in_list (Info.severity vuln_info) ["CRITICAL"; "HIGH"] = true
          /\ Vulnerability.severity v = "MEDIUM"
          /\ Vulnerability.confidence v = 0.60%Q)).

(** The state of the scan: the counter is one more than the number of
    findings, and every finding was built from a match of a rule, with the
    counter value of its position. *)
Definition scan_inv `{Re} (rules : list (string * Info.t)) (src name : string)
    (st : scan_state) : Prop :=
  st.2 = Z.of_nat (length st.1) + 1
  /\ forall k v,
       st.1 !! k = Some v ->
       exists key info m,
         (key, info) ∈ rules
         /\ m ∈ finditer (Info.pattern info) src [IGNORECASE; MULTILINE]
         /\ built_from name key info src (Z.of_nat k + 1) m v.
(** The number of matches of the primary patterns of a catalog. *)
Definition total_matches `{Re} (rules : list (string * Info.t))
    (source_code : string) : nat :=
  sum_list
    (map
       (fun entry : string * Info.t =>
          length (finditer (Info.pattern entry.2) source_code
                    [IGNORECASE; MULTILINE]))
       rules).

(** A finding with its identifier blanked. *)
Definition forget_id (v : Vulnerability.t) : Vulnerability.t :=
  {| Vulnerability.id := EmptyString;
     Vulnerability.name := Vulnerability.name v;
     Vulnerability.description := Vulnerability.description v;
     Vulnerability.severity := Vulnerability.severity v;
     Vulnerability.category := Vulnerability.category v;
     Vulnerability.line_number := Vulnerability.line_number v;
     Vulnerability.code_snippet := Vulnerability.code_snippet v;
     Vulnerability.recommendation := Vulnerability.recommendation v;
     Vulnerability.confidence := Vulnerability.confidence v;
     Vulnerability.cwe_id := Vulnerability.cwe_id v;
     Vulnerability.swc_id := Vulnerability.swc_id v |}.

(** No character of the string is a dash. *)
Fixpoint dash_free (s : string) : bool :=
  match s with
  | EmptyString => true
  | String c s' => negb (Ascii.eqb c "-"%char) && dash_free s'
  end.

(** * Properties *)

(** ** Python primitives *)

Example split_empty : Py.split_lines EmptyString = [EmptyString].
Proof. reflexivity. Qed.

Example str_12 : Py.str 12 = "12".
Proof. reflexivity. Qed.

Example round2_tie_even : Py.round2 (0.125)%Q = (0.12)%Q /\ Py.round2 2.375%Q = 2.38%Q.
Proof. split; reflexivity. Qed.

(** Samples of the conversion of decimals and of [round(x, 2)] on
    doubles: the conversion agrees with the literals and with the division
    of the machine, and [round] keeps the sign of a zero. *)
Example nearest_samples :
  PyFloat.nearest 0.95%Q = 0.95%float
  /\ PyFloat.nearest 0.6%Q = 0.6%float
  /\ PyFloat.nearest (1 # 3)%Q = (1 / 3)%float
  /\ PyFloat.nearest (- (2 # 3))%Q = (- (2 / 3))%float
  /\ PyFloat.nearest (inject_Z 7) = 7%float.
Proof. repeat split; vm_compute; reflexivity. Qed.

Example round2_samples :
  PyFloat.round2 2.675 = 2.67%float
  /\ PyFloat.round2 0.125 = 0.12%float
  /\ PyFloat.round2 2.375 = 2.38%float
  /\ PyFloat.round2 21.374999999999996 = 21.37%float
  /\ PyFloat.round2 0.7749999999999999 = 0.77%float
  /\ PyFloat.round2 (-0.001) = (-0.0)%float
  /\ PyFloat.round2 infinity = infinity.
Proof. repeat split; vm_compute; reflexivity. Qed.

(** ** Binary64 arithmetic

    The operations of the Standard Library's specification of IEEE 754,
    which the primitive doubles implement, round to nearest; on
    non-negative doubles they are monotone. *)

Section Pow2.
Local Open Scope Q_scope.

Lemma pow2_pos (e : Z) : 0 < 2 ^ e.
Proof. apply Qpower_0_lt. reflexivity. Qed.

Lemma pow2_add (a b : Z) : 2 ^ (a + b) == 2 ^ a * 2 ^ b.
Proof. apply Qpower_plus. discriminate. Qed.

Lemma pow2_lt (a b : Z) : (a < b)%Z -> 2 ^ a < 2 ^ b.
Proof. intros Hab. apply Qpower_lt_compat_l; [exact Hab | reflexivity]. Qed.

Lemma pow2_le (a b : Z) : (a <= b)%Z -> 2 ^ a <= 2 ^ b.
Proof. intros Hab. apply Qpower_le_compat_l; [exact Hab | discriminate]. Qed.

Lemma pow2_lt_inv (a b : Z) : 2 ^ a < 2 ^ b -> (a < b)%Z.
Proof. intros Hab. apply (Qpower_lt_compat_l_inv 2); [exact Hab | reflexivity]. Qed.

Lemma pow2_Z (n : Z) : (0 <= n)%Z -> inject_Z (2 ^ n) == 2 ^ n.
Proof. intros Hn. apply (Zpower_Qpower 2 n Hn). Qed.

Lemma pow2_sub (a b : Z) : 2 ^ (a - b) == 2 ^ a / 2 ^ b.
Proof. apply Qpower_minus. discriminate. Qed.

(** Bounds between integers and powers of two carry over to [Q]. *)
Lemma pow2_Z_le (n a : Z) : (0 <= n)%Z -> (2 ^ n <= a)%Z -> 2 ^ n <= inject_Z a.
Proof. intros Hn Ha. rewrite <- (pow2_Z n Hn), <- Zle_Qle. exact Ha. Qed.

Lemma pow2_Z_lt (n a : Z) : (0 <= n)%Z -> (a < 2 ^ n)%Z -> inject_Z a < 2 ^ n.
Proof. intros Hn Ha. rewrite <- (pow2_Z n Hn), <- Zlt_Qlt. exact Ha. Qed.

Lemma magnitude_spec (q : Q) :
  0 < q -> 2 ^ (PyFloat.magnitude q - 1) <= q /\ q < 2 ^ PyFloat.magnitude q.
Proof.
  intros Hq. unfold PyFloat.magnitude.
  destruct q as [a b]. cbn [Qnum Qden].
  assert (0 < a)%Z as Ha by (unfold Qlt in Hq; cbn in Hq; lia).
  destruct (Z.log2_spec a Ha) as [Ha1 Ha2].
  destruct (Z.log2_spec (Z.pos b) ltac:(lia)) as [Hb1 Hb2].
  pose proof (Z.log2_nonneg a) as Hla. pose proof (Z.log2_nonneg (Z.pos b)) as Hlb.
  set (la := Z.log2 a) in *. set (lb := Z.log2 (Z.pos b)) in *.
  apply (pow2_Z_le _ _ Hla) in Ha1.
  apply (pow2_Z_lt (Z.succ la) a ltac:(lia)) in Ha2.
  apply (pow2_Z_le _ _ Hlb) in Hb1.
  apply (pow2_Z_lt (Z.succ lb) (Z.pos b) ltac:(lia)) in Hb2.
  assert (0 < inject_Z (Z.pos b)) as HB by (rewrite <- (Zlt_Qlt 0); lia).
  assert (a # b == inject_Z a / inject_Z (Z.pos b)) as Hab by apply Qmake_Qdiv.
  assert (2 ^ (la - lb - 1) < a # b) as Hlo.
  { rewrite Hab. apply Qlt_shift_div_l; [exact HB |].
    apply Qlt_le_trans with (2 ^ la); [| exact Ha1].
    apply Qlt_le_trans with (2 ^ (la - lb - 1) * 2 ^ Z.succ lb).
    - apply Qmult_lt_l; [apply pow2_pos | exact Hb2].
    - rewrite <- pow2_add. apply pow2_le. lia. }
  assert (a # b < 2 ^ (la - lb + 1)) as Hhi.
  { rewrite Hab. apply Qlt_shift_div_r; [exact HB |].
    apply Qlt_le_trans with (2 ^ Z.succ la); [exact Ha2 |].
    apply Qle_trans with (2 ^ (la - lb + 1) * 2 ^ lb).
    - rewrite <- pow2_add. apply pow2_le. lia.
    - apply Qmult_le_l; [apply pow2_pos | exact Hb1]. }
  destruct (Qle_bool (2 ^ (la - lb)) (a # b)) eqn:Hcmp.
  - apply Qle_bool_iff in Hcmp.
    replace (la - lb + 1 - 1)%Z with (la - lb)%Z by lia. split; assumption.
  - split; [apply Qlt_le_weak; exact Hlo |].
    apply Qnot_le_lt. intros Hle. apply Qle_bool_iff in Hle. congruence.
Qed.

Lemma magnitude_unique (q : Q) (k : Z) :
  2 ^ (k - 1) <= q -> q < 2 ^ k -> PyFloat.magnitude q = k.
Proof.
  intros Hlo Hhi.
  assert (0 < q) as Hq by (eapply Qlt_le_trans; [apply pow2_pos | exact Hlo]).
  destruct (magnitude_spec q Hq) as [Hlo' Hhi'].
  pose proof (pow2_lt_inv _ _ (Qle_lt_trans _ _ _ Hlo Hhi')).
  pose proof (pow2_lt_inv _ _ (Qle_lt_trans _ _ _ Hlo' Hhi)).
  lia.
Qed.

Lemma magnitude_mono (q q' : Q) :
  0 < q -> q <= q' -> (PyFloat.magnitude q <= PyFloat.magnitude q')%Z.
Proof.
  intros Hq Hle.
  destruct (magnitude_spec q Hq) as [Hlo _].
  destruct (magnitude_spec q' (Qlt_le_trans _ _ _ Hq Hle)) as [_ Hhi].
  pose proof (pow2_lt_inv _ _
                (Qle_lt_trans _ _ _ (Qle_trans _ _ _ Hlo Hle) Hhi)).
  lia.
Qed.

Lemma magnitude_comp (q q' : Q) :
  0 < q -> q == q' -> PyFloat.magnitude q = PyFloat.magnitude q'.
Proof.
  intros Hq Heq. symmetry. destruct (magnitude_spec q Hq) as [Hlo Hhi].
  apply magnitude_unique; rewrite <- Heq; assumption.
Qed.

End Pow2.

Section Digits.

Lemma digits2_pos_log2 (m : positive) :
  Z.pos (digits2_pos m) = Z.log2 (Z.pos m) + 1.
Proof.
  assert (forall p, digits2_pos p = Pos.size p) as Hsize.
  { induction p as [p IH | p IH |]; cbn; [rewrite IH .. |]; reflexivity. }
  destruct m as [p | p |]; cbn [digits2_pos Z.log2]; rewrite ?Hsize; lia.
Qed.

Lemma digits2_pos_bounds (m : positive) :
  2 ^ (Z.pos (digits2_pos m) - 1) <= Z.pos m < 2 ^ Z.pos (digits2_pos m).
Proof.
  rewrite digits2_pos_log2.
  replace (Z.log2 (Z.pos m) + 1 - 1) with (Z.log2 (Z.pos m)) by lia.
  apply (Z.log2_spec (Z.pos m)). lia.
Qed.

Lemma digits2_pos_unique (m : positive) (d : Z) :
  2 ^ (d - 1) <= Z.pos m < 2 ^ d -> Z.pos (digits2_pos m) = d.
Proof.
  intros [Hlo Hhi]. rewrite digits2_pos_log2.
  assert (0 < d) as Hd.
  { destruct (Z.ltb_spec 0 d) as [| Hle]; [assumption |].
    destruct (Z.eq_dec d 0) as [-> | Hne]; [cbn in Hhi; lia |].
    rewrite (Z.pow_neg_r 2 d) in Hhi by lia. lia. }
  rewrite (Z.log2_unique (Z.pos m) (d - 1)); [lia | lia |].
  replace (Z.succ (d - 1)) with d by lia. split; assumption.
Qed.

End Digits.

Section Rounding.
Local Open Scope Q_scope.

#[local] Instance round_half_even_comp : Proper (Qeq ==> eq) Py.round_half_even.
Proof.
  intros x y Hxy. unfold Py.round_half_even.
  rewrite (Qfloor_comp _ _ Hxy).
  rewrite (Qcompare_comp (x - inject_Z (Qfloor y)) (y - inject_Z (Qfloor y))
             ltac:(rewrite Hxy; reflexivity) (1 # 2) (1 # 2) ltac:(reflexivity)).
  reflexivity.
Qed.

Lemma round_half_even_mono (x y : Q) :
  x <= y -> (Py.round_half_even x <= Py.round_half_even y)%Z.
Proof.
  intros Hxy. unfold Py.round_half_even.
  pose proof (Qfloor_resp_le _ _ Hxy) as Hf.
  destruct (Z.eq_dec (Qfloor x) (Qfloor y)) as [Heq | Hne].
  - rewrite <- Heq.
    destruct (Qcompare_spec (x - inject_Z (Qfloor x)) (1 # 2)) as [Hx | Hx | Hx];
      destruct (Qcompare_spec (y - inject_Z (Qfloor x)) (1 # 2)) as [Hy | Hy | Hy];
      destruct (Z.even (Qfloor x)); try lia; exfalso; lra.
  - destruct (x - inject_Z (Qfloor x) ?= 1 # 2);
      destruct (y - inject_Z (Qfloor y) ?= 1 # 2);
      destruct (Z.even (Qfloor x)); destruct (Z.even (Qfloor y)); lia.
Qed.

Lemma round_half_even_Z (n : Z) : Py.round_half_even (inject_Z n) = n.
Proof.
  unfold Py.round_half_even. rewrite Qfloor_Z.
  destruct (Qcompare_spec (inject_Z n - inject_Z n) (1 # 2)) as [Hc | Hc | Hc];
    [exfalso; lra | reflexivity | exfalso; lra].
Qed.

Lemma round_half_even_pow2 (k : Z) :
  (0 <= k)%Z -> Py.round_half_even (2 ^ k) = (2 ^ k)%Z.
Proof.
  intros Hk. rewrite <- (round_half_even_comp _ _ (pow2_Z k Hk)).
  apply round_half_even_Z.
Qed.

(** Scaling to an exponent, rounding and scaling back does not cross a
    power of two that is a multiple of the unit. *)
Lemma scaled_round_le (q : Q) (e k : Z) :
  (e <= k)%Z -> q <= 2 ^ k ->
  inject_Z (Py.round_half_even (q / 2 ^ e)) * 2 ^ e <= 2 ^ k.
Proof.
  intros Hek Hq.
  assert (q / 2 ^ e <= 2 ^ (k - e)) as Hs.
  { rewrite pow2_sub. apply Qmult_le_compat_r; [exact Hq |].
    apply Qinv_le_0_compat, Qlt_le_weak, pow2_pos. }
  apply round_half_even_mono in Hs.
  rewrite round_half_even_pow2 in Hs by lia.
  rewrite Zle_Qle, pow2_Z in Hs by lia.
  apply Qle_trans with (2 ^ (k - e) * 2 ^ e).
  - apply Qmult_le_compat_r; [exact Hs | apply Qlt_le_weak, pow2_pos].
  - rewrite <- pow2_add. apply pow2_le. lia.
Qed.

Lemma scaled_round_ge (q : Q) (e k : Z) :
  (e <= k)%Z -> 2 ^ k <= q ->
  2 ^ k <= inject_Z (Py.round_half_even (q / 2 ^ e)) * 2 ^ e.
Proof.
  intros Hek Hq.
  assert (2 ^ (k - e) <= q / 2 ^ e) as Hs.
  { rewrite pow2_sub. apply Qmult_le_compat_r; [exact Hq |].
    apply Qinv_le_0_compat, Qlt_le_weak, pow2_pos. }
  apply round_half_even_mono in Hs.
  rewrite round_half_even_pow2 in Hs by lia.
  rewrite Zle_Qle, pow2_Z in Hs by lia.
  apply Qle_trans with (2 ^ (k - e) * 2 ^ e).
  - rewrite <- pow2_add. apply pow2_le. lia.
  - apply Qmult_le_compat_r; [exact Hs | apply Qlt_le_weak, pow2_pos].
Qed.

Lemma exponent_ge (q : Q) : (-1074 <= PyFloat.exponent q)%Z.
Proof. unfold PyFloat.exponent. lia. Qed.

Lemma exponent_mono (q q' : Q) :
  0 < q -> q <= q' -> (PyFloat.exponent q <= PyFloat.exponent q')%Z.
Proof.
  intros Hq Hle. pose proof (magnitude_mono q q' Hq Hle).
  unfold PyFloat.exponent. lia.
Qed.

Lemma mantissa_zero (q : Q) : q == 0 -> PyFloat.mantissa q = 0%Z.
Proof.
  intros Hq. unfold PyFloat.mantissa.
  assert (q / 2 ^ PyFloat.exponent q == inject_Z 0) as Hs.
  { generalize (2 ^ PyFloat.exponent q). intros c. rewrite Hq.
    change (inject_Z 0) with 0. unfold Qdiv. ring. }
  rewrite (round_half_even_comp _ _ Hs). apply round_half_even_Z.
Qed.

Lemma mantissa_nonneg (q : Q) : 0 <= q -> (0 <= PyFloat.mantissa q)%Z.
Proof.
  intros Hq. unfold PyFloat.mantissa.
  rewrite <- (round_half_even_Z 0). apply round_half_even_mono.
  apply Qle_shift_div_l; [apply pow2_pos |].
  change (inject_Z 0) with 0. rewrite Qmult_0_l. exact Hq.
Qed.

Lemma mantissa_le (q : Q) : 0 <= q -> (PyFloat.mantissa q <= 2 ^ 53)%Z.
Proof.
  intros Hq. destruct (Qlt_le_dec 0 q) as [Hpos | Hle].
  - destruct (magnitude_spec q Hpos) as [_ Hhi].
    pose proof (scaled_round_le q (PyFloat.exponent q)
                  (PyFloat.exponent q + 53)) as Hs.
    fold (PyFloat.mantissa q) in Hs.
    assert (q <= 2 ^ (PyFloat.exponent q + 53)) as Hq'.
    { apply Qlt_le_weak, Qlt_le_trans with (2 ^ PyFloat.magnitude q);
        [exact Hhi |]. apply pow2_le. unfold PyFloat.exponent. lia. }
    specialize (Hs ltac:(lia) Hq').
    rewrite (Z.add_comm (PyFloat.exponent q)), pow2_add in Hs.
    apply Qmult_le_r in Hs; [| apply pow2_pos].
    rewrite <- pow2_Z, <- Zle_Qle in Hs by lia. exact Hs.
  - rewrite mantissa_zero by lra. lia.
Qed.

(** In a binade of normal doubles the mantissa has 53 bits. *)
Lemma mantissa_normal (q : Q) :
  0 < q -> (-1074 < PyFloat.exponent q)%Z -> (2 ^ 52 <= PyFloat.mantissa q)%Z.
Proof.
  intros Hpos He. destruct (magnitude_spec q Hpos) as [Hlo _].
  pose proof (scaled_round_ge q (PyFloat.exponent q)
                (PyFloat.exponent q + 52)) as Hs.
  fold (PyFloat.mantissa q) in Hs.
  assert (2 ^ (PyFloat.exponent q + 52) <= q) as Hq'.
  { apply Qle_trans with (2 ^ (PyFloat.magnitude q - 1)); [| exact Hlo].
    apply pow2_le. unfold PyFloat.exponent in *. lia. }
  specialize (Hs ltac:(lia) Hq').
  rewrite (Z.add_comm (PyFloat.exponent q)), pow2_add in Hs.
  apply Qmult_le_r in Hs; [| apply pow2_pos].
  rewrite <- pow2_Z, <- Zle_Qle in Hs by lia. exact Hs.
Qed.

(** The rounded value before the overflow test. *)
Lemma scaled_mantissa_mono (q q' : Q) :
  0 <= q -> q <= q' ->
  inject_Z (PyFloat.mantissa q) * 2 ^ PyFloat.exponent q
  <= inject_Z (PyFloat.mantissa q') * 2 ^ PyFloat.exponent q'.
Proof.
  intros Hq Hle. destruct (Qlt_le_dec 0 q) as [Hpos | Hzero].
  - pose proof (exponent_mono q q' Hpos Hle) as He.
    destruct (Z.eq_dec (PyFloat.exponent q) (PyFloat.exponent q')) as [Heq | Hne].
    + unfold PyFloat.mantissa. rewrite <- Heq.
      apply Qmult_le_compat_r; [| apply Qlt_le_weak, pow2_pos].
      rewrite <- Zle_Qle. apply round_half_even_mono.
      apply Qmult_le_compat_r; [exact Hle |].
      apply Qinv_le_0_compat, Qlt_le_weak, pow2_pos.
    + assert (PyFloat.exponent q' = PyFloat.magnitude q' - 53)%Z as He'.
      { pose proof (exponent_ge q). unfold PyFloat.exponent in *. lia. }
      assert (PyFloat.magnitude q <= PyFloat.magnitude q' - 1)%Z as Hmag.
      { unfold PyFloat.exponent in *. lia. }
      destruct (magnitude_spec q Hpos) as [_ Hhi].
      destruct (magnitude_spec q' (Qlt_le_trans _ _ _ Hpos Hle)) as [Hlo' _].
      apply Qle_trans with (2 ^ (PyFloat.exponent q' + 52)).
      * apply scaled_round_le; [lia |].
        apply Qlt_le_weak, Qlt_le_trans with (2 ^ PyFloat.magnitude q);
          [exact Hhi | apply pow2_le; lia].
      * apply scaled_round_ge; [lia |].
        apply Qle_trans with (2 ^ (PyFloat.magnitude q' - 1)); [| exact Hlo'].
        apply pow2_le. lia.
  - assert (q == 0) as Hq0 by lra. rewrite (mantissa_zero q Hq0).
    change (inject_Z 0) with 0. rewrite Qmult_0_l.
    apply Qmult_le_0_compat; [| apply Qlt_le_weak, pow2_pos].
    rewrite <- (Zle_Qle 0). apply mantissa_nonneg. lra.
Qed.

End Rounding.

Section Nearest.
Local Open Scope Q_scope.

Lemma scaled_le_pow2 (m a e : Z) :
  (0 <= a)%Z -> (m <= 2 ^ a)%Z -> inject_Z m * 2 ^ e <= 2 ^ (a + e).
Proof.
  intros Ha Hm. rewrite pow2_add.
  apply Qmult_le_compat_r; [| apply Qlt_le_weak, pow2_pos].
  rewrite <- pow2_Z, <- Zle_Qle by exact Ha. exact Hm.
Qed.

Lemma scaled_lt_pow2 (m a e : Z) :
  (0 <= a)%Z -> (m < 2 ^ a)%Z -> inject_Z m * 2 ^ e < 2 ^ (a + e).
Proof.
  intros Ha Hm. rewrite pow2_add.
  apply Qmult_lt_r; [apply pow2_pos |].
  rewrite <- pow2_Z, <- Zlt_Qlt by exact Ha. exact Hm.
Qed.

Lemma scaled_ge_pow2 (m a e : Z) :
  (0 <= a)%Z -> (2 ^ a <= m)%Z -> 2 ^ (a + e) <= inject_Z m * 2 ^ e.
Proof.
  intros Ha Hm. rewrite pow2_add.
  apply Qmult_le_compat_r; [| apply Qlt_le_weak, pow2_pos].
  rewrite <- pow2_Z, <- Zle_Qle by exact Ha. exact Hm.
Qed.

Lemma valid_finite_iff (s : bool) (m : positive) (e : Z) :
  valid_binary (S754_finite s m e) = true
  <-> Z.max (Z.pos (digits2_pos m) + e - 53) (-1074) = e /\ (e <= 971)%Z.
Proof.
  unfold valid_binary, bounded, canonical_mantissa, fexp.
  change (emin prec emax) with (-1074)%Z. change prec with 53%Z.
  change (emax - 53)%Z with 971%Z.
  rewrite andb_true_iff, Z.eqb_eq, Z.leb_le. reflexivity.
Qed.

Lemma valid_finite_digits (s : bool) (m : positive) (e : Z) :
  valid_binary (S754_finite s m e) = true ->
  (Z.pos m < 2 ^ 53)%Z /\ (-1074 <= e <= 971)%Z
  /\ (-1074 < e -> 2 ^ 52 <= Z.pos m)%Z.
Proof.
  intros Hv. apply valid_finite_iff in Hv as [Hc He].
  pose proof (digits2_pos_bounds m) as [Hlo Hhi].
  assert (Z.pos (digits2_pos m) <= 53)%Z as Hd by lia.
  split; [| split; [lia |]].
  - eapply Z.lt_le_trans; [exact Hhi |]. apply Z.pow_le_mono_r; lia.
  - intros Hn. assert (Z.pos (digits2_pos m) = 53)%Z as Hd' by lia.
    rewrite Hd' in Hlo. exact Hlo.
Qed.

(** The value of the nearest double: the rounded mantissa at its exponent,
    capped by the overflow threshold. *)
Lemma value_nearest_spec (s : bool) (q : Q) :
  0 <= q ->
  value_spec (PyFloat.nearest_spec s q)
  == Qmin (inject_Z (PyFloat.mantissa q) * 2 ^ PyFloat.exponent q) (2 ^ 1024).
Proof.
  intros Hq. unfold PyFloat.nearest_spec.
  pose proof (mantissa_nonneg q Hq) as Hm0.
  pose proof (mantissa_le q Hq) as Hm1.
  pose proof (exponent_ge q) as He.
  destruct (PyFloat.mantissa q =? 2 ^ 53)%Z eqn:Hm.
  - apply Z.eqb_eq in Hm. rewrite Hm.
    change (2 ^ 52)%Z with (Z.pos (2 ^ 52)).
    assert (inject_Z (2 ^ 53) * 2 ^ PyFloat.exponent q
            == 2 ^ (PyFloat.exponent q + 53)) as Hs.
    { rewrite pow2_Z by lia. rewrite <- pow2_add. f_equiv. lia. }
    rewrite Hs.
    destruct (PyFloat.exponent q + 1 <=? 971)%Z eqn:Hle; cbn [value_spec].
    + apply Z.leb_le in Hle. rewrite Q.min_l.
      * change (Z.pos (2 ^ 52)) with (2 ^ 52)%Z. rewrite pow2_Z by lia.
        rewrite <- pow2_add. f_equiv. lia.
      * apply pow2_le. lia.
    + apply Z.leb_gt in Hle. rewrite Q.min_r; [reflexivity |].
      apply pow2_le. lia.
  - apply Z.eqb_neq in Hm.
    destruct (PyFloat.mantissa q) as [| p | p] eqn:Hp; [| | lia].
    + cbn [value_spec]. change (inject_Z 0) with 0. rewrite Qmult_0_l.
      rewrite Q.min_l; [reflexivity |]. apply Qlt_le_weak, pow2_pos.
    + destruct (PyFloat.exponent q <=? 971)%Z eqn:Hle; cbn [value_spec].
      * apply Z.leb_le in Hle. rewrite Q.min_l; [reflexivity |].
        apply Qle_trans with (2 ^ (53 + PyFloat.exponent q)).
        -- apply scaled_le_pow2; lia.
        -- apply pow2_le. lia.
      * apply Z.leb_gt in Hle. rewrite Q.min_r; [reflexivity |].
        assert (0 < q) as Hpos.
        { destruct (Qlt_le_dec 0 q) as [| Hz]; [assumption |].
          rewrite mantissa_zero in Hp by lra. discriminate Hp. }
        pose proof (mantissa_normal q Hpos ltac:(lia)) as Hn. rewrite Hp in Hn.
        apply Qle_trans with (2 ^ (52 + PyFloat.exponent q)).
        -- apply pow2_le. lia.
        -- apply scaled_ge_pow2; lia.
Qed.

Lemma rounded_mono (q q' : Q) : 0 <= q -> q <= q' -> rounded q <= rounded q'.
Proof.
  intros Hq Hle. unfold rounded.
  rewrite !value_nearest_spec by lra.
  apply Q.min_le_compat_r, scaled_mantissa_mono; assumption.
Qed.

Lemma nearest_spec_valid (s : bool) (q : Q) :
  0 <= q -> valid_binary (PyFloat.nearest_spec s q) = true.
Proof.
  intros Hq. unfold PyFloat.nearest_spec.
  pose proof (mantissa_nonneg q Hq) as Hm0.
  pose proof (mantissa_le q Hq) as Hm1.
  pose proof (exponent_ge q) as He.
  destruct (PyFloat.mantissa q =? 2 ^ 53)%Z eqn:Hm.
  - change (2 ^ 52)%Z with (Z.pos (2 ^ 52)).
    destruct (PyFloat.exponent q + 1 <=? 971)%Z eqn:Hle; [| reflexivity].
    apply Z.leb_le in Hle. apply valid_finite_iff.
    change (Z.pos (digits2_pos (2 ^ 52))) with 53%Z. lia.
  - apply Z.eqb_neq in Hm.
    destruct (PyFloat.mantissa q) as [| p | p] eqn:Hp; [reflexivity | | lia].
    destruct (PyFloat.exponent q <=? 971)%Z eqn:Hle; [| reflexivity].
    apply Z.leb_le in Hle. apply valid_finite_iff. split; [| exact Hle].
    pose proof (digits2_pos_bounds p) as [Hlo Hhi].
    assert (Z.pos (digits2_pos p) <= 53)%Z as Hd.
    { destruct (Z.le_gt_cases (Z.pos (digits2_pos p)) 53) as [| Hgt];
        [assumption |].
      assert (2 ^ 53 <= 2 ^ (Z.pos (digits2_pos p) - 1))%Z
        by (apply Z.pow_le_mono_r; lia).
      lia. }
    destruct (Z.eq_dec (PyFloat.exponent q) (-1074)%Z) as [Heq | Hne]; [lia |].
    assert (0 < q) as Hpos.
    { destruct (Qlt_le_dec 0 q) as [| Hz]; [assumption |].
      rewrite mantissa_zero in Hp by lra. discriminate Hp. }
    pose proof (mantissa_normal q Hpos ltac:(lia)) as Hn. rewrite Hp in Hn.
    assert (Z.pos (digits2_pos p) = 53)%Z as ->; [| lia].
    apply digits2_pos_unique. change (53 - 1)%Z with 52%Z. lia.
Qed.

Lemma nearest_spec_nonneg (q : Q) :
  nonneg_spec (PyFloat.nearest_spec false q) = true.
Proof.
  unfold PyFloat.nearest_spec.
  destruct (PyFloat.mantissa q =? 2 ^ 53)%Z.
  - change (2 ^ 52)%Z with (Z.pos (2 ^ 52)).
    destruct (_ <=? 971)%Z; reflexivity.
  - destruct (PyFloat.mantissa q); [reflexivity | | reflexivity].
    destruct (_ <=? 971)%Z; reflexivity.
Qed.

Lemma nearest_spec_comp (s : bool) (q q' : Q) :
  0 <= q -> q == q' -> PyFloat.nearest_spec s q = PyFloat.nearest_spec s q'.
Proof.
  intros Hq Heq. destruct (Qlt_le_dec 0 q) as [Hpos | Hz].
  - assert (PyFloat.exponent q = PyFloat.exponent q') as He.
    { unfold PyFloat.exponent. rewrite (magnitude_comp q q' Hpos Heq).
      reflexivity. }
    assert (PyFloat.mantissa q = PyFloat.mantissa q') as Hm.
    { unfold PyFloat.mantissa. rewrite <- He. apply round_half_even_comp.
      generalize (2 ^ PyFloat.exponent q). intros c. rewrite Heq.
      reflexivity. }
    unfold PyFloat.nearest_spec. rewrite He, Hm. reflexivity.
  - unfold PyFloat.nearest_spec.
    rewrite (mantissa_zero q), (mantissa_zero q') by lra. reflexivity.
Qed.

(** The magnitude of a dyadic number is read off its digits. *)
Lemma magnitude_dyadic (m : positive) (e : Z) :
  PyFloat.magnitude (inject_Z (Z.pos m) * 2 ^ e)
  = (Z.pos (digits2_pos m) + e)%Z.
Proof.
  pose proof (digits2_pos_bounds m) as [Hlo Hhi].
  apply magnitude_unique.
  - replace (Z.pos (digits2_pos m) + e - 1)%Z
      with (Z.pos (digits2_pos m) - 1 + e)%Z by lia.
    apply scaled_ge_pow2; [lia | exact Hlo].
  - apply scaled_lt_pow2; [lia | exact Hhi].
Qed.

(** A double is the nearest double to its own value. *)
Lemma nearest_spec_value (s : bool) (m : positive) (e : Z) :
  valid_binary (S754_finite s m e) = true ->
  PyFloat.nearest_spec s (inject_Z (Z.pos m) * 2 ^ e) = S754_finite s m e.
Proof.
  intros Hv. pose proof (valid_finite_digits s m e Hv) as (Hm & He & _).
  apply valid_finite_iff in Hv as [Hc _].
  assert (PyFloat.exponent (inject_Z (Z.pos m) * 2 ^ e) = e) as Hexp.
  { unfold PyFloat.exponent. rewrite magnitude_dyadic. exact Hc. }
  assert (PyFloat.mantissa (inject_Z (Z.pos m) * 2 ^ e) = Z.pos m) as Hman.
  { unfold PyFloat.mantissa. rewrite Hexp.
    rewrite <- (round_half_even_Z (Z.pos m)) at 2.
    apply round_half_even_comp. field.
    intros Hz. pose proof (pow2_pos e) as Hp. rewrite Hz in Hp.
    discriminate Hp. }
  unfold PyFloat.nearest_spec. rewrite Hman, Hexp.
  rewrite (proj2 (Z.eqb_neq _ _)) by lia.
  rewrite (proj2 (Z.leb_le _ _)) by lia. reflexivity.
Qed.

Lemma nearest_spec_zero (s : bool) :
  PyFloat.nearest_spec s 0 = S754_zero s.
Proof. reflexivity. Qed.

End Nearest.

Section Compare.
Local Open Scope Q_scope.

Lemma value_spec_nonneg (x : spec_float) : 0 <= value_spec x.
Proof.
  destruct x as [s | s | | s m e]; cbn [value_spec]; try discriminate.
  apply Qmult_le_0_compat; [| apply Qlt_le_weak, pow2_pos].
  rewrite <- (Zle_Qle 0). lia.
Qed.

Lemma value_finite_pos (s : bool) (m : positive) (e : Z) :
  0 < value_spec (S754_finite s m e).
Proof.
  cbn [value_spec]. apply Qmult_lt_0_compat; [| apply pow2_pos].
  rewrite <- (Zlt_Qlt 0). lia.
Qed.

Lemma value_finite_lt_max (s : bool) (m : positive) (e : Z) :
  valid_binary (S754_finite s m e) = true ->
  value_spec (S754_finite s m e) < 2 ^ 1024.
Proof.
  intros Hv. destruct (valid_finite_digits s m e Hv) as (Hm & He & _).
  cbn [value_spec]. apply Qlt_le_trans with (2 ^ (53 + e)).
  - apply scaled_lt_pow2; [lia | exact Hm].
  - apply pow2_le. lia.
Qed.

Lemma value_spec_le_max (x : spec_float) :
  valid_binary x = true -> value_spec x <= 2 ^ 1024.
Proof.
  intros Hv. destruct x as [s | s | | s m e]; cbn [value_spec];
    try discriminate.
  apply Qlt_le_weak, (value_finite_lt_max s m e Hv).
Qed.

(** On non-negative doubles the comparison of IEEE is the comparison of
    the values. *)
Lemma SFcompare_value (x y : spec_float) :
  valid_binary x = true -> valid_binary y = true ->
  nonneg_spec x = true -> nonneg_spec y = true ->
  SFcompare x y = Some (value_spec x ?= value_spec y).
Proof.
  intros Hvx Hvy Hx Hy.
  destruct x as [sx | sx | | sx mx ex]; try discriminate Hx;
    destruct y as [sy | sy | | sy my ey]; try discriminate Hy;
    cbn [nonneg_spec] in Hx, Hy;
    try (apply negb_true_iff in Hx; subst sx);
    try (apply negb_true_iff in Hy; subst sy);
    cbn [SFcompare];
    try (f_equal; symmetry; reflexivity);
    try (f_equal; symmetry; apply Qlt_alt, value_finite_pos);
    try (f_equal; symmetry; apply Qgt_alt, value_finite_pos);
    try (f_equal; symmetry; apply Qgt_alt, (value_finite_lt_max false my ey Hvy));
    try (f_equal; symmetry; apply Qlt_alt, (value_finite_lt_max false mx ex Hvx)).
  f_equal. symmetry.
  - destruct (valid_finite_digits _ _ _ Hvx) as (Hmx & Hex & Hnx).
    destruct (valid_finite_digits _ _ _ Hvy) as (Hmy & Hey & Hny).
    cbn [value_spec]. destruct (Z.compare_spec ex ey) as [-> | Hlt | Hgt].
    + change (Pos.compare_cont Eq mx my) with (Pos.compare mx my).
      destruct (Pos.compare_spec mx my) as [-> | Hm | Hm].
      * apply Qeq_alt. reflexivity.
      * apply Qlt_alt, Qmult_lt_r; [apply pow2_pos |].
        rewrite <- Zlt_Qlt. lia.
      * apply Qgt_alt, Qmult_lt_r; [apply pow2_pos |].
        rewrite <- Zlt_Qlt. lia.
    + apply Qlt_alt. apply Qlt_le_trans with (2 ^ (53 + ex)).
      * apply scaled_lt_pow2; [lia | exact Hmx].
      * apply Qle_trans with (2 ^ (52 + ey)); [apply pow2_le; lia |].
        apply scaled_ge_pow2; [lia | apply Hny; lia].
    + apply Qgt_alt. apply Qlt_le_trans with (2 ^ (53 + ey)).
      * apply scaled_lt_pow2; [lia | exact Hmy].
      * apply Qle_trans with (2 ^ (52 + ex)); [apply pow2_le; lia |].
        apply scaled_ge_pow2; [lia | apply Hnx; lia].
Qed.

End Compare.

(** *** The rounding of the Standard Library's operations *)

Section Shift.

Lemma iter_pos_nat {A} (f : A -> A) (n : positive) (x : A) :
  SpecFloat.iter_pos f n x = Nat.iter (Pos.to_nat n) f x.
Proof.
  revert x. induction n as [n IH | n IH |]; intros x; cbn [SpecFloat.iter_pos].
  - rewrite !IH, Pos2Nat.inj_xI, <- Nat.iter_add.
    replace (S (2 * Pos.to_nat n)) with (Pos.to_nat n + Pos.to_nat n + 1)%nat
      by lia.
    rewrite (Nat.iter_add _ 1). reflexivity.
  - rewrite !IH, Pos2Nat.inj_xO, <- Nat.iter_add. f_equal. lia.
  - reflexivity.
Qed.

Lemma shr_1_spec (m : Z) (r s : bool) :
  0 <= m ->
  shr_1 {| shr_m := m; shr_r := r; shr_s := s |}
  = {| shr_m := m / 2; shr_r := Z.odd m; shr_s := r || s |}.
Proof.
  intros Hm. rewrite <- Z.div2_div.
  destruct m as [| p | p]; [reflexivity | | lia].
  destruct p; reflexivity.
Qed.

(** After [k] shifts the record holds the quotient by [2^k], and its two
    bits place the remainder against the half of [2^k]. *)
Lemma shr_iter (M : Z) (k : nat) :
  0 <= M -> (1 <= k)%nat ->
  Nat.iter k shr_1 {| shr_m := M; shr_r := false; shr_s := false |}
  = {| shr_m := M / 2 ^ Z.of_nat k;
       shr_r := 2 ^ (Z.of_nat k - 1) <=? M mod 2 ^ Z.of_nat k;
       shr_s := negb (M mod 2 ^ Z.of_nat k =? 0)
                && negb (M mod 2 ^ Z.of_nat k =? 2 ^ (Z.of_nat k - 1)) |}.
Proof.
  intros HM Hk. induction k as [| k IH]; [lia |].
  destruct k as [| k].
  - cbn [Nat.iter]. rewrite shr_1_spec by exact HM.
    change (Z.of_nat 1) with 1. change (2 ^ 1) with 2. change (2 ^ (1 - 1)) with 1.
    pose proof (Zmod_odd M) as Hodd. pose proof (Z.mod_pos_bound M 2 ltac:(lia)).
    f_equal.
    + destruct (Z.odd M); destruct (Z.leb_spec 1 (M mod 2)); lia.
    + destruct (Z.eqb_spec (M mod 2) 0); destruct (Z.eqb_spec (M mod 2) 1);
        cbn; lia.
  - rewrite Nat.iter_succ, IH by lia. clear IH.
    assert (0 < 2 ^ (Z.of_nat (S k) - 1)) as HH by (apply Z.pow_pos_nonneg; lia).
    assert (2 ^ Z.of_nat (S k) = 2 * 2 ^ (Z.of_nat (S k) - 1)) as HP.
    { rewrite <- Z.pow_succ_r by lia. f_equal. lia. }
    assert (2 ^ Z.of_nat (S (S k)) = 2 * 2 ^ Z.of_nat (S k)) as HP'.
    { rewrite <- Z.pow_succ_r by lia. f_equal. lia. }
    replace (Z.of_nat (S (S k)) - 1) with (Z.of_nat (S k)) by lia.
    set (H := 2 ^ (Z.of_nat (S k) - 1)) in *.
    set (P := 2 ^ Z.of_nat (S k)) in *.
    set (P' := 2 ^ Z.of_nat (S (S k))) in *.
    pose proof (Z.div_mod M P ltac:(lia)) as HMP.
    pose proof (Z.mod_pos_bound M P ltac:(lia)) as HR.
    assert (0 <= M / P) as Hm by (apply Z.div_pos; lia).
    rewrite shr_1_spec by exact Hm.
    pose proof (Z.div_mod (M / P) 2 ltac:(lia)) as Hm2.
    pose proof (Zmod_odd (M / P)) as Hodd.
    set (m := M / P) in *. set (R := M mod P) in *.
    assert (M / P' = m / 2 /\ M mod P' = (if Z.odd m then P else 0) + R)
      as [Hq Hr].
    { assert (M = P' * (m / 2) + ((if Z.odd m then P else 0) + R)) as Hdec.
      { destruct (Z.odd m); lia. }
      assert (0 <= (if Z.odd m then P else 0) + R < P') as Hb.
      { destruct (Z.odd m); lia. }
      split; [symmetry; apply (Z.div_unique_pos M P' _ _ Hb Hdec) |].
      symmetry. apply (Z.mod_unique_pos M P' _ _ Hb Hdec). }
    rewrite Hq, Hr. f_equal.
    + destruct (Z.odd m); destruct (Z.leb_spec P (P + R));
        destruct (Z.leb_spec P (0 + R)); lia.
    + destruct (Z.odd m);
        destruct (Z.leb_spec H R); destruct (Z.eqb_spec R 0);
        destruct (Z.eqb_spec R H); destruct (Z.eqb_spec (P + R) 0);
        destruct (Z.eqb_spec (P + R) P); destruct (Z.eqb_spec (0 + R) 0);
        destruct (Z.eqb_spec (0 + R) P); cbn; lia.
Qed.

Lemma Qcompare_half (R P : Z) :
  0 < P -> (inject_Z R / inject_Z (2 * P) ?= 1 # 2)%Q = (R ?= P).
Proof.
  intros HP.
  assert (0 < inject_Z (2 * P))%Q as H2P by (rewrite <- (Zlt_Qlt 0); lia).
  assert ((1 # 2) * inject_Z (2 * P) == inject_Z P)%Q as Hhalf.
  { rewrite inject_Z_mult. change (inject_Z 2) with 2%Q. ring. }
  destruct (Z.compare_spec R P) as [-> | Hlt | Hgt].
  - apply Qeq_alt. apply Qmult_inj_r with (inject_Z (2 * P)).
    + intros Hz. rewrite Hz in H2P. discriminate H2P.
    + rewrite Hhalf. field. intros Hz. rewrite Hz in H2P. discriminate H2P.
  - apply Qlt_alt, Qlt_shift_div_r; [exact H2P |].
    rewrite Hhalf, <- Zlt_Qlt. exact Hlt.
  - apply Qgt_alt, Qlt_shift_div_l; [exact H2P |].
    rewrite Hhalf, <- Zlt_Qlt. lia.
Qed.

(** The mantissa the shift and the rounding produce is the quotient rounded
    to nearest, ties to even. *)
Lemma round_nearest_even_shift (M n : Z) :
  0 <= M -> 0 < n ->
  round_nearest_even (M / 2 ^ n)
    (loc_of_shr_record
       {| shr_m := M / 2 ^ n;
          shr_r := 2 ^ (n - 1) <=? M mod 2 ^ n;
          shr_s := negb (M mod 2 ^ n =? 0) && negb (M mod 2 ^ n =? 2 ^ (n - 1)) |})
  = Py.round_half_even (inject_Z M / 2 ^ n)%Q.
Proof.
  intros HM Hn.
  assert (0 < 2 ^ (n - 1)) as HH by (apply Z.pow_pos_nonneg; lia).
  assert (2 ^ n = 2 * 2 ^ (n - 1)) as HP.
  { rewrite <- Z.pow_succ_r by lia. f_equal. lia. }
  assert (inject_Z M / 2 ^ n == inject_Z M / inject_Z (2 ^ n))%Q as Hx.
  { rewrite pow2_Z by lia. reflexivity. }
  rewrite (round_half_even_comp _ _ Hx). unfold Py.round_half_even.
  rewrite <- Zdiv_Qdiv.
  pose proof (Z.div_mod M (2 ^ n) ltac:(lia)) as HMP.
  pose proof (Z.mod_pos_bound M (2 ^ n) ltac:(lia)) as HR.
  assert (inject_Z M / inject_Z (2 ^ n) - inject_Z (M / 2 ^ n)
          == inject_Z (M mod 2 ^ n) / inject_Z (2 * 2 ^ (n - 1)))%Q as Hfrac.
  { rewrite <- HP. rewrite HMP at 1. rewrite inject_Z_plus, inject_Z_mult.
    field. intros Hz. apply (proj1 (inject_Z_injective (2 ^ n) 0)) in Hz. lia. }
  rewrite (Qcompare_comp _ _ Hfrac (1 # 2) (1 # 2) ltac:(reflexivity))%Q.
  rewrite Qcompare_half by exact HH.
  set (R := M mod 2 ^ n) in *. set (H := 2 ^ (n - 1)) in *.
  destruct (Z.compare_spec R H) as [Heq | Hlt | Hgt].
  - rewrite (proj2 (Z.leb_le H R)) by lia.
    rewrite (proj2 (Z.eqb_eq R H)) by lia.
    rewrite andb_false_r. reflexivity.
  - rewrite (proj2 (Z.leb_gt H R)) by lia.
    destruct (negb (R =? 0) && negb (R =? H)); reflexivity.
  - rewrite (proj2 (Z.leb_le H R)) by lia.
    rewrite (proj2 (Z.eqb_neq R 0)), (proj2 (Z.eqb_neq R H)) by lia.
    reflexivity.
Qed.

End Shift.

Section Algorithms.

Lemma fexp_eq (z : Z) : fexp prec emax z = Z.max (z - 53) (-1074).
Proof. reflexivity. Qed.

Lemma shr_exact (M E n : Z) :
  0 <= M -> 0 <= n ->
  let mrs := (shr {| shr_m := M; shr_r := false; shr_s := false |} E n).1 in
  (shr {| shr_m := M; shr_r := false; shr_s := false |} E n).2 = E + n
  /\ round_nearest_even (shr_m mrs) (loc_of_shr_record mrs)
     = Py.round_half_even (inject_Z M / 2 ^ n)%Q.
Proof.
  intros HM Hn. destruct n as [| p | p]; [| | lia]; cbn [shr fst snd].
  - split; [lia |]. cbn [loc_of_shr_record shr_m round_nearest_even].
    rewrite <- (round_half_even_Z M) at 1. apply round_half_even_comp.
    change (2 ^ 0)%Q with 1%Q. field.
  - split; [reflexivity |].
    rewrite iter_pos_nat, shr_iter by lia.
    rewrite positive_nat_Z. cbn [shr_m].
    apply round_nearest_even_shift; lia.
Qed.

Lemma digits_le_53 (p : positive) :
  Z.pos p < 2 ^ 53 -> Z.pos (digits2_pos p) <= 53.
Proof.
  intros Hp. pose proof (digits2_pos_bounds p) as [Hlo _].
  destruct (Z.le_gt_cases (Z.pos (digits2_pos p)) 53) as [| Hgt]; [assumption |].
  assert (2 ^ 53 <= 2 ^ (Z.pos (digits2_pos p) - 1))
    by (apply Z.pow_le_mono_r; lia).
  lia.
Qed.

(** The rounding step of the operations returns the double nearest to the
    number it is given, when that number comes with at least the digits of
    the result. *)
Lemma binary_round_aux_nearest (s : bool) (M : positive) (E : Z) :
  E <= fexp prec emax (Z.pos (digits2_pos M) + E) ->
  binary_round_aux prec emax s (Z.pos M) E loc_Exact
  = PyFloat.nearest_spec s (inject_Z (Z.pos M) * 2 ^ E)%Q.
Proof.
  intros HE. rewrite fexp_eq in HE.
  set (q := (inject_Z (Z.pos M) * 2 ^ E)%Q).
  set (e0 := Z.max (Z.pos (digits2_pos M) + E - 53) (-1074)) in *.
  assert (0 <= q)%Q as Hq by apply (value_spec_nonneg (S754_finite s M E)).
  assert (PyFloat.exponent q = e0) as Hexp.
  { unfold PyFloat.exponent, q. rewrite magnitude_dyadic. reflexivity. }
  assert (PyFloat.mantissa q
          = Py.round_half_even (inject_Z (Z.pos M) / 2 ^ (e0 - E))%Q) as Hman.
  { unfold PyFloat.mantissa. rewrite Hexp. apply round_half_even_comp.
    unfold q. rewrite pow2_sub. field.
    split; intros Hz.
    - pose proof (pow2_pos E) as Hp. rewrite Hz in Hp. discriminate Hp.
    - pose proof (pow2_pos e0) as Hp. rewrite Hz in Hp. discriminate Hp. }
  pose proof (mantissa_nonneg q Hq) as Hm0.
  pose proof (mantissa_le q Hq) as Hm1.
  unfold binary_round_aux, shr_fexp.
  cbn [Zdigits2 shr_record_of_loc]. rewrite fexp_eq. fold e0.
  destruct (shr_exact (Z.pos M) E (e0 - E) ltac:(lia) ltac:(lia)) as [He' Hr].
  destruct (shr {| shr_m := Z.pos M; shr_r := false; shr_s := false |} E (e0 - E))
    as [mrs' e'].
  cbn [fst snd] in He', Hr. rewrite Hr, <- Hman. subst e'.
  replace (E + (e0 - E)) with e0 by lia.
  unfold PyFloat.nearest_spec. rewrite Hexp.
  set (m1 := PyFloat.mantissa q) in *.
  change (emax - prec) with 971.
  destruct (m1 =? 2 ^ 53) eqn:Hm.
  - apply Z.eqb_eq in Hm. rewrite Hm.
    change (Zdigits2 (2 ^ 53)) with 54. rewrite fexp_eq.
    replace (Z.max (54 + e0 - 53) (-1074) - e0) with 1 by lia.
    reflexivity.
  - apply Z.eqb_neq in Hm.
    destruct m1 as [| p | p] eqn:Hp; [| | lia].
    + cbn [Zdigits2]. rewrite fexp_eq.
      destruct (Z.max (0 + e0 - 53) (-1074) - e0) eqn:Hn2; [| lia |];
        reflexivity.
    + cbn [Zdigits2]. rewrite fexp_eq.
      pose proof (digits_le_53 p ltac:(lia)) as Hd.
      destruct (Z.max (Z.pos (digits2_pos p) + e0 - 53) (-1074) - e0) eqn:Hn2;
        [| lia |]; reflexivity.
Qed.

Lemma pos_iter_xO (m d : positive) :
  Z.pos (Pos.iter xO m d) = Z.pos m * 2 ^ Z.pos d.
Proof.
  pose proof (shift_pos_correct d m) as Hs. unfold shift_pos in Hs.
  rewrite Hs, Z.pow_pos_fold. lia.
Qed.

(** [binary_round] first brings the mantissa to the exponent of the
    result. *)
Lemma binary_round_nearest (s : bool) (M : positive) (E : Z) :
  binary_round prec emax s M E
  = PyFloat.nearest_spec s (inject_Z (Z.pos M) * 2 ^ E)%Q.
Proof.
  unfold binary_round, shl_align. rewrite fexp_eq.
  set (e0 := Z.max (Z.pos (digits2_pos M) + E - 53) (-1074)).
  destruct (e0 - E) as [| d | d] eqn:Hd.
  - apply binary_round_aux_nearest. rewrite fexp_eq. fold e0. lia.
  - apply binary_round_aux_nearest. rewrite fexp_eq. fold e0. lia.
  - assert (E = e0 + Z.pos d) as HE by lia.
    assert (Z.pos (digits2_pos (Pos.iter xO M d)) = Z.pos (digits2_pos M) + Z.pos d)
      as Hdig.
    { apply digits2_pos_unique. rewrite pos_iter_xO.
      pose proof (digits2_pos_bounds M) as [Hlo Hhi].
      replace (Z.pos (digits2_pos M) + Z.pos d - 1)
        with (Z.pos (digits2_pos M) - 1 + Z.pos d) by lia.
      rewrite !Z.pow_add_r by lia.
      assert (0 < 2 ^ Z.pos d) by (apply Z.pow_pos_nonneg; lia).
      split; [apply Z.mul_le_mono_nonneg_r; lia |].
      apply Z.mul_lt_mono_pos_r; lia. }
    rewrite binary_round_aux_nearest.
    + apply nearest_spec_comp.
      * apply (value_spec_nonneg (S754_finite s (Pos.iter xO M d) e0)).
      * rewrite pos_iter_xO, inject_Z_mult, HE, pow2_add, pow2_Z by lia.
        ring.
    + rewrite fexp_eq, Hdig.
      replace (Z.pos (digits2_pos M) + Z.pos d + e0 - 53)
        with (Z.pos (digits2_pos M) + E - 53) by lia.
      fold e0. lia.
Qed.

End Algorithms.

Section Operations.
Local Open Scope Q_scope.

Lemma rounded_comp (q q' : Q) : 0 <= q -> q == q' -> rounded q == rounded q'.
Proof.
  intros Hq Heq. unfold rounded.
  rewrite (nearest_spec_comp false q q' Hq Heq). reflexivity.
Qed.

Lemma rounded_le_max (q : Q) : 0 <= q -> rounded q <= 2 ^ 1024.
Proof.
  intros Hq. unfold rounded. rewrite value_nearest_spec by exact Hq.
  apply Q.le_min_r.
Qed.

Lemma rounded_max : rounded (2 ^ 1024) == 2 ^ 1024.
Proof. vm_compute. reflexivity. Qed.

Lemma rounded_overflow (q : Q) : 2 ^ 1024 <= q -> rounded q == 2 ^ 1024.
Proof.
  intros Hq.
  assert (0 <= q) as Hq0.
  { apply Qle_trans with (2 ^ 1024); [apply Qlt_le_weak, pow2_pos | exact Hq]. }
  apply Qle_antisym; [apply rounded_le_max, Hq0 |].
  rewrite <- rounded_max at 1. apply rounded_mono; [| exact Hq].
  apply Qlt_le_weak, pow2_pos.
Qed.

Lemma rounded_zero : rounded 0 == 0.
Proof. reflexivity. Qed.

Lemma rounded_nonneg (q : Q) : 0 <= rounded q.
Proof. apply value_spec_nonneg. Qed.

(** A non-negative double is the nearest double to its value. *)
Lemma rounded_value (x : spec_float) :
  valid_binary x = true -> nonneg_spec x = true ->
  rounded (value_spec x) == value_spec x.
Proof.
  intros Hv Hx. destruct x as [s | s | | s m e]; try discriminate Hx.
  - reflexivity.
  - apply rounded_max.
  - unfold rounded. cbn [value_spec].
    rewrite (nearest_spec_value false m e); [reflexivity |].
    apply valid_finite_iff. apply (valid_finite_iff s m e). exact Hv.
Qed.

Lemma shl_align_value (mx : positive) (ex ez : Z) :
  (ez <= ex)%Z ->
  Z.pos (shl_align mx ex ez).1 = (Z.pos mx * 2 ^ (ex - ez))%Z.
Proof.
  intros Hle. unfold shl_align.
  destruct (ez - ex)%Z as [| d | d] eqn:Hd; cbn [fst]; [| lia |].
  - replace (ex - ez)%Z with 0%Z by lia. lia.
  - rewrite pos_iter_xO. f_equal. f_equal. lia.
Qed.

(** Addition of non-negative doubles: the double nearest to the sum. *)
Lemma SFadd_value (x y : spec_float) :
  valid_binary x = true -> valid_binary y = true ->
  nonneg_spec x = true -> nonneg_spec y = true ->
  nonneg_spec (SFadd prec emax x y) = true
  /\ value_spec (SFadd prec emax x y) == rounded (value_spec x + value_spec y).
Proof.
  intros Hvx Hvy Hx Hy.
  pose proof (rounded_value x Hvx Hx) as Hrx.
  pose proof (rounded_value y Hvy Hy) as Hry.
  pose proof (value_spec_nonneg x) as Hx0.
  pose proof (value_spec_nonneg y) as Hy0.
  destruct x as [sx | sx | | sx mx ex]; try discriminate Hx;
    destruct y as [sy | sy | | sy my ey]; try discriminate Hy;
    cbn [nonneg_spec] in Hx, Hy;
    try (apply negb_true_iff in Hx; subst sx);
    try (apply negb_true_iff in Hy; subst sy).
  - split; [destruct sx, sy; reflexivity |].
    destruct sx, sy; reflexivity.
  - split; [reflexivity |]. cbn [SFadd]. rewrite <- Hry at 1.
    apply rounded_comp; [apply value_spec_nonneg |]. cbn [value_spec]. ring.
  - split; [reflexivity |]. cbn [SFadd]. rewrite <- Hry at 1.
    apply rounded_comp; [apply value_spec_nonneg |]. cbn [value_spec]. ring.
  - split; [reflexivity |]. cbn [SFadd]. symmetry. apply rounded_overflow.
    cbn [value_spec]. lra.
  - split; [reflexivity |]. cbn [SFadd]. symmetry. apply rounded_overflow.
    cbn [value_spec]. lra.
  - split; [reflexivity |]. cbn [SFadd]. symmetry. apply rounded_overflow.
    cbn [value_spec] in *. lra.
  - split; [reflexivity |]. cbn [SFadd]. rewrite <- Hrx at 1.
    apply rounded_comp; [apply value_spec_nonneg |]. cbn [value_spec]. ring.
  - split; [reflexivity |]. cbn [SFadd]. symmetry. apply rounded_overflow.
    cbn [value_spec] in *. lra.
  - cbn [SFadd cond_Zopp].
    pose proof (shl_align_value mx ex (Z.min ex ey) ltac:(lia)) as Hax.
    pose proof (shl_align_value my ey (Z.min ex ey) ltac:(lia)) as Hay.
    set (ez := Z.min ex ey) in *.
    set (ax := (shl_align mx ex ez).1) in *.
    set (ay := (shl_align my ey ez).1) in *.
    change (Z.pos ax + Z.pos ay)%Z with (Z.pos (ax + ay)).
    cbn [binary_normalize]. rewrite binary_round_nearest.
    split; [apply nearest_spec_nonneg |].
    apply rounded_comp.
    + apply (value_spec_nonneg (S754_finite false (ax + ay) ez)).
    + cbn [value_spec]. rewrite Pos2Z.inj_add, inject_Z_plus, Hax, Hay.
      rewrite !inject_Z_mult, !pow2_Z by lia. rewrite !pow2_sub.
      field. intros Hz. pose proof (pow2_pos ez) as Hp. rewrite Hz in Hp.
      discriminate Hp.
Qed.

Lemma digits_ge (m : positive) (k : Z) :
  (2 ^ k <= Z.pos m)%Z -> (k + 1 <= Z.pos (digits2_pos m))%Z.
Proof.
  intros Hm. pose proof (digits2_pos_bounds m) as [_ Hhi].
  destruct (Z.le_gt_cases (k + 1) (Z.pos (digits2_pos m))) as [| Hgt];
    [assumption |].
  assert (2 ^ Z.pos (digits2_pos m) <= 2 ^ k)%Z
    by (apply Z.pow_le_mono_r; lia).
  lia.
Qed.

(** Multiplication of finite non-negative doubles: the double nearest to
    the product. *)
Lemma SFmul_value (sx sy : bool) (mx my : positive) (ex ey : Z) :
  valid_binary (S754_finite sx mx ex) = true ->
  valid_binary (S754_finite sy my ey) = true ->
  SFmul prec emax (S754_finite sx mx ex) (S754_finite sy my ey)
  = PyFloat.nearest_spec (xorb sx sy)
      (inject_Z (Z.pos mx) * 2 ^ ex * (inject_Z (Z.pos my) * 2 ^ ey)).
Proof.
  intros Hvx Hvy.
  destruct (valid_finite_digits _ _ _ Hvx) as (Hmx & Hex & Hnx).
  destruct (valid_finite_digits _ _ _ Hvy) as (Hmy & Hey & Hny).
  cbn [SFmul]. rewrite binary_round_aux_nearest.
  - apply nearest_spec_comp.
    + apply (value_spec_nonneg (S754_finite false (mx * my) (ex + ey))).
    + rewrite Pos2Z.inj_mul, inject_Z_mult, pow2_add. ring.
  - rewrite fexp_eq.
    destruct (Z.eq_dec ex (-1074)%Z) as [Hx | Hx];
      destruct (Z.eq_dec ey (-1074)%Z) as [Hy | Hy].
    + lia.
    + specialize (Hny ltac:(lia)).
      assert (2 ^ 52 <= Z.pos (mx * my))%Z as Hp by (rewrite Pos2Z.inj_mul; nia).
      pose proof (digits_ge _ _ Hp). lia.
    + specialize (Hnx ltac:(lia)).
      assert (2 ^ 52 <= Z.pos (mx * my))%Z as Hp by (rewrite Pos2Z.inj_mul; nia).
      pose proof (digits_ge _ _ Hp). lia.
    + specialize (Hnx ltac:(lia)). specialize (Hny ltac:(lia)).
      assert (2 ^ 104 <= Z.pos (mx * my))%Z as Hp.
      { rewrite Pos2Z.inj_mul. change (2 ^ 104)%Z with (2 ^ 52 * 2 ^ 52)%Z.
        apply Z.mul_le_mono_nonneg; lia. }
      pose proof (digits_ge _ _ Hp). lia.
Qed.

End Operations.

(** *** Primitive doubles *)

Section Doubles.
Local Open Scope Q_scope.

Lemma nonneg64_leb (x : float) : nonneg64 x = (0 <=? x)%float.
Proof.
  unfold nonneg64. rewrite leb_spec.
  change (Prim2SF 0) with (S754_zero false).
  destruct (Prim2SF x) as [s | s | | s m e]; try reflexivity;
    destruct s; reflexivity.
Qed.

Lemma value64_nonneg (x : float) : 0 <= value64 x.
Proof. apply value_spec_nonneg. Qed.

Lemma value64_le_max (x : float) : value64 x <= 2 ^ 1024.
Proof. apply value_spec_le_max, Prim2SF_valid. Qed.

Lemma value64_finite (x : float) :
  nonneg64 x = true -> finite64 x = true -> value64 x < 2 ^ 1024.
Proof.
  unfold nonneg64, finite64, value64. intros Hx Hf.
  pose proof (Prim2SF_valid x) as Hv.
  destruct (Prim2SF x) as [s | s | | s m e]; try discriminate.
  - reflexivity.
  - apply (value_finite_lt_max s m e Hv).
Qed.

Lemma value64_infinite (x : float) :
  nonneg64 x = true -> finite64 x = false ->
  Prim2SF x = S754_infinity false.
Proof.
  unfold nonneg64, finite64. intros Hx Hf.
  destruct (Prim2SF x) as [s | s | | s m e]; try discriminate.
  destruct s; [discriminate | reflexivity].
Qed.

Lemma compare64 (x y : float) :
  nonneg64 x = true -> nonneg64 y = true ->
  SFcompare (Prim2SF x) (Prim2SF y) = Some (value64 x ?= value64 y).
Proof.
  intros Hx Hy. apply SFcompare_value; auto using Prim2SF_valid.
Qed.

Lemma leb64 (x y : float) :
  nonneg64 x = true -> nonneg64 y = true ->
  (x <=? y)%float = true <-> value64 x <= value64 y.
Proof.
  intros Hx Hy. rewrite leb_spec. unfold SFleb. rewrite (compare64 x y Hx Hy).
  destruct (Qcompare_spec (value64 x) (value64 y)) as [Hc | Hc | Hc];
    split; intros H; try reflexivity; try discriminate H; lra.
Qed.

Lemma ltb64 (x y : float) :
  nonneg64 x = true -> nonneg64 y = true ->
  (x <? y)%float = true <-> value64 x < value64 y.
Proof.
  intros Hx Hy. rewrite ltb_spec. unfold SFltb. rewrite (compare64 x y Hx Hy).
  destruct (Qcompare_spec (value64 x) (value64 y)) as [Hc | Hc | Hc];
    split; intros H; try reflexivity; try discriminate H; lra.
Qed.

Lemma rounded_eq_zero (q : Q) : q == 0 -> rounded q == 0.
Proof.
  intros Hq. rewrite (rounded_comp q 0); [reflexivity | | exact Hq].
  rewrite Hq. discriminate.
Qed.

Lemma add64 (x y : float) :
  nonneg64 x = true -> nonneg64 y = true ->
  nonneg64 (x + y) = true
  /\ value64 (x + y) == rounded (value64 x + value64 y).
Proof.
  intros Hx Hy. unfold nonneg64, value64. rewrite add_spec.
  apply SFadd_value; auto using Prim2SF_valid.
Qed.

Lemma mul64 (x y : float) :
  nonneg64 x = true -> nonneg64 y = true ->
  finite64 x = true -> finite64 y = true ->
  nonneg64 (x * y) = true
  /\ value64 (x * y) == rounded (value64 x * value64 y).
Proof.
  unfold nonneg64, finite64, value64. intros Hx Hy Hfx Hfy. rewrite mul_spec.
  pose proof (Prim2SF_valid x) as Hvx. pose proof (Prim2SF_valid y) as Hvy.
  unfold SF64mul.
  destruct (Prim2SF x) as [sx | sx | | sx mx ex]; try discriminate;
    destruct (Prim2SF y) as [sy | sy | | sy my ey]; try discriminate;
    cbn [nonneg_spec] in Hx, Hy;
    try (apply negb_true_iff in Hx; subst sx);
    try (apply negb_true_iff in Hy; subst sy).
  - split; [reflexivity |]. cbn [SFmul value_spec]. symmetry.
    apply rounded_eq_zero. ring.
  - split; [reflexivity |]. cbn [SFmul value_spec]. symmetry.
    apply rounded_eq_zero. ring.
  - split; [reflexivity |]. cbn [SFmul value_spec]. symmetry.
    apply rounded_eq_zero. ring.
  - rewrite (SFmul_value false false mx my ex ey Hvx Hvy).
    split; [apply nearest_spec_nonneg | reflexivity].
Qed.

Lemma mul64_infinite (x y : float) (m : positive) (e : Z) :
  nonneg64 x = true -> finite64 x = false ->
  Prim2SF y = S754_finite false m e ->
  Prim2SF (x * y) = S754_infinity false.
Proof.
  intros Hx Hf Hy. rewrite mul_spec, (value64_infinite x Hx Hf), Hy.
  reflexivity.
Qed.

(** The product by a positive constant does not decrease when the other
    factor grows. *)
Lemma mul64_mono (x x' c : float) (m : positive) (e : Z) :
  Prim2SF c = S754_finite false m e ->
  nonneg64 x = true -> nonneg64 x' = true ->
  value64 x <= value64 x' ->
  nonneg64 (x * c) = true /\ nonneg64 (x' * c) = true
  /\ value64 (x * c) <= value64 (x' * c).
Proof.
  intros Hc Hx Hx' Hle.
  assert (nonneg64 c = true) as Hnc by (unfold nonneg64; rewrite Hc; reflexivity).
  assert (finite64 c = true) as Hfc by (unfold finite64; rewrite Hc; reflexivity).
  assert (forall z, nonneg64 z = true -> nonneg64 (z * c) = true) as Hnn.
  { intros z Hz. destruct (finite64 z) eqn:Hfz.
    - apply (mul64 z c Hz Hnc Hfz Hfc).
    - unfold nonneg64. rewrite (mul64_infinite z c m e Hz Hfz Hc). reflexivity. }
  split; [apply Hnn, Hx |]. split; [apply Hnn, Hx' |].
  destruct (finite64 x') eqn:Hfx'.
  - assert (finite64 x = true) as Hfx.
    { destruct (finite64 x) eqn:Hfx; [reflexivity |].
      pose proof (value64_finite x' Hx' Hfx') as Hlt.
      unfold value64 in Hle at 1. rewrite (value64_infinite x Hx Hfx) in Hle.
      cbn [value_spec] in Hle. lra. }
    destruct (mul64 x c Hx Hnc Hfx Hfc) as [_ ->].
    destruct (mul64 x' c Hx' Hnc Hfx' Hfc) as [_ ->].
    pose proof (value64_nonneg x). pose proof (value64_nonneg c).
    apply rounded_mono.
    + apply Qmult_le_0_compat; assumption.
    + apply Qmult_le_compat_r; assumption.
  - unfold value64 at 2. rewrite (mul64_infinite x' c m e Hx' Hfx' Hc).
    apply value64_le_max.
Qed.

Lemma min64 (a b : float) :
  nonneg64 a = true -> nonneg64 b = true ->
  nonneg64 (PyFloat.min a b) = true
  /\ value64 (PyFloat.min a b) == Qmin (value64 a) (value64 b).
Proof.
  intros Ha Hb. unfold PyFloat.min.
  destruct (b <? a)%float eqn:Hlt.
  - apply (ltb64 b a Hb Ha) in Hlt. split; [exact Hb |].
    rewrite Q.min_r; [reflexivity | lra].
  - split; [exact Ha |]. rewrite Q.min_l; [reflexivity |].
    apply Qnot_lt_le. intros Hc. apply (ltb64 b a Hb Ha) in Hc. congruence.
Qed.

Lemma nearest64 (q : Q) :
  0 <= q -> Prim2SF (PyFloat.nearest q) = PyFloat.nearest_spec false q.
Proof.
  intros Hq. unfold PyFloat.nearest.
  assert ((Qnum q <? 0)%Z = false) as ->.
  { apply Z.ltb_ge. unfold Qle in Hq. cbn in Hq. lia. }
  rewrite Prim2SF_SF2Prim by apply nearest_spec_valid, Qabs_nonneg.
  apply nearest_spec_comp; [apply Qabs_nonneg | apply Qabs_pos, Hq].
Qed.

Lemma binary64_value_finite (x : float) (m : positive) (e : Z) :
  Prim2SF x = S754_finite false m e ->
  exists q, binary64_value x = Some q /\ q == inject_Z (Z.pos m) * 2 ^ e.
Proof.
  intros Hx. unfold binary64_value. rewrite Hx. eexists. split; [reflexivity |].
  destruct (Z.leb_spec 0 e) as [He | He].
  - rewrite inject_Z_mult, pow2_Z by exact He. reflexivity.
  - rewrite Qmake_Qdiv, Pos2Z.inj_pow, Z2Pos.id by lia.
    rewrite pow2_Z by lia. rewrite Qpower_opp. unfold Qdiv.
    rewrite Qinv_involutive. reflexivity.
Qed.

(** [round(x, 2)] on a non-negative double. *)
Lemma round2_64 (x : float) :
  nonneg64 x = true ->
  nonneg64 (PyFloat.round2 x) = true
  /\ value64 (PyFloat.round2 x) == rounded2 (value64 x).
Proof.
  intros Hx. unfold PyFloat.round2, rounded2.
  unfold nonneg64, value64 in *.
  destruct (Prim2SF x) as [s | s | | s m e] eqn:HP; try discriminate Hx.
  - rewrite HP. split; [reflexivity | reflexivity].
  - cbn [nonneg_spec] in Hx. apply negb_true_iff in Hx. subst s.
    rewrite HP. split; [reflexivity |]. vm_compute. reflexivity.
  - cbn [nonneg_spec] in Hx. apply negb_true_iff in Hx. subst s.
    destruct (binary64_value_finite x m e HP) as (q & -> & Hq).
    cbn [value_spec].
    assert (Py.round_half_even (q * 100)
            = Py.round_half_even (inject_Z (Z.pos m) * 2 ^ e * 100)) as Hn.
    { apply round_half_even_comp. rewrite Hq. reflexivity. }
    rewrite Hn. clear Hn.
    set (n := Py.round_half_even (inject_Z (Z.pos m) * 2 ^ e * 100)).
    assert (0 <= n)%Z as Hn.
    { unfold n. rewrite <- (round_half_even_Z 0). apply round_half_even_mono.
      pose proof (value_spec_nonneg (S754_finite false m e)) as Hv.
      cbn [value_spec] in Hv. change (inject_Z 0) with 0. lra. }
    assert (inject_Z n / 100 == n # 100) as Hdiv.
    { rewrite (Qmake_Qdiv n 100). reflexivity. }
    assert (0 <= n # 100) as Hn100.
    { unfold Qle. cbn. lia. }
    destruct (n =? 0)%Z eqn:Hz.
    + apply Z.eqb_eq in Hz. rewrite Prim2SF_SF2Prim by reflexivity.
      split; [reflexivity |]. rewrite Hz. reflexivity.
    + rewrite (nearest64 (n # 100) Hn100).
      split; [apply nearest_spec_nonneg |].
      fold (rounded (n # 100)). apply rounded_comp; [exact Hn100 |].
      symmetry. exact Hdiv.
Qed.

Lemma rounded2_mono (q q' : Q) :
  0 <= q -> q <= q' -> rounded2 q <= rounded2 q'.
Proof.
  intros Hq Hle. unfold rounded2. apply rounded_mono.
  - apply Qle_shift_div_l; [reflexivity |]. rewrite Qmult_0_l.
    rewrite <- (Zle_Qle 0), <- (round_half_even_Z 0).
    apply round_half_even_mono. change (inject_Z 0) with 0. lra.
  - apply Qmult_le_compat_r; [| discriminate].
    rewrite <- Zle_Qle. apply round_half_even_mono. lra.
Qed.

Lemma eqb64 (x y : float) :
  nonneg64 x = true -> nonneg64 y = true ->
  (x =? y)%float = true <-> value64 x == value64 y.
Proof.
  intros Hx Hy. rewrite FloatAxioms.eqb_spec. unfold SFeqb.
  rewrite (compare64 x y Hx Hy).
  destruct (Qcompare_spec (value64 x) (value64 y)) as [Hc | Hc | Hc];
    split; intros H; try reflexivity; try discriminate H; try assumption; lra.
Qed.

(** What a non-negative double is below is a non-negative double. *)
Lemma leb_nonneg64 (x y : float) :
  nonneg64 x = true -> (x <=? y)%float = true -> nonneg64 y = true.
Proof.
  unfold nonneg64. rewrite leb_spec. unfold SFleb.
  destruct (Prim2SF x) as [sx | sx | | sx mx ex];
    destruct (Prim2SF y) as [sy | sy | | sy my ey];
    try destruct sx; try destruct sy; cbn; intros Hx Hle;
    try reflexivity; try discriminate.
Qed.

(** Adding non-negative doubles never gives less than either of them. *)
Lemma add64_ge (x y : float) :
  nonneg64 x = true -> nonneg64 y = true ->
  nonneg64 (x + y) = true
  /\ value64 x <= value64 (x + y) /\ value64 y <= value64 (x + y).
Proof.
  intros Hx Hy. destruct (add64 x y Hx Hy) as [Hn Hv].
  split; [exact Hn |]. rewrite Hv.
  pose proof (value64_nonneg x). pose proof (value64_nonneg y).
  split.
  - rewrite <- (rounded_value (Prim2SF x) (Prim2SF_valid x) Hx) at 1.
    apply rounded_mono; [assumption |]. fold (value64 x). lra.
  - rewrite <- (rounded_value (Prim2SF y) (Prim2SF_valid y) Hy) at 1.
    apply rounded_mono; [assumption |]. fold (value64 y). lra.
Qed.

(** Addition of non-negative doubles does not decrease when its arguments
    grow. *)
Lemma add64_mono (x y x' y' : float) :
  nonneg64 x = true -> nonneg64 y = true ->
  nonneg64 x' = true -> nonneg64 y' = true ->
  value64 x <= value64 x' -> value64 y <= value64 y' ->
  value64 (x + y) <= value64 (x' + y').
Proof.
  intros Hx Hy Hx' Hy' Hlx Hly.
  destruct (add64 x y Hx Hy) as [_ ->]. destruct (add64 x' y' Hx' Hy') as [_ ->].
  pose proof (value64_nonneg x). pose proof (value64_nonneg y).
  apply rounded_mono; lra.
Qed.

End Doubles.

(** ** Confidence values *)

Lemma confidence_plain :
  Py.round2 (calculate_confidence true true default_code_quality_score) = 0.95%Q.
Proof. reflexivity. Qed.

Lemma confidence_downgraded :
  Py.round2 (calculate_confidence true false default_code_quality_score * 0.8)
  = 0.60%Q.
Proof. reflexivity. Qed.

(** Evaluated on doubles, the two confidences are the doubles
    0.95 and 0.6000000000000001, whose exact values round to the same
    hundredths as in the rational model. *)
Lemma confidence_plain_binary64 :
  calculate_confidence_binary64 true true 0.5 = 0.95%float
  /\ option_map Py.round2
       (binary64_value (calculate_confidence_binary64 true true 0.5))
     = Some 0.95%Q.
Proof. split; vm_compute; reflexivity. Qed.

Lemma confidence_downgraded_binary64 :
  (calculate_confidence_binary64 true false 0.5 * 0.8 = 0.6000000000000001)%float
  /\ option_map Py.round2
       (binary64_value (calculate_confidence_binary64 true false 0.5 * 0.8)%float)
     = Some 0.60%Q.
Proof. split; vm_compute; reflexivity. Qed.

Lemma in_list_critical_high (s : string) :
  in_list s ["CRITICAL"; "HIGH"] = true <-> s = "CRITICAL" \/ s = "HIGH".
Proof.
  unfold in_list; simpl. rewrite !orb_true_iff, !String.eqb_eq.
  intuition discriminate.
Qed.

Section ScanFacts.
Context `{Re}.

Lemma excluded_false_of_no_exclude (vuln_info : Info.t) (source_code : string) :
  Info.exclude vuln_info = None -> excluded vuln_info source_code = false.
Proof. unfold excluded. intros ->. reflexivity. Qed.

Lemma excluded_true_of_hit (vuln_info : Info.t) (source_code e : string) :
  Info.exclude vuln_info = Some e ->
  is_Some (search e source_code [IGNORECASE]) ->
  excluded vuln_info source_code = true.
Proof. unfold excluded. intros -> [m ->]. reflexivity. Qed.

Lemma context_check_true_of_no_checks (vuln_info : Info.t) (source_code : string)
    (m : Match) :
  Info.check_before vuln_info = None ->
  Info.check_after vuln_info = None ->
  context_check vuln_info source_code m = true.
Proof. unfold context_check. intros -> ->. reflexivity. Qed.

(** A match that is excluded leaves the state of the loop as it was. *)
Lemma match_step_excluded name key info src st m :
  excluded info src = true -> match_step name key info src st m = st.
Proof. unfold match_step. destruct st as [vs vid]. intros ->. reflexivity. Qed.

(** A match that survives both gates with its context satisfied appends
    one finding that keeps the declared severity. *)
Lemma match_step_plain name key info src vs vid m :
  excluded info src = false ->
  context_check info src m = true ->
  exists v,
    match_step name key info src (vs, vid) m = (vs ++ [v], vid + 1)
    /\ Vulnerability.severity v = Info.severity info
    /\ Vulnerability.category v = Info.category info
    /\ Vulnerability.line_number v = get_line_number src (m_start m)
    /\ Vulnerability.confidence v = 0.95%Q.
Proof.
  intros Hex Hctx. unfold match_step. rewrite Hex, Hctx. simpl.
  eexists. split; [reflexivity |]. simpl. repeat split; reflexivity.
Qed.

(** A match of a CRITICAL or HIGH rule whose context is not satisfied
    appends one finding, downgraded. *)
Lemma match_step_downgraded name key info src vs vid m :
  excluded info src = false ->
  context_check info src m = false ->
  in_list (Info.severity info) ["CRITICAL"; "HIGH"] = true ->
  exists v,
    match_step name key info src (vs, vid) m = (vs ++ [v], vid + 1)
    /\ Vulnerability.severity v = "MEDIUM"
    /\ Vulnerability.category v = Info.category info
    /\ Vulnerability.line_number v = get_line_number src (m_start m)
    /\ Vulnerability.confidence v = 0.60%Q.
Proof.
  intros Hex Hctx Hsev. unfold match_step. rewrite Hex, Hctx, Hsev. simpl.
  eexists. split; [reflexivity |]. simpl. repeat split; reflexivity.
Qed.

(** A match of any other rule whose context is not satisfied is skipped. *)
Lemma match_step_suppressed name key info src st m :
  context_check info src m = false ->
  in_list (Info.severity info) ["CRITICAL"; "HIGH"] = false ->
  match_step name key info src st m = st.
Proof.
  intros Hctx Hsev. unfold match_step. destruct st as [vs vid].
  rewrite Hctx, Hsev. simpl. destruct (excluded info src); reflexivity.
Qed.

(** The scan is the iteration of [rule_step] along the catalog. *)
Lemma analyze_rules_app rules1 rules2 src name :
  analyze_rules (rules1 ++ rules2) src name
  = fst (fold_left (rule_step name src) rules2
           (fold_left (rule_step name src) rules1 ([], 1))).
Proof. unfold analyze_rules. rewrite fold_left_app. reflexivity. Qed.

Lemma rule_step_excluded name src st key info :
  excluded info src = true -> rule_step name src st (key, info) = st.
Proof.
  intros Hex. unfold rule_step.
  induction (finditer (Info.pattern info) src [IGNORECASE; MULTILINE])
    as [| m ms IH]; cbn [fold_left]; [reflexivity |].
  rewrite match_step_excluded by exact Hex. exact IH.
Qed.

Lemma rule_step_plain name src key info :
  excluded info src = false ->
  (forall m, context_check info src m = true) ->
  forall vs vid,
  exists found,
    rule_step name src (vs, vid) (key, info)
    = (vs ++ found, vid + Z.of_nat (length found))
    /\ Forall2
         (fun m v =>
            Vulnerability.line_number v = get_line_number src (m_start m)
            /\ Vulnerability.severity v = Info.severity info
            /\ Vulnerability.confidence v = 0.95%Q)
         (finditer (Info.pattern info) src [IGNORECASE; MULTILINE]) found.
Proof.
  intros Hex Hctx. unfold rule_step.
  induction (finditer (Info.pattern info) src [IGNORECASE; MULTILINE])
    as [| m ms IH]; intros vs vid; cbn [fold_left].
  - exists []. rewrite app_nil_r. cbn [length Z.of_nat]. rewrite Z.add_0_r. split; [reflexivity | constructor].
  - destruct (match_step_plain name key info src vs vid m Hex (Hctx m))
      as (v & -> & Hsev & _ & Hline & Hconf).
    destruct (IH (vs ++ [v]) (vid + 1)) as (found & -> & Hall).
    exists (v :: found). split.
    + rewrite <- app_assoc. cbn [app length]. f_equal. lia.
    + constructor; [auto | exact Hall].
Qed.

(** Every match either leaves the state as it was or appends one finding
    whose confidence is 0.95 or 0.60. *)
Lemma match_step_cases name key info src vs vid m :
  match_step name key info src (vs, vid) m = (vs, vid)
  \/ exists v,
       match_step name key info src (vs, vid) m = (vs ++ [v], vid + 1)
       /\ (Vulnerability.confidence v = 0.95%Q
           \/ Vulnerability.confidence v = 0.60%Q).
Proof.
  destruct (excluded info src) eqn:Hex.
  { left. apply match_step_excluded, Hex. }
  destruct (context_check info src m) eqn:Hctx.
  { right. destruct (match_step_plain name key info src vs vid m Hex Hctx)
      as (v & Heq & _ & _ & _ & Hc). eauto. }
  destruct (in_list (Info.severity info) ["CRITICAL"; "HIGH"]) eqn:Hsev.
  - right. destruct (match_step_downgraded name key info src vs vid m Hex Hctx Hsev)
      as (v & Heq & _ & _ & _ & Hc). eauto.
  - left. apply match_step_suppressed; assumption.
Qed.

(** The findings of a scan respect the data model's range of confidence. *)
Lemma analyze_rules_confidence_in_range rules src name :
  Forall confidence_in_range (analyze_rules rules src name).
Proof.
  unfold analyze_rules.
  assert (forall ms key info st,
            Forall confidence_in_range st.1 ->
            Forall confidence_in_range
              (fold_left (match_step name key info src) ms st).1) as Hmatches.
  { induction ms as [| m ms IH]; intros key info [vs vid] Hst; [exact Hst |].
    cbn [fold_left]. apply IH.
    destruct (match_step_cases name key info src vs vid m)
      as [-> | (v & -> & Hc)]; [exact Hst |].
    cbn [fst] in *. apply Forall_app. split; [exact Hst |].
    constructor; [| constructor].
    unfold confidence_in_range.
    destruct Hc as [-> | ->]; split; vm_compute; discriminate. }
  assert (forall rs st,
            Forall confidence_in_range st.1 ->
            Forall confidence_in_range
              (fold_left (rule_step name src) rs st).1) as Hrules.
  { induction rs as [| [key info] rs IH]; intros st Hst; [exact Hst |].
    cbn [fold_left]. apply IH. unfold rule_step. apply Hmatches, Hst. }
  apply Hrules. constructor.
Qed.

End ScanFacts.

(** ** The scan, claim by claim *)

(** C1, as the code has it: for a rule with no [exclude], [check_before]
    or [check_after] pattern, the rule's pass over any source appends exactly
    one finding per match of its primary pattern, in match order, each at the
    line of its match, with the declared severity and with confidence
    0.95 = round(min(0.7 + 0.2 + 0.5 * 0.1, 1.0), 2). *)
Theorem unguarded_rule_one_finding_per_match `{Re}
    (contract_name vuln_key : string) (vuln_info : Info.t)
    (source_code : string) (vulnerabilities : list Vulnerability.t) (vuln_id : Z) :
  Info.exclude vuln_info = None ->
  Info.check_before vuln_info = None ->
  Info.check_after vuln_info = None ->
  exists found,
    rule_step contract_name source_code (vulnerabilities, vuln_id)
      (vuln_key, vuln_info)
    = (vulnerabilities ++ found, vuln_id + Z.of_nat (length found))
    /\ Forall2
         (fun m v =>
            Vulnerability.line_number v = get_line_number source_code (m_start m)
            /\ Vulnerability.severity v = Info.severity vuln_info
            /\ Vulnerability.confidence v
               = Py.round2 (calculate_confidence true true default_code_quality_score)
            /\ Vulnerability.confidence v = 0.95%Q)
         (finditer (Info.pattern vuln_info) source_code [IGNORECASE; MULTILINE])
         found.
Proof.
  intros Hex Hb Ha.
  destruct (rule_step_plain contract_name source_code vuln_key vuln_info
              (excluded_false_of_no_exclude _ _ Hex)
              (fun m => context_check_true_of_no_checks _ _ m Hb Ha)
              vulnerabilities vuln_id) as (found & Heq & Hall).
  exists found. split; [exact Heq |].
  eapply Forall2_impl; [exact Hall |].
  intros m v (Hl & Hs & Hc). rewrite confidence_plain. auto.
Qed.

Lemma unguarded_rule_one_finding_per_match_witness :
  exists found,
    @rule_step tx_origin_re "C" tx_origin_source ([], 1)
      ("tx_origin", Rules.tx_origin)
    = ([] ++ found, 1 + Z.of_nat (length found))
    /\ Forall2
         (fun m v =>
            Vulnerability.line_number v = get_line_number tx_origin_source (m_start m)
            /\ Vulnerability.severity v = Info.severity Rules.tx_origin
            /\ Vulnerability.confidence v
               = Py.round2 (calculate_confidence true true default_code_quality_score)
            /\ Vulnerability.confidence v = 0.95%Q)
         (@finditer tx_origin_re (Info.pattern Rules.tx_origin) tx_origin_source
            [IGNORECASE; MULTILINE])
         found.
Proof.
  apply (@unguarded_rule_one_finding_per_match tx_origin_re "C" "tx_origin"
           Rules.tx_origin tx_origin_source [] 1); reflexivity.
Defined.

(** C1 as stated fails: on the source [tx.origin == msg.sender] the rule
    [tx_origin], which has none of the three patterns, yields its one finding
    with confidence 0.95, not 0.90. *)
Lemma unguarded_confidence_is_not_0_90 :
  Info.exclude Rules.tx_origin = None
  /\ Info.check_before Rules.tx_origin = None
  /\ Info.check_after Rules.tx_origin = None
  /\ tx_origin_source <> EmptyString
  /\ exists v,
       @analyze_contract_patterns tx_origin_re tx_origin_source "C" = [v]
       /\ Vulnerability.confidence v = 0.95%Q
       /\ ~ (Vulnerability.confidence v == 0.90)%Q.
Proof.
  repeat (split; [reflexivity || discriminate |]).
  eexists. split; [vm_compute; reflexivity |].
  split; [reflexivity |]. cbn. intros Heq. discriminate Heq.
Qed.

(** C2: when a rule defines an exclusion pattern and that pattern is found
    (case-insensitively) anywhere in the full source, the rule's pass leaves
    the finding list and the counter untouched, however many matches the
    primary pattern has; the scan of a catalog containing the rule is the
    scan of the catalog without it. *)
Theorem exclusion_hit_yields_no_finding `{Re}
    (vuln_key : string) (vuln_info : Info.t) (exclude source_code : string) :
  Info.exclude vuln_info = Some exclude ->
  is_Some (search exclude source_code [IGNORECASE]) ->
  (forall contract_name st,
     rule_step contract_name source_code st (vuln_key, vuln_info) = st)
  /\ (forall rules1 rules2 contract_name,
        analyze_rules (rules1 ++ (vuln_key, vuln_info) :: rules2)
          source_code contract_name
        = analyze_rules (rules1 ++ rules2) source_code contract_name).
Proof.
  intros He Hhit.
  pose proof (excluded_true_of_hit _ _ _ He Hhit) as Hex.
  split.
  - intros name st. apply rule_step_excluded, Hex.
  - intros rules1 rules2 name. rewrite !analyze_rules_app.
    cbn [fold_left]. rewrite rule_step_excluded by exact Hex. reflexivity.
Qed.

Lemma exclusion_hit_yields_no_finding_witness :
  (forall contract_name st,
     @rule_step pragma_add_re contract_name pragma_add_source st
       ("integer_overflow", Rules.integer_overflow) = st)
  /\ (forall rules1 rules2 contract_name,
        @analyze_rules pragma_add_re
          (rules1 ++ ("integer_overflow", Rules.integer_overflow) :: rules2)
          pragma_add_source contract_name
        = @analyze_rules pragma_add_re (rules1 ++ rules2)
            pragma_add_source contract_name).
Proof.
  apply (@exclusion_hit_yields_no_finding pragma_add_re "integer_overflow"
           Rules.integer_overflow
           "pragma\s+solidity\s*[\^>=]*\s*0\.[8-9]|SafeMath|unchecked"
           pragma_add_source).
  - reflexivity.
  - exists (span 0 20). reflexivity.
Defined.

(** C3, as the code has it: a match of a rule declared CRITICAL or HIGH that
    is not discarded by the exclusion check and whose context is not
    satisfied (a mitigation pattern was found in range) still appends one
    finding; its severity is MEDIUM and its confidence is
    round(min(0.7 + 0.5 * 0.1, 1.0) * 0.8, 2) = 0.60. *)
Theorem mitigated_critical_high_is_downgraded `{Re}
    (contract_name vuln_key : string) (vuln_info : Info.t)
    (source_code : string) (vulnerabilities : list Vulnerability.t)
    (vuln_id : Z) (m : Match) :
  Info.severity vuln_info = "CRITICAL" \/ Info.severity vuln_info = "HIGH" ->
  excluded vuln_info source_code = false ->
  context_check vuln_info source_code m = false ->
  exists v,
    match_step contract_name vuln_key vuln_info source_code
      (vulnerabilities, vuln_id) m
    = (vulnerabilities ++ [v], vuln_id + 1)
    /\ Vulnerability.severity v = "MEDIUM"
    /\ Vulnerability.confidence v
       = Py.round2
           (calculate_confidence true false default_code_quality_score * 0.8)
    /\ Vulnerability.confidence v = 0.60%Q.
Proof.
  intros Hsev Hex Hctx. apply in_list_critical_high in Hsev.
  destruct (match_step_downgraded contract_name vuln_key vuln_info source_code
              vulnerabilities vuln_id m Hex Hctx Hsev)
    as (v & Heq & Hs & _ & _ & Hc).
  exists v. rewrite confidence_downgraded. auto.
Qed.

Lemma mitigated_critical_high_is_downgraded_witness :
  exists v,
    @match_step guarded_send_re "C" "reentrancy" Rules.reentrancy
      guarded_send_source ([], 1) (span 15 21)
    = ([] ++ [v], 1 + 1)
    /\ Vulnerability.severity v = "MEDIUM"
    /\ Vulnerability.confidence v
       = Py.round2
           (calculate_confidence true false default_code_quality_score * 0.8)
    /\ Vulnerability.confidence v = 0.60%Q.
Proof.
  apply (@mitigated_critical_high_is_downgraded guarded_send_re "C" "reentrancy"
           Rules.reentrancy guarded_send_source [] 1 (span 15 21)).
  - left. reflexivity.
  - reflexivity.
  - reflexivity.
Defined.

(** C3 as stated fails: on the source [require(ok); to.send(1);] the
    CRITICAL rule [reentrancy] finds its mitigation before the match and
    yields one MEDIUM finding whose confidence is 0.60, neither 0.72 nor
    0.56. *)
Lemma downgraded_confidence_is_not_0_72_nor_0_56 :
  Info.severity Rules.reentrancy = "CRITICAL"
  /\ @context_check guarded_send_re Rules.reentrancy guarded_send_source
       (span 15 21) = false
  /\ exists v,
       @analyze_contract_patterns guarded_send_re guarded_send_source "C" = [v]
       /\ Vulnerability.severity v = "MEDIUM"
       /\ Vulnerability.confidence v = 0.60%Q
       /\ ~ (Vulnerability.confidence v == 0.72)%Q
       /\ ~ (Vulnerability.confidence v == 0.56)%Q.
Proof.
  split; [reflexivity |]. split; [reflexivity |].
  eexists. split; [vm_compute; reflexivity |].
  split; [reflexivity |]. split; [reflexivity |].
  split; cbn; intros Heq; discriminate Heq.
Qed.

(** C4: a match of a rule whose declared severity is neither CRITICAL nor
    HIGH and whose context is not satisfied (a mitigation pattern was found
    in range) produces no finding: the loop state is unchanged. *)
Theorem mitigated_other_severity_is_suppressed `{Re}
    (contract_name vuln_key : string) (vuln_info : Info.t)
    (source_code : string) (st : scan_state) (m : Match) :
  Info.severity vuln_info <> "CRITICAL" ->
  Info.severity vuln_info <> "HIGH" ->
  context_check vuln_info source_code m = false ->
  match_step contract_name vuln_key vuln_info source_code st m = st.
Proof.
  intros Hc Hh Hctx. apply match_step_suppressed; [exact Hctx |].
  destruct (in_list (Info.severity vuln_info) ["CRITICAL"; "HIGH"]) eqn:E;
    [| reflexivity].
  apply in_list_critical_high in E. tauto.
Qed.

Lemma mitigated_other_severity_is_suppressed_witness :
  @match_step guarded_timestamp_re "C" "timestamp" guarded_timestamp
    guarded_timestamp_source ([], 1) (span 13 28) = ([], 1).
Proof.
  apply (@mitigated_other_severity_is_suppressed guarded_timestamp_re "C"
           "timestamp" guarded_timestamp guarded_timestamp_source ([], 1)
           (span 13 28)).
  - discriminate.
  - discriminate.
  - reflexivity.
Defined.

(** ** The windows of the mitigation checks *)

Lemma slice_to_substring (s : string) (n : nat) :
  Py.slice_to s n = substring 0 n s.
Proof.
  revert n. induction s as [| c s IH]; intros [| n]; simpl; try reflexivity.
  rewrite IH. reflexivity.
Qed.

Lemma slice_from_then_to (s : string) (a k : nat) :
  Py.slice_to (Py.slice_from s a) k = substring a k s.
Proof.
  revert a. induction s as [| c s IH]; intros [| a]; simpl.
  - destruct k; reflexivity.
  - destruct k; reflexivity.
  - apply (slice_to_substring (String c s)).
  - apply IH.
Qed.

Lemma slice_to_then_from (s : string) (stop j : nat) :
  (j <= stop)%nat ->
  Py.slice_from (Py.slice_to s stop) j = substring j (stop - j) s.
Proof.
  revert stop j. induction s as [| c s IH]; intros stop j Hj.
  - destruct stop, j; reflexivity.
  - destruct stop as [| stop].
    + assert (j = 0%nat) as -> by lia. reflexivity.
    + destruct j as [| j].
      * simpl. rewrite slice_to_substring. reflexivity.
      * simpl. apply IH. lia.
Qed.

Lemma length_slice_to (s : string) (n : nat) :
  String.length (Py.slice_to s n) = Nat.min n (String.length s).
Proof.
  revert n. induction s as [| c s IH]; intros [| n]; simpl; try reflexivity.
  rewrite IH. reflexivity.
Qed.

Lemma before_window_is_last_500 (s : string) (start : nat) :
  (start <= String.length s)%nat ->
  Py.slice_last (Py.slice_to s start) 500 = window_before s start.
Proof.
  intros Hle. unfold Py.slice_last, window_before.
  rewrite length_slice_to, Nat.min_l by exact Hle.
  rewrite slice_to_then_from by lia.
  f_equal. lia.
Qed.

Lemma after_window_is_first_500 (s : string) (stop : nat) :
  Py.slice_to (Py.slice_from s stop) 500 = window_after s stop.
Proof. apply slice_from_then_to. Qed.

(** C5: for a match that starts inside the source, [context_match] ends
    up false exactly when the rule has a [check_before] pattern that is found,
    ignoring case, in the last 500 characters before the match start, or a
    [check_after] pattern that is found, ignoring case, in the first 500
    characters after the match end; otherwise it keeps its default, true. *)
Theorem context_match_windows `{Re}
    (vuln_info : Info.t) (source_code : string) (m : Match) :
  (m_start m <= String.length source_code)%nat ->
  (context_check vuln_info source_code m = false <->
     (exists check_before,
        Info.check_before vuln_info = Some check_before
        /\ is_Some (search check_before
                      (window_before source_code (m_start m)) [IGNORECASE]))
     \/ (exists check_after,
           Info.check_after vuln_info = Some check_after
           /\ is_Some (search check_after
                         (window_after source_code (m_end m)) [IGNORECASE])))
  /\ (context_check vuln_info source_code m = true <->
        (forall check_before,
           Info.check_before vuln_info = Some check_before ->
           search check_before (window_before source_code (m_start m))
             [IGNORECASE] = None)
        /\ (forall check_after,
              Info.check_after vuln_info = Some check_after ->
              search check_after (window_after source_code (m_end m))
                [IGNORECASE] = None)).
Proof.
  intros Hstart. unfold context_check.
  rewrite before_window_is_last_500 by exact Hstart.
  rewrite after_window_is_first_500.
  destruct (Info.check_before vuln_info) as [cb |];
    destruct (Info.check_after vuln_info) as [ca |];
    try destruct (search cb _ _) as [hb |] eqn:Eb;
    try destruct (search ca _ _) as [ha |] eqn:Ea;
    unfold is_Some;
    (split; split;
     [ intros Hf; try discriminate Hf; eauto 6
     | intros [(p & Hp & x & Hx) | (p & Hp & x & Hx)]; simplify_eq; reflexivity
     | intros Ht; try discriminate Ht; split; intros p Hp; simplify_eq; assumption
     | intros [Hb Ha]; try reflexivity;
       try (specialize (Hb _ eq_refl); simplify_eq);
       try (specialize (Ha _ eq_refl); simplify_eq) ]).
Qed.

Lemma context_match_windows_witness :
  (@context_check guarded_send_re Rules.reentrancy guarded_send_source
     (span 15 21) = false <->
     (exists check_before,
        Info.check_before Rules.reentrancy = Some check_before
        /\ is_Some (@search guarded_send_re check_before
                      (window_before guarded_send_source 15) [IGNORECASE]))
     \/ (exists check_after,
           Info.check_after Rules.reentrancy = Some check_after
           /\ is_Some (@search guarded_send_re check_after
                         (window_after guarded_send_source 21) [IGNORECASE])))
  /\ (@context_check guarded_send_re Rules.reentrancy guarded_send_source
        (span 15 21) = true <->
        (forall check_before,
           Info.check_before Rules.reentrancy = Some check_before ->
           @search guarded_send_re check_before
             (window_before guarded_send_source 15) [IGNORECASE] = None)
        /\ (forall check_after,
              Info.check_after Rules.reentrancy = Some check_after ->
              @search guarded_send_re check_after
                (window_after guarded_send_source 21) [IGNORECASE] = None)).
Proof.
  apply (@context_match_windows guarded_send_re Rules.reentrancy
           guarded_send_source (span 15 21)).
  vm_compute. lia.
Defined.

(** ** Risk aggregation *)

Lemma severity_weight_lookup (severity : string) :
  default 1.0%float (severity_weights !! severity) = weight_of severity.
Proof.
  unfold severity_weights, weight_of.
  repeat (rewrite lookup_insert;
          destruct (decide (_ = severity)) as [<- | Hd];
          [ reflexivity
          | apply not_eq_sym, String.eqb_neq in Hd; rewrite Hd; clear Hd ]).
  rewrite lookup_empty. reflexivity.
Qed.

(** The accumulation loop adds the products in list order. *)
Lemma total_weight_loop (vulnerabilities : list Vulnerability.t) (acc : float) :
  fold_left
    (fun total_weight vuln =>
       (total_weight
        + default 1.0 (severity_weights !! Vulnerability.severity vuln)
          * confidence_float vuln)%float)
    vulnerabilities acc
  = fold_left PrimFloat.add
      ((fun f => weight_of (Vulnerability.severity f) * confidence_float f)%float
         <$> vulnerabilities)
      acc.
Proof.
  revert acc. induction vulnerabilities as [| v vs IH]; intros acc.
  - reflexivity.
  - cbn [fold_left fmap list_fmap]. rewrite IH, severity_weight_lookup.
    reflexivity.
Qed.

(** The code's risk score is the specification's formula; the early
    return for the empty list agrees with it. *)
Lemma calculate_risk_score_spec (vulnerabilities : list Vulnerability.t) :
  calculate_risk_score vulnerabilities
  = PyFloat.round2 (PyFloat.min (total_weight vulnerabilities * 5) 100).
Proof.
  unfold calculate_risk_score, total_weight, PyFloat.sum.
  destruct vulnerabilities as [| v vs]; [vm_compute; reflexivity |].
  rewrite total_weight_loop. reflexivity.
Qed.

Example tx_origin_scan :
  @analyze_contract_patterns tx_origin_re tx_origin_source "C" = [tx_origin_finding].
Proof. vm_compute. reflexivity. Qed.

Example tx_origin_risk : calculate_risk_score [tx_origin_finding] = 33.25%float.
Proof. vm_compute. reflexivity. Qed.

(** The sum is that of binary64: a MEDIUM and an INFO finding of confidence
    0.95 weigh 4.2749999999999995, and score 21.37 where the exact sum
    4.275 would score 21.38. *)
Example medium_info_risk :
  total_weight [sample_finding "MEDIUM" 0.95; sample_finding "INFO" 0.95]
  = 4.2749999999999995%float
  /\ calculate_risk_score
       [sample_finding "MEDIUM" 0.95; sample_finding "INFO" 0.95]
     = 21.37%float.
Proof. split; vm_compute; reflexivity. Qed.

(** C6: the risk score of a finding list is
    round(min(totalWeight * 5, 100), 2), where totalWeight is the sum over
    the findings, in list order, of weight(severity) * confidence, the
    weight read from the table CRITICAL 10.0, HIGH 7.0, MEDIUM 4.0, LOW 2.0,
    INFO 0.5 and 1.0 for any other severity; the empty list scores 0.0. The
    sum, the product by 5, [min] and [round] are those of binary64. *)
Theorem risk_score_is_clamped_weighted_sum
    (vulnerabilities : list Vulnerability.t) :
  (forall severity,
     default 1.0%float (severity_weights !! severity) = weight_of severity)
  /\ calculate_risk_score vulnerabilities
     = PyFloat.round2 (PyFloat.min (total_weight vulnerabilities * 5) 100)
  /\ calculate_risk_score [] = 0.0%float.
Proof.
  split; [exact severity_weight_lookup |].
  split; [apply calculate_risk_score_spec | reflexivity].
Qed.

(** *** Monotonicity of the risk score *)

Section RiskMonotone.
Local Open Scope Q_scope.

Lemma finite64_of_value (x : float) :
  nonneg64 x = true -> value64 x < 2 ^ 1024 -> finite64 x = true.
Proof.
  intros Hx Hlt. destruct (finite64 x) eqn:Hf; [reflexivity |].
  unfold value64 in Hlt. rewrite (value64_infinite x Hx Hf) in Hlt.
  cbn [value_spec] in Hlt. apply Qlt_irrefl in Hlt. contradiction.
Qed.

Lemma nearest_nonneg (q : Q) :
  0 <= q ->
  nonneg64 (PyFloat.nearest q) = true /\ value64 (PyFloat.nearest q) == rounded q.
Proof.
  intros Hq. unfold nonneg64, value64. rewrite (nearest64 q Hq).
  split; [apply nearest_spec_nonneg | reflexivity].
Qed.

(** The double read from a confidence between 0 and 1 is finite and not
    negative. *)
Lemma confidence_float_range (f : Vulnerability.t) :
  confidence_in_range f ->
  nonneg64 (confidence_float f) = true /\ finite64 (confidence_float f) = true.
Proof.
  intros [Hlo Hhi]. unfold confidence_float.
  destruct (nearest_nonneg _ Hlo) as [Hn Hv].
  split; [exact Hn |]. apply finite64_of_value; [exact Hn |]. rewrite Hv.
  apply Qle_lt_trans with (rounded 1); [apply rounded_mono; assumption |].
  vm_compute. reflexivity.
Qed.

Lemma weight_of_finite (severity : string) :
  exists m e, Prim2SF (weight_of severity) = S754_finite false m e.
Proof.
  unfold weight_of.
  repeat (destruct (String.eqb severity _);
          [eexists; eexists; reflexivity |]).
  eexists. eexists. reflexivity.
Qed.

Lemma weighted_confidence_nonneg (f : Vulnerability.t) :
  confidence_in_range f ->
  nonneg64 (weight_of (Vulnerability.severity f) * confidence_float f) = true.
Proof.
  intros Hf. destruct (confidence_float_range f Hf) as [Hn Hfin].
  destruct (weight_of_finite (Vulnerability.severity f)) as (m & e & Hw).
  apply mul64; [| exact Hn | | exact Hfin].
  - unfold nonneg64. rewrite Hw. reflexivity.
  - unfold finite64. rewrite Hw. reflexivity.
Qed.

Lemma sum_from_nonneg (l : list float) (acc : float) :
  Forall (fun x => nonneg64 x = true) l ->
  nonneg64 acc = true ->
  nonneg64 (fold_left PrimFloat.add l acc) = true
  /\ value64 acc <= value64 (fold_left PrimFloat.add l acc).
Proof.
  intros Hl. revert acc. induction Hl as [| x l Hx _ IH]; intros acc Hacc.
  - split; [exact Hacc | apply Qle_refl].
  - cbn [fold_left]. destruct (add64_ge acc x Hacc Hx) as (Hn & Hle & _).
    destruct (IH _ Hn) as [Hn' Hle']. split; [exact Hn' |].
    eapply Qle_trans; eassumption.
Qed.

Lemma total_weight_nonneg (findings : list Vulnerability.t) :
  Forall confidence_in_range findings ->
  nonneg64 (total_weight findings) = true.
Proof.
  intros Hall. unfold total_weight, PyFloat.sum.
  apply sum_from_nonneg; [| reflexivity].
  apply Forall_fmap. eapply Forall_impl; [exact Hall |].
  intros f Hf. apply weighted_confidence_nonneg, Hf.
Qed.

Lemma five_finite : exists m e, Prim2SF 5 = S754_finite false m e.
Proof. eexists. eexists. reflexivity. Qed.

(** The score as a function of the total weight does not decrease. *)
Lemma score_of_weight_mono (t t' : float) :
  nonneg64 t = true -> nonneg64 t' = true ->
  value64 t <= value64 t' ->
  nonneg64 (PyFloat.round2 (PyFloat.min (t * 5) 100)) = true
  /\ nonneg64 (PyFloat.round2 (PyFloat.min (t' * 5) 100)) = true
  /\ value64 (PyFloat.round2 (PyFloat.min (t * 5) 100))
     <= value64 (PyFloat.round2 (PyFloat.min (t' * 5) 100)).
Proof.
  intros Ht Ht' Hle. destruct five_finite as (m & e & H5).
  destruct (mul64_mono t t' 5 m e H5 Ht Ht' Hle) as (Ha & Ha' & Hale).
  assert (nonneg64 100 = true) as H100 by reflexivity.
  destruct (min64 (t * 5) 100 Ha H100) as [Hm Hmv].
  destruct (min64 (t' * 5) 100 Ha' H100) as [Hm' Hmv'].
  destruct (round2_64 _ Hm) as [Hr Hrv].
  destruct (round2_64 _ Hm') as [Hr' Hrv'].
  split; [exact Hr |]. split; [exact Hr' |].
  rewrite Hrv, Hrv'. apply rounded2_mono; [apply value64_nonneg |].
  rewrite Hmv, Hmv'. apply Q.min_le_compat_r, Hale.
Qed.

Lemma score_of_weight_le_100 (t : float) :
  nonneg64 t = true ->
  value64 (PyFloat.round2 (PyFloat.min (t * 5) 100)) <= value64 100.
Proof.
  intros Ht. destruct five_finite as (m & e & H5).
  destruct (mul64_mono t t 5 m e H5 Ht Ht (Qle_refl _)) as (Ha & _ & _).
  assert (nonneg64 100 = true) as H100 by reflexivity.
  destruct (min64 (t * 5) 100 Ha H100) as [Hm Hmv].
  destruct (round2_64 _ Hm) as [_ ->].
  apply Qle_trans with (rounded2 (value64 100)).
  - apply rounded2_mono; [apply value64_nonneg |].
    rewrite Hmv. apply Q.le_min_r.
  - vm_compute. discriminate.
Qed.

End RiskMonotone.

(** C7: for finding lists whose confidences respect the data model
    (between 0 and 1), appending one such finding never lowers the risk
    score, and the risk score lies between 0 and 100; the comparisons are
    those of binary64. *)
Theorem risk_score_monotone_and_bounded
    (findings : list Vulnerability.t) (f : Vulnerability.t) :
  Forall confidence_in_range findings ->
  confidence_in_range f ->
  (calculate_risk_score findings
   <=? calculate_risk_score (findings ++ [f]))%float = true
  /\ (0 <=? calculate_risk_score findings)%float = true
  /\ (calculate_risk_score findings <=? 100)%float = true.
Proof.
  intros Hall Hf. rewrite !calculate_risk_score_spec.
  pose proof (total_weight_nonneg findings Hall) as Ht.
  assert (total_weight (findings ++ [f])
          = (total_weight findings
             + weight_of (Vulnerability.severity f) * confidence_float f)%float)
    as Happ.
  { unfold total_weight, PyFloat.sum. rewrite fmap_app, fold_left_app.
    reflexivity. }
  destruct (add64_ge (total_weight findings)
              (weight_of (Vulnerability.severity f) * confidence_float f)
              Ht (weighted_confidence_nonneg f Hf)) as (Ht' & Hle & _).
  rewrite <- Happ in Ht', Hle.
  destruct (score_of_weight_mono _ _ Ht Ht' Hle) as (Hr & Hr' & Hrle).
  split; [| split].
  - apply leb64; assumption.
  - rewrite <- nonneg64_leb. exact Hr.
  - apply leb64; [exact Hr | reflexivity |].
    apply score_of_weight_le_100, Ht.
Qed.

Lemma risk_score_monotone_and_bounded_witness :
  (calculate_risk_score [tx_origin_finding]
   <=? calculate_risk_score ([tx_origin_finding] ++ [tx_origin_finding]))%float
  = true
  /\ (0 <=? calculate_risk_score [tx_origin_finding])%float = true
  /\ (calculate_risk_score [tx_origin_finding] <=? 100)%float = true.
Proof.
  apply (risk_score_monotone_and_bounded [tx_origin_finding] tx_origin_finding).
  - constructor; [| constructor]. split; vm_compute; discriminate.
  - split; vm_compute; discriminate.
Defined.

(** ** The snippet extractor *)

Lemma enumerate_filter_ge {A} (l : list A) (k a : Z) :
  filter (fun il : Z * A => a <= il.1) (Py.enumerate l k)
  = Py.enumerate (drop (Z.to_nat (a - k)) l) (Z.max a k).
Proof.
  revert k. induction l as [| x l IH]; intros k.
  - rewrite drop_nil. reflexivity.
  - cbn [Py.enumerate]. rewrite filter_cons, IH. cbn [fst].
    destruct (decide (a <= k)) as [Hle | Hgt].
    + replace (Z.to_nat (a - k)) with 0%nat by lia.
      replace (Z.to_nat (a - (k + 1))) with 0%nat by lia.
      rewrite !drop_0, Z.max_r by lia. cbn [Py.enumerate].
      rewrite Z.max_r by lia. reflexivity.
    + replace (Z.to_nat (a - k)) with (S (Z.to_nat (a - (k + 1)))) by lia.
      rewrite !Z.max_l by lia. reflexivity.
Qed.

Lemma enumerate_filter_le {A} (l : list A) (k b : Z) :
  filter (fun il : Z * A => il.1 <= b) (Py.enumerate l k)
  = Py.enumerate (take (Z.to_nat (b - k + 1)) l) k.
Proof.
  revert k. induction l as [| x l IH]; intros k.
  - rewrite take_nil. reflexivity.
  - cbn [Py.enumerate]. rewrite filter_cons, IH. cbn [fst].
    destruct (decide (k <= b)) as [Hle | Hgt].
    + replace (Z.to_nat (b - k + 1)) with (S (Z.to_nat (b - (k + 1) + 1))) by lia.
      reflexivity.
    + replace (Z.to_nat (b - k + 1)) with 0%nat by lia.
      replace (Z.to_nat (b - (k + 1) + 1)) with 0%nat by lia.
      reflexivity.
Qed.

(** The lines numbered in [a, b] are a slice of the line list. *)
Lemma enumerate_filter_range {A} (l : list A) (a b : Z) :
  filter (fun il : Z * A => a <= il.1 <= b) (Py.enumerate l 1)
  = Py.enumerate
      (take (Z.to_nat (b - Z.max 0 (a - 1))) (drop (Z.to_nat (Z.max 0 (a - 1))) l))
      (Z.max 0 (a - 1) + 1).
Proof.
  rewrite <- (list_filter_filter (fun il : Z * A => a <= il.1)
                (fun il : Z * A => il.1 <= b)).
  rewrite enumerate_filter_le, enumerate_filter_ge.
  replace (Z.to_nat (a - 1)) with (Z.to_nat (Z.max 0 (a - 1))) by lia.
  replace (Z.max a 1) with (Z.max 0 (a - 1) + 1) by lia.
  f_equal. rewrite take_drop_commute.
  destruct (decide (Z.max 0 (a - 1) <= b)) as [Hle | Hgt].
  - f_equal. f_equal. lia.
  - rewrite !drop_ge; [reflexivity | |]; rewrite length_take; lia.
Qed.

(** The slice taken by the extractor, when its upper bound is not negative. *)
Lemma snippet_slice {A} (lines : list A) (line_number context_lines : Z) :
  0 <= line_number + context_lines ->
  let start := Z.max 0 (line_number - context_lines - 1) in
  Py.list_slice lines start
    (Z.min (Z.of_nat (length lines)) (line_number + context_lines))
  = take (Z.to_nat (line_number + context_lines - start))
      (drop (Z.to_nat start) lines).
Proof.
  intros Hb start. unfold Py.list_slice.
  set (n := Z.of_nat (length lines)).
  destruct (Z.ltb_spec (Z.min n (line_number + context_lines)) 0) as [Hneg | _];
    [lia |].
  rewrite Z.min_l by lia.
  destruct (decide (start <= n)) as [Hin | Hout].
  - rewrite (Z.min_l start n) by exact Hin.
    destruct (decide (line_number + context_lines <= n)) as [Hle | Hgt].
    + rewrite Z.min_r by lia. reflexivity.
    + rewrite Z.min_l by lia.
      rewrite !take_ge; [reflexivity | |]; rewrite length_drop; lia.
  - rewrite !(drop_ge lines); [| lia | lia]. rewrite !take_nil. reflexivity.
Qed.

Lemma extract_code_snippet_spec (source_code : string)
    (line_number context_lines : Z) :
  0 <= line_number + context_lines ->
  extract_code_snippet source_code line_number context_lines
  = snippet_spec source_code line_number context_lines.
Proof.
  intros Hb. unfold extract_code_snippet, snippet_spec.
  rewrite enumerate_filter_range, snippet_slice by exact Hb.
  reflexivity.
Qed.

Lemma extract_code_snippet_empty (line_number : Z) :
  extract_code_snippet EmptyString line_number 2
  = if (-1 <=? line_number) && (line_number <=? 3)
    then (if line_number =? 1 then ">>> 1: " else "    1: ")
    else EmptyString.
Proof.
  destruct (Z.leb_spec (-1) line_number) as [Hlo | Hlo];
    [destruct (Z.leb_spec line_number 3) as [Hhi | Hhi] |]; cbn [andb].
  - assert (line_number = -1 \/ line_number = 0 \/ line_number = 1
            \/ line_number = 2 \/ line_number = 3) as Hcases by lia.
    destruct Hcases as [-> | [-> | [-> | [-> | ->]]]]; reflexivity.
  - unfold extract_code_snippet, Py.list_slice. cbn [Py.split_lines length].
    change (Z.of_nat 1) with 1.
    rewrite (Z.max_r 0) by lia. rewrite (Z.min_l 1 (line_number + 2)) by lia.
    rewrite (Z.min_r (line_number - 2 - 1) 1) by lia. reflexivity.
  - unfold extract_code_snippet, Py.list_slice. cbn [Py.split_lines length].
    change (Z.of_nat 1) with 1.
    rewrite (Z.max_l 0) by lia. rewrite (Z.min_r 1 (line_number + 2)) by lia.
    change (Z.min 0 1) with 0. cbn [Z.to_nat drop].
    destruct (Z.ltb_spec (line_number + 2) 0) as [Hneg | Hnn].
    + replace (Z.to_nat (Z.max (1 + (line_number + 2)) 0 - 0)) with 0%nat by lia.
      reflexivity.
    + replace (Z.to_nat (Z.min (line_number + 2) 1 - 0)) with 0%nat by lia.
      reflexivity.
Qed.

Example snippet_negative_stop :
  extract_code_snippet "a
b
c
d
e
f" (-5) 2 = "    1: a
    2: b
    3: c".
Proof. vm_compute. reflexivity. Qed.

(** C9, as the code has it: the extractor is a total function of its
    arguments; for the empty source it renders the one empty line the split
    yields whenever line 1 is in range ([>>> 1: ] for line number 1,
    [    1: ] for the other line numbers from -1 to 3) and yields the empty
    snippet only for line numbers outside -1..3; for every source and every
    line number from -2 on it renders exactly the lines numbered in
    [line_number - 2, line_number + 2]. *)
Theorem snippet_renders_clipped_range (source_code : string) (line_number : Z) :
  -2 <= line_number ->
  extract_code_snippet source_code line_number 2
  = snippet_spec source_code line_number 2
  /\ forall any_line : Z,
       extract_code_snippet EmptyString any_line 2
       = if (-1 <=? any_line) && (any_line <=? 3)
         then (if any_line =? 1 then ">>> 1: " else "    1: ")
         else EmptyString.
Proof.
  intros Hln. split.
  - apply extract_code_snippet_spec. lia.
  - exact extract_code_snippet_empty.
Qed.

Lemma snippet_renders_clipped_range_witness :
  extract_code_snippet tx_origin_source 1 2 = snippet_spec tx_origin_source 1 2
  /\ forall any_line : Z,
       extract_code_snippet EmptyString any_line 2
       = if (-1 <=? any_line) && (any_line <=? 3)
         then (if any_line =? 1 then ">>> 1: " else "    1: ")
         else EmptyString.
Proof. apply (snippet_renders_clipped_range tx_origin_source 1). lia. Defined.

(** C9 as stated fails: for the empty source and line number 1 (the line
    [get_line_number] gives for offset 0) the snippet is [>>> 1: ], not the
    empty snippet. *)
Lemma empty_source_snippet_is_not_empty :
  get_line_number EmptyString 0 = 1
  /\ extract_code_snippet EmptyString 1 2 = ">>> 1: "
  /\ extract_code_snippet EmptyString 1 2 <> EmptyString.
Proof. split; [reflexivity |]. split; [reflexivity | discriminate]. Qed.

(** ** Counting by field *)

Lemma sum_counts_insert_fresh (counts : gmap string Z) (value : string) (c : Z) :
  counts !! value = None ->
  sum_counts (<[value := c]> counts) = c + sum_counts counts.
Proof.
  intros Hnone. unfold sum_counts.
  apply (map_fold_insert_L (fun _ c acc => c + acc)); [| exact Hnone].
  intros j1 j2 z1 z2 y _ _ _. cbn beta. lia.
Qed.

Lemma sum_counts_delete (counts : gmap string Z) (value : string) (c : Z) :
  counts !! value = Some c ->
  sum_counts counts = c + sum_counts (delete value counts).
Proof.
  intros Hsome. unfold sum_counts.
  apply (map_fold_delete_L (fun _ c acc => c + acc)); [| exact Hsome].
  intros j1 j2 z1 z2 y _ _ _. cbn beta. lia.
Qed.

(** One tally step adds one to the sum, whether the bucket exists or not. *)
Lemma sum_counts_bump (counts : gmap string Z) (value : string) :
  sum_counts (<[value := default 0 (counts !! value) + 1]> counts)
  = sum_counts counts + 1.
Proof.
  destruct (counts !! value) as [c |] eqn:Hc; cbn [default].
  - rewrite <- (insert_delete_eq counts value (c + 1)).
    rewrite (sum_counts_insert_fresh (delete value counts) value (c + 1))
      by apply lookup_delete_eq.
    rewrite (sum_counts_delete counts value c Hc). lia.
  - rewrite sum_counts_insert_fresh by exact Hc. lia.
Qed.

Lemma count_by_field_loop_sum (vulnerabilities : list Vulnerability.t)
    (field : Vulnerability.t -> string) (counts : gmap string Z) :
  sum_counts
    (fold_left
       (fun counts vuln =>
          let value := field vuln in
          <[value := default 0 (counts !! value) + 1]> counts)
       vulnerabilities counts)
  = sum_counts counts + Z.of_nat (length vulnerabilities).
Proof.
  revert counts. induction vulnerabilities as [| v vs IH]; intros counts.
  - cbn. lia.
  - cbn [fold_left length]. rewrite IH, sum_counts_bump. lia.
Qed.

Lemma count_by_field_loop_bucket (vulnerabilities : list Vulnerability.t)
    (field : Vulnerability.t -> string) (counts : gmap string Z) (value : string) :
  default 0
    (fold_left
       (fun counts vuln =>
          let value := field vuln in
          <[value := default 0 (counts !! value) + 1]> counts)
       vulnerabilities counts !! value)
  = default 0 (counts !! value)
    + Z.of_nat (length (filter (fun v => field v = value) vulnerabilities)).
Proof.
  revert counts. induction vulnerabilities as [| v vs IH]; intros counts.
  - cbn. lia.
  - cbn [fold_left]. rewrite IH, filter_cons, lookup_insert.
    destruct (decide (field v = value)) as [Heq | Hne].
    + rewrite Heq. cbn [default length id]. lia.
    + cbn [default id]. lia.
Qed.

Lemma count_by_field_sum (vulnerabilities : list Vulnerability.t)
    (field : Vulnerability.t -> string) :
  sum_counts (count_by_field vulnerabilities field)
  = Z.of_nat (length vulnerabilities).
Proof.
  unfold count_by_field. rewrite count_by_field_loop_sum.
  unfold sum_counts. rewrite map_fold_empty. lia.
Qed.

Lemma count_by_field_bucket (vulnerabilities : list Vulnerability.t)
    (field : Vulnerability.t -> string) (value : string) :
  default 0 (count_by_field vulnerabilities field !! value)
  = Z.of_nat (length (filter (fun v => field v = value) vulnerabilities)).
Proof.
  unfold count_by_field. rewrite count_by_field_loop_bucket, lookup_empty.
  cbn [default]. lia.
Qed.

(** C10: in the metrics of a scan result the per-severity counts and the
    per-category counts each sum to the total number of findings, which is
    the length of the finding list; the count of a severity (category) is the
    number of findings with that severity (category). *)
Theorem metrics_counts_sum_to_total `{Re}
    (data : option (gmap string string)) (m : AnalysisMetrics) :
  metrics (analyze_contract data).1 = Some m ->
  let found := vulnerabilities (analyze_contract data).1 in
  sum_counts (severity_count m) = total_vulnerabilities m
  /\ sum_counts (category_count m) = total_vulnerabilities m
  /\ total_vulnerabilities m = Z.of_nat (length found)
  /\ (forall severity,
        default 0 (severity_count m !! severity)
        = Z.of_nat
            (length (filter (fun v => Vulnerability.severity v = severity) found)))
  /\ (forall category,
        default 0 (category_count m !! category)
        = Z.of_nat
            (length (filter (fun v => Vulnerability.category v = category) found))).
Proof.
  unfold analyze_contract.
  destruct data as [data |]; [| discriminate].
  case_bool_decide; [discriminate |].
  destruct (String.eqb _ EmptyString); [discriminate |].
  cbn [fst metrics vulnerabilities]. intros [= <-].
  cbn [severity_count category_count total_vulnerabilities].
  rewrite !count_by_field_sum.
  repeat split; auto using count_by_field_bucket.
Qed.

Lemma metrics_counts_sum_to_total_witness :
  let m :=
    {| overall_risk_score := 33.25%float;
       total_vulnerabilities := 1;
       severity_count := count_by_field [tx_origin_finding] Vulnerability.severity;
       category_count := count_by_field [tx_origin_finding] Vulnerability.category;
       model_confidence := Some 0.95%float |} in
  let found :=
    vulnerabilities (@analyze_contract tx_origin_re (Some tx_origin_request)).1 in
  sum_counts (severity_count m) = total_vulnerabilities m
  /\ sum_counts (category_count m) = total_vulnerabilities m
  /\ total_vulnerabilities m = Z.of_nat (length found)
  /\ (forall severity,
        default 0 (severity_count m !! severity)
        = Z.of_nat
            (length (filter (fun v => Vulnerability.severity v = severity) found)))
  /\ (forall category,
        default 0 (category_count m !! category)
        = Z.of_nat
            (length (filter (fun v => Vulnerability.category v = category) found))).
Proof.
  apply (@metrics_counts_sum_to_total tx_origin_re (Some tx_origin_request)).
  vm_compute. reflexivity.
Defined.

(** ** Batch analysis *)

Section BatchFacts.
Context `{Re}.

Lemma batch_step_ok contract_name contract_data results :
  entry_ok contract_data = true ->
  batch_step contract_name contract_data results
  = inr (<[contract_name := entry_result contract_name contract_data]> results).
Proof.
  unfold entry_ok, entry_result, batch_step, batch_result.
  destruct contract_data as [| | | | | | items]; try discriminate.
  cbn [entry_field].
  destruct (dict_get items "contractCode" (JStr EmptyString))
    as [| b | i | x | s | elements | items'];
    cbn [is_str truthy orb negb]; try reflexivity.
  - destruct b; [discriminate | reflexivity].
  - destruct (i =? 0); [reflexivity | discriminate].
  - destruct (x =? 0)%float; [reflexivity | discriminate].
  - destruct (String.eqb s EmptyString); reflexivity.
  - destruct elements; [reflexivity | discriminate].
  - destruct items'; [reflexivity | discriminate].
Qed.

Lemma batch_step_raises contract_name contract_data results :
  entry_ok contract_data = false ->
  batch_step contract_name contract_data results
  = inl (entry_exception contract_data).
Proof.
  unfold entry_ok, batch_step, entry_exception.
  destruct contract_data as [| | | | | | items]; try reflexivity.
  cbn [entry_field].
  destruct (dict_get items "contractCode" (JStr EmptyString))
    as [| b | i | x | s | elements | items'];
    cbn [is_str truthy orb negb]; try discriminate.
  - destruct b; [reflexivity | discriminate].
  - destruct (i =? 0); [discriminate | reflexivity].
  - destruct (x =? 0)%float; [discriminate | reflexivity].
  - destruct elements; [discriminate | reflexivity].
  - destruct items'; [discriminate | reflexivity].
Qed.

(** On well-formed entries the loop runs to its end; it stores, for every
    contract of the request, the result of that contract alone, and leaves
    the other names as they were. *)
Lemma batch_loop_ok (items : list (string * json))
    (acc : gmap string batch_entry) :
  Forall (fun item => entry_ok item.2 = true) items ->
  NoDup items.*1 ->
  exists results,
    batch_loop items acc = inr results
    /\ (forall name contract_data,
          (name, contract_data) ∈ items ->
          results !! name = Some (entry_result name contract_data))
    /\ (forall name, name ∉ items.*1 -> results !! name = acc !! name).
Proof.
  revert acc. induction items as [| [k cd] items IH]; intros acc Hok Hnd.
  - exists acc. split; [reflexivity |]. split; [| reflexivity].
    intros name contract_data Hin. inversion Hin.
  - apply Forall_cons in Hok as [Hcd Hok].
    cbn [fmap list_fmap fst] in Hnd. apply NoDup_cons in Hnd as [Hk Hnd].
    cbn [batch_loop]. rewrite (batch_step_ok _ _ _ Hcd).
    destruct (IH (<[k := entry_result k cd]> acc) Hok Hnd)
      as (results & Hloop & Hin & Hout).
    exists results. split; [exact Hloop |]. split.
    + intros name contract_data Helem.
      apply elem_of_cons in Helem as [[= -> ->] | Helem].
      * rewrite (Hout _ Hk), lookup_insert.
        destruct (decide (k = k)); [reflexivity | congruence].
      * apply Hin, Helem.
    + intros name Hname. cbn [fmap list_fmap fst] in Hname.
      apply not_elem_of_cons in Hname as [Hne Hname].
      rewrite (Hout _ Hname), lookup_insert.
      destruct (decide (k = name)); [congruence | reflexivity].
Qed.

(** The loop is left at the first entry that is not well formed, with the
    exception that entry raises. *)
Lemma batch_loop_raises (items1 items2 : list (string * json))
    (name : string) (contract_data : json) (acc : gmap string batch_entry) :
  Forall (fun item => entry_ok item.2 = true) items1 ->
  entry_ok contract_data = false ->
  batch_loop (items1 ++ (name, contract_data) :: items2) acc
  = inl (entry_exception contract_data).
Proof.
  revert acc. induction items1 as [| [k cd] items1 IH]; intros acc Hok Hbad.
  - cbn [app batch_loop]. rewrite (batch_step_raises _ _ _ Hbad). reflexivity.
  - apply Forall_cons in Hok as [Hcd Hok].
    cbn [app batch_loop]. rewrite (batch_step_ok _ _ _ Hcd).
    apply IH; assumption.
Qed.

End BatchFacts.

(** C8, as the code has it: when every entry of a batch is well formed (an
    object whose [contractCode] is a string or counts as false), every
    contract of the request gets its own entry in the results; an entry
    whose [contractCode] is empty, absent or counts as false is reported as
    a failure with the message [No contract code provided], and every other
    entry carries the findings and metrics of the scan of that contract's
    code alone, whatever the other entries are. *)
Theorem batch_reports_each_entry `{Re} (items : list (string * json)) :
  items <> [] ->
  NoDup items.*1 ->
  Forall (fun item => entry_ok item.2 = true) items ->
  exists results,
    batch_analyze (GetJson (JObject items)) = (BatchResults results, 200)
    /\ dom results = list_to_set items.*1
    /\ (forall contract_name contract_data contract_code,
          (contract_name, contract_data) ∈ items ->
          entry_field contract_data = Some contract_code ->
          (truthy contract_code = false ->
           results !! contract_name
           = Some (EntryFailed "No contract code provided"))
          /\ (forall code,
                contract_code = JStr code -> code <> EmptyString ->
                let found := analyze_contract_patterns code contract_name in
                results !! contract_name
                = Some (EntryAnalyzed found
                          {| overall_risk_score := calculate_risk_score found;
                             total_vulnerabilities := Z.of_nat (length found);
                             severity_count :=
                               count_by_field found Vulnerability.severity;
                             category_count :=
                               count_by_field found Vulnerability.category;
                             model_confidence := None |}))).
Proof.
  intros Hne Hnd Hok. unfold batch_analyze.
  destruct items as [| item items]; [congruence |].
  cbn [truthy is_dict negb orb].
  destruct (batch_loop_ok (item :: items) ∅ Hok Hnd)
    as (results & -> & Hin & Hout).
  exists results. split; [reflexivity |]. split.
  - apply set_eq. intros name. rewrite elem_of_dom, elem_of_list_to_set.
    split.
    + intros Hsome. destruct (decide (name ∈ (item :: items).*1)) as [| Hnot];
        [assumption |].
      rewrite (Hout _ Hnot), lookup_empty in Hsome. destruct Hsome; discriminate.
    + intros Hname. apply list_elem_of_fmap in Hname as ([k cd] & -> & Helem).
      cbn [fst]. rewrite (Hin _ _ Helem). eexists. reflexivity.
  - intros name cd c Helem Hfield. rewrite (Hin _ _ Helem).
    unfold entry_result. rewrite Hfield. split.
    + intros Hfalse. destruct c as [| | | | s | |]; try reflexivity.
      unfold batch_result. cbn [truthy] in Hfalse.
      apply negb_false_iff in Hfalse. rewrite Hfalse. reflexivity.
    + intros code -> Hcode. cbv zeta. unfold batch_result.
      apply String.eqb_neq in Hcode. rewrite Hcode. reflexivity.
Qed.

Lemma batch_reports_each_entry_witness :
  exists results,
    @batch_analyze floating_pragma_re (GetJson example_batch)
    = (BatchResults results, 200)
    /\ dom results = list_to_set ["A"; "B"]
    /\ (forall contract_name contract_data contract_code,
          (contract_name, contract_data)
          ∈ [ ("A", JObject [("contractCode", JStr floating_pragma_source)]);
              ("B", JObject [("contractCode", JStr EmptyString)]) ] ->
          entry_field contract_data = Some contract_code ->
          (truthy contract_code = false ->
           results !! contract_name
           = Some (EntryFailed "No contract code provided"))
          /\ (forall code,
                contract_code = JStr code -> code <> EmptyString ->
                let found :=
                  @analyze_contract_patterns floating_pragma_re code
                    contract_name in
                results !! contract_name
                = Some (EntryAnalyzed found
                          {| overall_risk_score := calculate_risk_score found;
                             total_vulnerabilities := Z.of_nat (length found);
                             severity_count :=
                               count_by_field found Vulnerability.severity;
                             category_count :=
                               count_by_field found Vulnerability.category;
                             model_confidence := None |}))).
Proof.
  apply (@batch_reports_each_entry floating_pragma_re
           [ ("A", JObject [("contractCode", JStr floating_pragma_source)]);
             ("B", JObject [("contractCode", JStr EmptyString)]) ]).
  - discriminate.
  - apply (bool_decide_unpack _). vm_compute. reflexivity.
  - repeat constructor.
Defined.

(** The claim as the specification words it fails on a batch with an entry
    that is not well formed: in [aborted_batch] the code of [A] is empty,
    and [A] is not reported, because the entry [B] ends the loop and the
    response is the failure with status 500 and no results. *)
Lemma failing_entry_aborts_batch :
  entry_field (JObject [("contractCode", JStr EmptyString)])
  = Some (JStr EmptyString)
  /\ @batch_analyze floating_pragma_re (GetJson aborted_batch)
     = (BatchFailed AttributeError, 500).
Proof. split; vm_compute; reflexivity. Qed.

(** The batch of the specification's example: [A] is scanned and carries one
    LOW finding of the floating pragma, [B] is reported as failed. *)
Example example_batch_result :
  exists results found,
    @batch_analyze floating_pragma_re (GetJson example_batch)
    = (BatchResults results, 200)
    /\ results !! "B" = Some (EntryFailed "No contract code provided")
    /\ (exists m, results !! "A" = Some (EntryAnalyzed [found] m))
    /\ Vulnerability.severity found = "LOW"
    /\ Vulnerability.name found = "Floating Pragma"
    /\ Vulnerability.id found = "A-floating_pragma-1".
Proof.
  eexists. eexists. split; [vm_compute; reflexivity |].
  split; [vm_compute; reflexivity |].
  split; [eexists; vm_compute; reflexivity |].
  repeat split; reflexivity.
Qed.


(** * Further properties of the scan *)

Section ScanElements.
Context `{Re}.

(** The loop body either leaves the state as it was or appends the finding
    built from the match. *)
Lemma match_step_built name key info src vs vid m :
  match_step name key info src (vs, vid) m = (vs, vid)
  \/ exists v,
       match_step name key info src (vs, vid) m = (vs ++ [v], vid + 1)
       /\ built_from name key info src vid m v.
Proof.
  unfold match_step, built_from.
  destruct (excluded info src); [left; reflexivity |].
  destruct (context_check info src m) eqn:Hctx;
    destruct (in_list (Info.severity info) ["CRITICAL"; "HIGH"]) eqn:Hsev;
    cbn [negb andb].
  - right. eexists. split; [reflexivity |]. cbn.
    repeat (split; [reflexivity |]). left. repeat split; reflexivity.
  - right. eexists. split; [reflexivity |]. cbn.
    repeat (split; [reflexivity |]). left. repeat split; reflexivity.
  - right. eexists. split; [reflexivity |]. cbn.
    repeat (split; [reflexivity |]). right. repeat split; reflexivity.
  - left. reflexivity.
Qed.

Lemma scan_inv_match_step rules src name key info m st :
  (key, info) ∈ rules ->
  m ∈ finditer (Info.pattern info) src [IGNORECASE; MULTILINE] ->
  scan_inv rules src name st ->
  scan_inv rules src name (match_step name key info src st m).
Proof.
  intros Hrule Hm [Hid Hall]. destruct st as [vs vid]. cbn [fst snd] in *.
  destruct (match_step_built name key info src vs vid m)
    as [-> | (v & -> & Hv)]; [split; assumption |].
  split; cbn [fst snd].
  - rewrite length_app. cbn [length]. lia.
  - intros k w Hk. apply lookup_app_Some in Hk as [Hk | [Hge Hk]].
    + apply Hall, Hk.
    + apply list_lookup_singleton_Some in Hk as [Hk0 <-].
      exists key, info, m. split; [exact Hrule |]. split; [exact Hm |].
      replace (Z.of_nat k + 1) with vid by lia. exact Hv.
Qed.

Lemma scan_inv_matches rules src name key info ms st :
  (key, info) ∈ rules ->
  Forall (fun m => m ∈ finditer (Info.pattern info) src [IGNORECASE; MULTILINE])
    ms ->
  scan_inv rules src name st ->
  scan_inv rules src name (fold_left (match_step name key info src) ms st).
Proof.
  intros Hrule Hms. revert st.
  induction Hms as [| m ms Hm _ IH]; intros st Hst; [exact Hst |].
  cbn [fold_left]. apply IH, scan_inv_match_step; assumption.
Qed.

Lemma scan_inv_rules rules src name rs st :
  Forall (fun entry => entry ∈ rules) rs ->
  scan_inv rules src name st ->
  scan_inv rules src name (fold_left (rule_step name src) rs st).
Proof.
  intros Hrs. revert st.
  induction Hrs as [| [key info] rs Hin _ IH]; intros st Hst; [exact Hst |].
  cbn [fold_left]. apply IH. unfold rule_step.
  apply scan_inv_matches; [exact Hin | | exact Hst].
  apply Forall_forall. auto.
Qed.

(** Every finding of a scan was built from a match of a rule of the
    catalog, with the counter value of its position in the list. *)
Lemma analyze_rules_elements rules src name k v :
  analyze_rules rules src name !! k = Some v ->
  exists key info m,
    (key, info) ∈ rules
    /\ m ∈ finditer (Info.pattern info) src [IGNORECASE; MULTILINE]
    /\ built_from name key info src (Z.of_nat k + 1) m v.
Proof.
  unfold analyze_rules.
  assert (scan_inv rules src name
            (fold_left (rule_step name src) rules ([], 1))) as [_ Hall].
  { apply scan_inv_rules.
    - apply Forall_forall. auto.
    - split; [reflexivity |]. intros j w Hj. discriminate Hj. }
  apply Hall.
Qed.

End ScanElements.

(** ** Finding identifiers *)

Lemma append_nil_l (s : string) : EmptyString +:+ s = s.
Proof. reflexivity. Qed.

Lemma append_cons (c : ascii) (s t : string) :
  String c s +:+ t = String c (s +:+ t).
Proof. reflexivity. Qed.

Lemma dash_free_app (s t : string) :
  dash_free (s +:+ t) = dash_free s && dash_free t.
Proof.
  induction s as [| c s IH]; [reflexivity |].
  rewrite append_cons. cbn [dash_free]. rewrite IH, andb_assoc. reflexivity.
Qed.

Lemma dash_free_pretty_N_go (x : N) (s : string) :
  dash_free s = true -> dash_free (pretty_N_go x s) = true.
Proof.
  revert s. induction (N.lt_wf_0 x) as [x _ IH]; intros s Hs.
  assert (x = 0 \/ 0 < x)%N as [-> | Hpos] by lia.
  - rewrite pretty_N_go_0. exact Hs.
  - rewrite pretty_N_go_step by exact Hpos. apply IH.
    + apply N.div_lt; [exact Hpos | reflexivity].
    + cbn [dash_free]. rewrite Hs, andb_true_r.
      unfold pretty_N_char. repeat case_match; reflexivity.
Qed.

(** The decimal spelling of a non-negative integer has no dash. *)
Lemma dash_free_str (i : Z) : 0 <= i -> dash_free (Py.str i) = true.
Proof.
  intros Hi. unfold Py.str, pretty, pretty_Z.
  destruct i as [| p | p]; [reflexivity | | lia].
  unfold pretty, pretty_positive, pretty, pretty_N.
  destruct (decide (N.pos p = 0%N)); [reflexivity |].
  apply dash_free_pretty_N_go. reflexivity.
Qed.

(** The text after the last dash determines itself. *)
Lemma last_segment_eq (a b d1 d2 : string) :
  dash_free d1 = true -> dash_free d2 = true ->
  a +:+ "-" +:+ d1 = b +:+ "-" +:+ d2 -> d1 = d2.
Proof.
  intros H1 H2. revert b.
  induction a as [| c a IH]; intros [| c' b];
    rewrite ?append_nil_l, ?append_cons, ?append_nil_l.
  - intros [= Heq]. exact Heq.
  - intros [= <- ->]. rewrite dash_free_app in H1.
    cbn [dash_free] in H1.
    rewrite andb_false_r in H1. discriminate H1.
  - intros [= -> <-]. rewrite dash_free_app in H2.
    cbn [dash_free] in H2.
    rewrite andb_false_r in H2. discriminate H2.
  - intros [= _ Heq]. apply (IH b), Heq.
Qed.

(** X1: the identifier of the finding at position k (from 0) of a scan
    is the contract name, a dash, the key of a rule of the catalog, a dash
    and the decimal spelling of k + 1: the counter runs over the whole scan,
    not per rule. *)
Theorem finding_ids_count_from_one `{Re}
    (rules : list (string * Info.t)) (source_code contract_name : string)
    (k : nat) (v : Vulnerability.t) :
  analyze_rules rules source_code contract_name !! k = Some v ->
  exists vuln_key,
    vuln_key ∈ rules.*1
    /\ Vulnerability.id v
       = contract_name +:+ "-" +:+ vuln_key +:+ "-"
         +:+ Py.str (Z.of_nat k + 1).
Proof.
  intros Hk.
  destruct (analyze_rules_elements rules source_code contract_name k v Hk)
    as (key & info & m & Hin & _ & Hid & _).
  exists key. split; [| exact Hid].
  apply list_elem_of_fmap. exists (key, info). split; [reflexivity | exact Hin].
Qed.

Lemma finding_ids_count_from_one_witness :
  exists vuln_key,
    vuln_key ∈ VULNERABILITY_PATTERNS.*1
    /\ Vulnerability.id tx_origin_finding
       = "C" +:+ "-" +:+ vuln_key +:+ "-" +:+ Py.str (Z.of_nat 0 + 1).
Proof.
  apply (@finding_ids_count_from_one tx_origin_re VULNERABILITY_PATTERNS
           tx_origin_source "C" 0%nat tx_origin_finding).
  vm_compute. reflexivity.
Defined.

(** X2: within one scan no two findings share an identifier. *)
Theorem finding_ids_are_unique `{Re}
    (rules : list (string * Info.t)) (source_code contract_name : string) :
  NoDup (Vulnerability.id <$> analyze_rules rules source_code contract_name).
Proof.
  apply NoDup_alt. intros i j s Hi Hj.
  rewrite list_lookup_fmap in Hi, Hj.
  destruct (analyze_rules rules source_code contract_name !! i) as [v |] eqn:Ei;
    [| discriminate Hi].
  destruct (analyze_rules rules source_code contract_name !! j) as [w |] eqn:Ej;
    [| discriminate Hj].
  cbn in Hi, Hj. injection Hi as Hi. injection Hj as Hj.
  destruct (analyze_rules_elements _ _ _ _ _ Ei) as (k1 & i1 & m1 & _ & _ & Hv & _).
  destruct (analyze_rules_elements _ _ _ _ _ Ej) as (k2 & i2 & m2 & _ & _ & Hw & _).
  rewrite Hv in Hi. rewrite Hw in Hj. rewrite <- Hj in Hi.
  apply (inj (String.append contract_name)) in Hi.
  rewrite !append_cons, !append_nil_l in Hi. injection Hi as Hi.
  apply last_segment_eq in Hi; [| apply dash_free_str; lia ..].
  apply (inj pretty) in Hi. lia.
Qed.

(** ** Where findings come from *)

(** X3: every finding of a scan stems from a match of the primary pattern
    of a rule of the catalog: it carries that rule's name, description,
    category, recommendation and classification, the line number and snippet
    of that match, and as severity either the rule's declared severity or
    MEDIUM. *)
Theorem finding_stems_from_a_match `{Re}
    (rules : list (string * Info.t)) (source_code contract_name : string)
    (v : Vulnerability.t) :
  v ∈ analyze_rules rules source_code contract_name ->
  exists vuln_key vuln_info m,
    (vuln_key, vuln_info) ∈ rules
    /\ m ∈ finditer (Info.pattern vuln_info) source_code [IGNORECASE; MULTILINE]
    /\ Vulnerability.name v = Info.name vuln_info
    /\ Vulnerability.description v = Info.description vuln_info
    /\ Vulnerability.category v = Info.category vuln_info
    /\ Vulnerability.recommendation v = Info.recommendation vuln_info
    /\ Vulnerability.cwe_id v = Info.cwe_id vuln_info
    /\ Vulnerability.swc_id v = Info.swc_id vuln_info
    /\ Vulnerability.line_number v = get_line_number source_code (m_start m)
    /\ Vulnerability.code_snippet v
       = extract_code_snippet source_code (Vulnerability.line_number v) 2
    /\ (Vulnerability.severity v = Info.severity vuln_info
        \/ Vulnerability.severity v = "MEDIUM").
Proof.
  intros Hv. apply list_elem_of_lookup in Hv as [k Hk].
  destruct (analyze_rules_elements _ _ _ _ _ Hk)
    as (key & info & m & Hin & Hm & _ & Hn & Hd & Hc & Hr & Hcwe & Hswc
        & Hline & Hsnip & Hsev).
  exists key, info, m. rewrite Hline.
  repeat (split; [assumption |]).
  destruct Hsev as [(_ & Hs & _) | (_ & _ & Hs & _)]; auto.
Qed.

Lemma finding_stems_from_a_match_witness :
  exists vuln_key vuln_info m,
    (vuln_key, vuln_info) ∈ VULNERABILITY_PATTERNS
    /\ m ∈ @finditer tx_origin_re (Info.pattern vuln_info) tx_origin_source
             [IGNORECASE; MULTILINE]
    /\ Vulnerability.name tx_origin_finding = Info.name vuln_info
    /\ Vulnerability.description tx_origin_finding = Info.description vuln_info
    /\ Vulnerability.category tx_origin_finding = Info.category vuln_info
    /\ Vulnerability.recommendation tx_origin_finding
       = Info.recommendation vuln_info
    /\ Vulnerability.cwe_id tx_origin_finding = Info.cwe_id vuln_info
    /\ Vulnerability.swc_id tx_origin_finding = Info.swc_id vuln_info
    /\ Vulnerability.line_number tx_origin_finding
       = get_line_number tx_origin_source (m_start m)
    /\ Vulnerability.code_snippet tx_origin_finding
       = extract_code_snippet tx_origin_source
           (Vulnerability.line_number tx_origin_finding) 2
    /\ (Vulnerability.severity tx_origin_finding = Info.severity vuln_info
        \/ Vulnerability.severity tx_origin_finding = "MEDIUM").
Proof.
  apply (@finding_stems_from_a_match tx_origin_re VULNERABILITY_PATTERNS
           tx_origin_source "C" tx_origin_finding).
  vm_compute. constructor.
Defined.

(** X4: in a scan, a finding whose severity is not MEDIUM has confidence
    0.95, and a finding with the reduced confidence 0.60 is MEDIUM: the
    penalty and the downgrade always come together. *)
Theorem reduced_confidence_only_on_medium `{Re}
    (rules : list (string * Info.t)) (source_code contract_name : string)
    (v : Vulnerability.t) :
  v ∈ analyze_rules rules source_code contract_name ->
  (Vulnerability.confidence v = 0.95%Q
   \/ Vulnerability.confidence v = 0.60%Q)
  /\ (Vulnerability.severity v <> "MEDIUM" ->
      Vulnerability.confidence v = 0.95%Q)
  /\ (Vulnerability.confidence v = 0.60%Q ->
      Vulnerability.severity v = "MEDIUM").
Proof.
  intros Hv. apply list_elem_of_lookup in Hv as [k Hk].
  destruct (analyze_rules_elements _ _ _ _ _ Hk)
    as (key & info & m & _ & _ & _ & _ & _ & _ & _ & _ & _ & _ & _ & Hsev).
  destruct Hsev as [(_ & _ & Hc) | (_ & _ & Hs & Hc)]; rewrite Hc.
  - split; [left; reflexivity |]. split; [reflexivity |]. discriminate.
  - split; [right; reflexivity |]. split; [| intros _; exact Hs].
    intros Hne. contradiction.
Qed.

Lemma reduced_confidence_only_on_medium_witness :
  (Vulnerability.confidence tx_origin_finding = 0.95%Q
   \/ Vulnerability.confidence tx_origin_finding = 0.60%Q)
  /\ (Vulnerability.severity tx_origin_finding <> "MEDIUM" ->
      Vulnerability.confidence tx_origin_finding = 0.95%Q)
  /\ (Vulnerability.confidence tx_origin_finding = 0.60%Q ->
      Vulnerability.severity tx_origin_finding = "MEDIUM").
Proof.
  apply (@reduced_confidence_only_on_medium tx_origin_re VULNERABILITY_PATTERNS
           tx_origin_source "C" tx_origin_finding).
  vm_compute. constructor.
Defined.

(** ** How many findings *)

Section ScanCount.
Context `{Re}.

Lemma match_fold_length name key info src ms st :
  (length (fold_left (match_step name key info src) ms st).1
   <= length st.1 + length ms)%nat.
Proof.
  revert st. induction ms as [| m ms IH]; intros [vs vid]; cbn [fold_left length].
  - lia.
  - etransitivity; [apply IH |].
    destruct (match_step_cases name key info src vs vid m)
      as [-> | (v & -> & _)]; cbn [fst]; rewrite ?length_app; cbn [length]; lia.
Qed.

Lemma rule_fold_length name src rs st :
  (length (fold_left (rule_step name src) rs st).1
   <= length st.1 + total_matches rs src)%nat.
Proof.
  revert st. induction rs as [| [key info] rs IH]; intros st;
    cbn [fold_left]; unfold total_matches in *; cbn [map sum_list fold_right snd].
  - lia.
  - etransitivity; [apply IH |].
    pose proof (match_fold_length name key info src
                  (finditer (Info.pattern info) src [IGNORECASE; MULTILINE]) st).
    unfold rule_step. cbn [sum_list_with] in *. unfold id. lia.
Qed.

End ScanCount.

(** X5: a scan never reports more findings than the primary patterns of
    the catalog have matches in the source; a source in which no pattern
    matches yields no finding. *)
Theorem findings_no_more_than_matches `{Re}
    (rules : list (string * Info.t)) (source_code contract_name : string) :
  (length (analyze_rules rules source_code contract_name)
   <= total_matches rules source_code)%nat
  /\ (total_matches rules source_code = 0%nat ->
      analyze_rules rules source_code contract_name = []).
Proof.
  assert (length (analyze_rules rules source_code contract_name)
          <= total_matches rules source_code)%nat as Hle.
  { unfold analyze_rules.
    pose proof (rule_fold_length contract_name source_code rules ([], 1)) as Hl.
    cbn [fst length] in Hl. lia. }
  split; [exact Hle |].
  intros Hz. rewrite Hz in Hle.
  destruct (analyze_rules rules source_code contract_name); [reflexivity |].
  cbn [length] in Hle. lia.
Qed.

(** ** The contract name *)

Section ContractName.
Context `{Re}.

Lemma match_step_forget_id n1 n2 key info src vs1 vs2 vid m :
  forget_id <$> vs1 = forget_id <$> vs2 ->
  forget_id <$> (match_step n1 key info src (vs1, vid) m).1
  = forget_id <$> (match_step n2 key info src (vs2, vid) m).1
  /\ (match_step n1 key info src (vs1, vid) m).2
     = (match_step n2 key info src (vs2, vid) m).2.
Proof.
  intros Heq. unfold match_step.
  destruct (excluded info src); [split; [exact Heq | reflexivity] |].
  destruct (context_check info src m);
    destruct (in_list (Info.severity info) ["CRITICAL"; "HIGH"]);
    cbn [negb andb fst snd]; rewrite ?fmap_app, ?Heq;
    split; reflexivity.
Qed.

Lemma match_fold_forget_id n1 n2 key info src ms st1 st2 :
  forget_id <$> st1.1 = forget_id <$> st2.1 -> st1.2 = st2.2 ->
  forget_id <$> (fold_left (match_step n1 key info src) ms st1).1
  = forget_id <$> (fold_left (match_step n2 key info src) ms st2).1
  /\ (fold_left (match_step n1 key info src) ms st1).2
     = (fold_left (match_step n2 key info src) ms st2).2.
Proof.
  revert st1 st2. induction ms as [| m ms IH];
    intros [vs1 vid1] [vs2 vid2] Hvs Hvid; cbn [fst snd] in *.
  - split; assumption.
  - subst vid2. cbn [fold_left].
    destruct (match_step_forget_id n1 n2 key info src vs1 vs2 vid1 m Hvs)
      as [H1 H2].
    apply IH; assumption.
Qed.

Lemma rule_fold_forget_id n1 n2 src rs st1 st2 :
  forget_id <$> st1.1 = forget_id <$> st2.1 -> st1.2 = st2.2 ->
  forget_id <$> (fold_left (rule_step n1 src) rs st1).1
  = forget_id <$> (fold_left (rule_step n2 src) rs st2).1.
Proof.
  revert st1 st2. induction rs as [| [key info] rs IH]; intros st1 st2 Hvs Hvid.
  - exact Hvs.
  - cbn [fold_left]. unfold rule_step.
    destruct (match_fold_forget_id n1 n2 key info src
                (finditer (Info.pattern info) src [IGNORECASE; MULTILINE])
                st1 st2 Hvs Hvid) as [H1 H2].
    apply IH; assumption.
Qed.

End ContractName.

(** A loop that does not read the identifier runs the same on the findings
    with their identifiers blanked. *)
Lemma fold_left_forget_id {A} (f : A -> Vulnerability.t -> A)
    (l : list Vulnerability.t) (a : A) :
  (forall a v, f a (forget_id v) = f a v) ->
  fold_left f (forget_id <$> l) a = fold_left f l a.
Proof.
  intros Hf. revert a. induction l as [| v l IH]; intros a; [reflexivity |].
  cbn [fmap list_fmap fold_left]. rewrite Hf. apply IH.
Qed.

Lemma calculate_risk_score_forget_id (l : list Vulnerability.t) :
  calculate_risk_score (forget_id <$> l) = calculate_risk_score l.
Proof.
  destruct l as [| v l]; [reflexivity |].
  change (forget_id <$> v :: l) with (forget_id v :: (forget_id <$> l)).
  unfold calculate_risk_score. do 3 f_equal.
  apply (fold_left_forget_id _ (v :: l)). reflexivity.
Qed.

Lemma count_by_field_forget_id (l : list Vulnerability.t)
    (field : Vulnerability.t -> string) :
  (forall v, field (forget_id v) = field v) ->
  count_by_field (forget_id <$> l) field = count_by_field l field.
Proof.
  intros Hfield. unfold count_by_field.
  apply fold_left_forget_id. intros a v. cbv zeta. rewrite Hfield. reflexivity.
Qed.

(** X6: the contract name enters a scan only through the identifiers:
    two scans of the same source under different names yield the same
    findings up to their identifiers, hence the same risk score and the same
    tallies by severity and by category. *)
Theorem contract_name_only_changes_ids `{Re}
    (rules : list (string * Info.t)) (source_code name1 name2 : string) :
  forget_id <$> analyze_rules rules source_code name1
  = forget_id <$> analyze_rules rules source_code name2
  /\ calculate_risk_score (analyze_rules rules source_code name1)
     = calculate_risk_score (analyze_rules rules source_code name2)
  /\ count_by_field (analyze_rules rules source_code name1) Vulnerability.severity
     = count_by_field (analyze_rules rules source_code name2) Vulnerability.severity
  /\ count_by_field (analyze_rules rules source_code name1) Vulnerability.category
     = count_by_field (analyze_rules rules source_code name2) Vulnerability.category.
Proof.
  assert (forget_id <$> analyze_rules rules source_code name1
          = forget_id <$> analyze_rules rules source_code name2) as Heq.
  { unfold analyze_rules. apply rule_fold_forget_id; reflexivity. }
  split; [exact Heq |].
  split; [| split].
  - rewrite <- (calculate_risk_score_forget_id (analyze_rules _ _ name1)).
    rewrite Heq. apply calculate_risk_score_forget_id.
  - rewrite <- (count_by_field_forget_id (analyze_rules _ _ name1))
      by reflexivity.
    rewrite Heq. apply count_by_field_forget_id. reflexivity.
  - rewrite <- (count_by_field_forget_id (analyze_rules _ _ name1))
      by reflexivity.
    rewrite Heq. apply count_by_field_forget_id. reflexivity.
Qed.

(** ** The pattern listing *)

Lemma list_rules_loop (rules : list (string * Info.t)) (acc : list PatternEntry) :
  fold_left
    (fun patterns '(key, info) =>
       patterns
       ++ [{| entry_id := key;
              entry_name := Info.name info;
              entry_description := Info.description info;
              entry_severity := Info.severity info;
              entry_category := Info.category info;
              entry_cwdId := Info.cwe_id info;
              entry_swcId := Info.swc_id info |}])
    rules acc
  = acc
    ++ map
         (fun entry : string * Info.t =>
            {| entry_id := entry.1;
               entry_name := Info.name entry.2;
               entry_description := Info.description entry.2;
               entry_severity := Info.severity entry.2;
               entry_category := Info.category entry.2;
               entry_cwdId := Info.cwe_id entry.2;
               entry_swcId := Info.swc_id entry.2 |})
         rules.
Proof.
  revert acc. induction rules as [| [key info] rules IH]; intros acc;
    cbn [fold_left map].
  - rewrite app_nil_r. reflexivity.
  - rewrite IH, <- app_assoc. reflexivity.
Qed.

Lemma list_rules_entry (rules : list (string * Info.t)) (key : string)
    (info : Info.t) :
  (key, info) ∈ rules ->
  {| entry_id := key;
     entry_name := Info.name info;
     entry_description := Info.description info;
     entry_severity := Info.severity info;
     entry_category := Info.category info;
     entry_cwdId := Info.cwe_id info;
     entry_swcId := Info.swc_id info |} ∈ list_rules rules.
Proof.
  intros Hin. unfold list_rules. rewrite list_rules_loop, app_nil_l.
  apply list_elem_of_fmap. exists (key, info). split; [reflexivity | exact Hin].
Qed.

(** X7: the listing endpoint and the scan agree: the listing has one
    entry per rule, in catalog order, and every finding of a scan carries the
    name, description, category and classification of a listed pattern, that
    pattern's identifier inside its own identifier, and as severity the
    listed severity or MEDIUM. *)
Theorem findings_agree_with_listing `{Re}
    (source_code contract_name : string) (v : Vulnerability.t) :
  v ∈ analyze_contract_patterns source_code contract_name ->
  totalPatterns list_patterns = Z.of_nat (length VULNERABILITY_PATTERNS)
  /\ entry_id <$> patterns list_patterns = VULNERABILITY_PATTERNS.*1
  /\ exists p ordinal,
       p ∈ patterns list_patterns
       /\ Vulnerability.id v
          = contract_name +:+ "-" +:+ entry_id p +:+ "-" +:+ Py.str ordinal
       /\ Vulnerability.name v = entry_name p
       /\ Vulnerability.description v = entry_description p
       /\ Vulnerability.category v = entry_category p
       /\ Vulnerability.cwe_id v = entry_cwdId p
       /\ Vulnerability.swc_id v = entry_swcId p
       /\ (Vulnerability.severity v = entry_severity p
           \/ Vulnerability.severity v = "MEDIUM").
Proof.
  intros Hv. cbn [totalPatterns patterns list_patterns].
  unfold list_rules at 1 2. rewrite !list_rules_loop, !app_nil_l.
  split; [rewrite length_map; reflexivity |].
  split.
  { rewrite <- list_fmap_compose. apply list_fmap_ext. intros i [k r] _. reflexivity. }
  apply list_elem_of_lookup in Hv as [k Hk].
  destruct (analyze_rules_elements _ _ _ _ _ Hk)
    as (key & info & m & Hin & _ & Hid & Hn & Hd & Hc & _ & Hcwe & Hswc & _ & _
        & Hsev).
  eexists. exists (Z.of_nat k + 1).
  split; [apply (list_rules_entry _ key info Hin) |].
  cbn [entry_id entry_name entry_description entry_category entry_cwdId
         entry_swcId entry_severity].
  repeat (split; [assumption |]).
  destruct Hsev as [(_ & Hs & _) | (_ & _ & Hs & _)]; auto.
Qed.

Lemma findings_agree_with_listing_witness :
  totalPatterns list_patterns = Z.of_nat (length VULNERABILITY_PATTERNS)
  /\ entry_id <$> patterns list_patterns = VULNERABILITY_PATTERNS.*1
  /\ exists p ordinal,
       p ∈ patterns list_patterns
       /\ Vulnerability.id tx_origin_finding
          = "C" +:+ "-" +:+ entry_id p +:+ "-" +:+ Py.str ordinal
       /\ Vulnerability.name tx_origin_finding = entry_name p
       /\ Vulnerability.description tx_origin_finding = entry_description p
       /\ Vulnerability.category tx_origin_finding = entry_category p
       /\ Vulnerability.cwe_id tx_origin_finding = entry_cwdId p
       /\ Vulnerability.swc_id tx_origin_finding = entry_swcId p
       /\ (Vulnerability.severity tx_origin_finding = entry_severity p
           \/ Vulnerability.severity tx_origin_finding = "MEDIUM").
Proof.
  apply (@findings_agree_with_listing tx_origin_re tx_origin_source "C"
           tx_origin_finding).
  vm_compute. constructor.
Defined.

(** ** Severities and the risk score of a scan *)

Lemma catalog_severities_have_weights :
  Forall
    (fun entry : string * Info.t =>
       is_Some (severity_weights !! Info.severity entry.2))
    VULNERABILITY_PATTERNS.
Proof. repeat constructor; vm_compute; eexists; reflexivity. Qed.

(** X8: every finding of a scan with the service's catalog has one of the
    five severities of the weight table, so the default weight 1.0 is never
    used for it. *)
Theorem scan_severities_have_weights `{Re}
    (source_code contract_name : string) (v : Vulnerability.t) :
  v ∈ analyze_contract_patterns source_code contract_name ->
  Vulnerability.severity v ∈ ["CRITICAL"; "HIGH"; "MEDIUM"; "LOW"; "INFO"]
  /\ is_Some (severity_weights !! Vulnerability.severity v).
Proof.
  intros Hv. apply list_elem_of_lookup in Hv as [k Hk].
  destruct (analyze_rules_elements _ _ _ _ _ Hk)
    as (key & info & m & Hin & _ & _ & _ & _ & _ & _ & _ & _ & _ & _ & Hsev).
  assert (Vulnerability.severity v = Info.severity info
          \/ Vulnerability.severity v = "MEDIUM") as [-> | ->].
  { destruct Hsev as [(_ & Hs & _) | (_ & _ & Hs & _)]; auto. }
  - clear Hsev Hk.
    assert (Forall
              (fun entry : string * Info.t =>
                 Info.severity entry.2
                 ∈ ["CRITICAL"; "HIGH"; "MEDIUM"; "LOW"; "INFO"])
              VULNERABILITY_PATTERNS) as Hall.
    { repeat constructor. }
    split.
    + apply (proj1 (Forall_forall _ _) Hall (key, info) Hin).
    + apply (proj1 (Forall_forall _ _) catalog_severities_have_weights
               (key, info) Hin).
  - split; [repeat constructor | vm_compute; eexists; reflexivity].
Qed.

Lemma scan_severities_have_weights_witness :
  Vulnerability.severity tx_origin_finding
  ∈ ["CRITICAL"; "HIGH"; "MEDIUM"; "LOW"; "INFO"]
  /\ is_Some (severity_weights !! Vulnerability.severity tx_origin_finding).
Proof.
  apply (@scan_severities_have_weights tx_origin_re tx_origin_source "C"
           tx_origin_finding).
  vm_compute. constructor.
Defined.

Section ScanScore.
Context `{Re}.

(** A finding of a scan has confidence 0.95, or 0.60 with severity MEDIUM;
    its weighted confidence is at least that of an INFO finding. *)
Lemma analyze_rules_weighted_confidences rules src name :
  Forall
    (fun f =>
       confidence_in_range f
       /\ (0.475 <=? weight_of (Vulnerability.severity f) * confidence_float f)%float
          = true)
    (analyze_rules rules src name).
Proof.
  apply Forall_lookup. intros k v Hk.
  destruct (analyze_rules_elements _ _ _ _ _ Hk)
    as (key & info & m & _ & _ & _ & _ & _ & _ & _ & _ & _ & _ & _ & Hsev).
  unfold confidence_in_range, confidence_float.
  destruct Hsev as [(_ & _ & ->) | (_ & _ & -> & ->)].
  - split; [split; vm_compute; discriminate |].
    unfold weight_of.
    repeat (destruct (String.eqb (Vulnerability.severity v) _);
            [vm_compute; reflexivity |]).
    vm_compute. reflexivity.
  - split; [split; vm_compute; discriminate |]. vm_compute. reflexivity.
Qed.

End ScanScore.

(** X9: the risk score of a scan is 0 exactly when the scan found
    nothing; a scan with at least one finding scores at least 2.38, the score
    of a single INFO finding. The comparisons are those of binary64. *)
Theorem risk_score_zero_iff_no_finding `{Re}
    (rules : list (string * Info.t)) (source_code contract_name : string) :
  ((calculate_risk_score (analyze_rules rules source_code contract_name) =? 0)%float
   = true
   <-> analyze_rules rules source_code contract_name = [])
  /\ (analyze_rules rules source_code contract_name <> [] ->
      (2.38 <=? calculate_risk_score
                  (analyze_rules rules source_code contract_name))%float = true).
Proof.
  pose proof (analyze_rules_weighted_confidences rules source_code contract_name)
    as Hall.
  set (l := analyze_rules rules source_code contract_name) in *.
  assert (l <> [] ->
          nonneg64 (calculate_risk_score l) = true
          /\ (value64 2.38 <= value64 (calculate_risk_score l))%Q) as Hpos.
  { destruct l as [| v l']; [congruence |]. intros _.
    rewrite calculate_risk_score_spec.
    apply Forall_cons in Hall as [[Hv Hw] Hall].
    assert (Forall confidence_in_range l') as Hl'.
    { eapply Forall_impl; [exact Hall |]. intros f [Hf _]. exact Hf. }
    pose proof (weighted_confidence_nonneg v Hv) as Hp.
    assert (nonneg64 0.475 = true) as Hc by reflexivity.
    apply (leb64 _ _ Hc Hp) in Hw.
    destruct (add64_ge 0 _ (eq_refl : nonneg64 0 = true) Hp) as (Hn & _ & Hge).
    assert (Forall (fun x => nonneg64 x = true)
              ((fun f =>
                  (weight_of (Vulnerability.severity f) * confidence_float f)%float)
                 <$> l')) as Hterms.
    { apply Forall_fmap. eapply Forall_impl; [exact Hl' |].
      intros f Hf. apply weighted_confidence_nonneg, Hf. }
    destruct (sum_from_nonneg _ _ Hterms Hn) as [Ht Hsum].
    assert (value64 0.475 <= value64 (total_weight (v :: l')))%Q as Hle.
    { unfold total_weight, PyFloat.sum. cbn [fmap list_fmap fold_left].
      eapply Qle_trans; [exact Hw |]. eapply Qle_trans; [exact Hge |].
      exact Hsum. }
    destruct (score_of_weight_mono 0.475 (total_weight (v :: l')) Hc Ht Hle)
      as (_ & Hr & Hrle).
    split; [exact Hr |].
    eapply Qle_trans; [| exact Hrle]. vm_compute. discriminate. }
  split.
  - split.
    + intros Hz. destruct l as [| v l'] eqn:El; [reflexivity |].
      destruct (Hpos ltac:(discriminate)) as [Hr Hge].
      apply (eqb64 _ _ Hr (eq_refl : nonneg64 0 = true)) in Hz.
      rewrite Hz in Hge. vm_compute in Hge. exfalso. apply Hge. reflexivity.
    + intros ->. reflexivity.
  - intros Hne. destruct (Hpos Hne) as [Hr Hge].
    apply leb64; [reflexivity | exact Hr | exact Hge].
Qed.

(** A single INFO finding with confidence 0.95 scores 2.38. *)
Example single_info_finding_scores_2_38 :
  calculate_risk_score
    [{| Vulnerability.id := "C-assembly_usage-1";
        Vulnerability.name := Info.name Rules.assembly_usage;
        Vulnerability.description := Info.description Rules.assembly_usage;
        Vulnerability.severity := "INFO";
        Vulnerability.category := "CODE_QUALITY";
        Vulnerability.line_number := 1;
        Vulnerability.code_snippet := ">>> 1: assembly {";
        Vulnerability.recommendation := Info.recommendation Rules.assembly_usage;
        Vulnerability.confidence := 0.95;
        Vulnerability.cwe_id := Some EmptyString;
        Vulnerability.swc_id := Some EmptyString |}]
  = 2.38%float.
Proof. vm_compute. reflexivity. Qed.

(** ** The batch endpoint against the single-contract endpoint *)

Section BatchEntries.
Context `{Re}.

Lemma batch_loop_inr (items : list (string * json))
    (acc results : gmap string batch_entry) :
  batch_loop items acc = inr results ->
  Forall (fun item => entry_ok item.2 = true) items.
Proof.
  revert acc. induction items as [| [k cd] items IH]; intros acc Hloop.
  - constructor.
  - cbn [batch_loop] in Hloop. destruct (entry_ok cd) eqn:Hcd.
    + rewrite (batch_step_ok _ _ _ Hcd) in Hloop.
      constructor; [exact Hcd | exact (IH _ Hloop)].
    + rewrite (batch_step_raises _ _ _ Hcd) in Hloop. discriminate Hloop.
Qed.

Lemma batch_loop_runs (items : list (string * json))
    (acc : gmap string batch_entry) :
  Forall (fun item => entry_ok item.2 = true) items ->
  exists results, batch_loop items acc = inr results.
Proof.
  revert acc. induction items as [| [k cd] items IH]; intros acc Hok.
  - eexists. reflexivity.
  - apply Forall_cons in Hok as [Hcd Hok].
    cbn [batch_loop]. rewrite (batch_step_ok _ _ _ Hcd). apply IH, Hok.
Qed.

Lemma batch_loop_inl (items : list (string * json))
    (acc : gmap string batch_entry) :
  Exists (fun item => entry_ok item.2 = false) items ->
  exists e, batch_loop items acc = inl e.
Proof.
  revert acc. induction items as [| [k cd] items IH]; intros acc Hbad.
  - inversion Hbad.
  - cbn [batch_loop]. destruct (entry_ok cd) eqn:Hcd.
    + rewrite (batch_step_ok _ _ _ Hcd). apply IH.
      apply Exists_cons in Hbad as [Hhd | Htl]; [| exact Htl].
      cbn [snd] in Hhd. congruence.
    + rewrite (batch_step_raises _ _ _ Hcd). eexists. reflexivity.
Qed.

(** Every entry of the results is the result of a contract of the
    request. *)
Lemma batch_loop_entries (items : list (string * json))
    (acc results : gmap string batch_entry) (name : string)
    (entry : batch_entry) :
  batch_loop items acc = inr results ->
  results !! name = Some entry ->
  acc !! name = Some entry
  \/ exists contract_data,
       (name, contract_data) ∈ items
       /\ entry = entry_result name contract_data.
Proof.
  revert acc. induction items as [| [k cd] items IH]; intros acc Hloop Hentry.
  - injection Hloop as <-. left. exact Hentry.
  - cbn [batch_loop] in Hloop. destruct (entry_ok cd) eqn:Hcd.
    + rewrite (batch_step_ok _ _ _ Hcd) in Hloop.
      destruct (IH _ Hloop Hentry) as [Hacc | (cd' & Hin & ->)].
      * rewrite lookup_insert in Hacc.
        destruct (decide (k = name)) as [-> | _]; [| left; exact Hacc].
        injection Hacc as <-. right. exists cd. split; [left | reflexivity].
      * right. exists cd'. split; [right; exact Hin | reflexivity].
    + rewrite (batch_step_raises _ _ _ Hcd) in Hloop. discriminate Hloop.
Qed.

End BatchEntries.

(** X12: for a contract of an answered batch whose code is a non-empty
    string, the batch entry holds the findings, the risk score, the total and
    the two tallies that the single-contract endpoint answers for the same
    code under the same contract name; only the model confidence is missing
    from the batch metrics. *)
Theorem batch_entry_agrees_with_single `{Re}
    (items : list (string * json)) (results : gmap string batch_entry)
    (contract_name : string) (contract_data : json)
    (contract_code : string) :
  NoDup items.*1 ->
  batch_analyze (GetJson (JObject items)) = (BatchResults results, 200) ->
  (contract_name, contract_data) ∈ items ->
  entry_field contract_data = Some (JStr contract_code) ->
  contract_code <> EmptyString ->
  let single :=
    analyze_contract
      (Some (<["contractCode" := contract_code]>
               (<["contractName" := contract_name]> ∅))) in
  exists m_batch m_single,
    results !! contract_name
    = Some (EntryAnalyzed (vulnerabilities single.1) m_batch)
    /\ single.2 = 200
    /\ metrics single.1 = Some m_single
    /\ overall_risk_score m_batch = overall_risk_score m_single
    /\ total_vulnerabilities m_batch = total_vulnerabilities m_single
    /\ severity_count m_batch = severity_count m_single
    /\ category_count m_batch = category_count m_single
    /\ model_confidence m_batch = None.
Proof.
  intros Hnd Hbatch Hin Hfield Hne single.
  assert (single
          = analyze_contract
              (Some (<["contractCode" := contract_code]>
                       (<["contractName" := contract_name]> ∅)))) as Hs
    by reflexivity.
  unfold analyze_contract in Hs.
  rewrite bool_decide_eq_false_2 in Hs by apply insert_non_empty.
  rewrite lookup_insert_eq in Hs.
  rewrite lookup_insert_ne, lookup_insert_eq in Hs by discriminate.
  cbn [default id] in Hs.
  apply String.eqb_neq in Hne. rewrite Hne in Hs.
  unfold batch_analyze in Hbatch.
  destruct items as [| item items]; [inversion Hin |].
  cbn [truthy is_dict negb orb] in Hbatch.
  destruct (batch_loop (item :: items) ∅) as [e | results'] eqn:Hloop;
    [discriminate Hbatch |].
  injection Hbatch as <-.
  destruct (batch_loop_ok (item :: items) ∅ (batch_loop_inr _ _ _ Hloop) Hnd)
    as (results'' & Hloop' & Hlookup & _).
  rewrite Hloop in Hloop'. injection Hloop' as <-.
  rewrite (Hlookup _ _ Hin). unfold entry_result. rewrite Hfield.
  unfold batch_result. rewrite Hne.
  rewrite Hs. cbn [fst snd vulnerabilities metrics].
  eexists. eexists. split; [reflexivity |]. split; [reflexivity |].
  split; [reflexivity |]. repeat split; reflexivity.
Qed.

Lemma batch_entry_agrees_with_single_witness :
  let single :=
    @analyze_contract floating_pragma_re
      (Some (<["contractCode" := floating_pragma_source]>
               (<["contractName" := "A"]> ∅))) in
  exists m_batch m_single,
    (<["B" := EntryFailed "No contract code provided"]>
       (<["A" := @entry_result floating_pragma_re "A"
                   (JObject [("contractCode", JStr floating_pragma_source)])]>
          ∅) : gmap string batch_entry) !! "A"
    = Some (EntryAnalyzed (vulnerabilities single.1) m_batch)
    /\ single.2 = 200
    /\ metrics single.1 = Some m_single
    /\ overall_risk_score m_batch = overall_risk_score m_single
    /\ total_vulnerabilities m_batch = total_vulnerabilities m_single
    /\ severity_count m_batch = severity_count m_single
    /\ category_count m_batch = category_count m_single
    /\ model_confidence m_batch = None.
Proof.
  apply (@batch_entry_agrees_with_single floating_pragma_re
           [ ("A", JObject [("contractCode", JStr floating_pragma_source)]);
             ("B", JObject [("contractCode", JStr EmptyString)]) ]
           _ "A" (JObject [("contractCode", JStr floating_pragma_source)])
           floating_pragma_source).
  - apply (bool_decide_unpack _). vm_compute. reflexivity.
  - reflexivity.
  - left.
  - reflexivity.
  - discriminate.
Defined.

(** ** The confidence formula *)

Section ConfidenceFormula.
Local Open Scope Q_scope.

Lemma tenth_finite : exists m e, Prim2SF 0.1 = S754_finite false m e.
Proof. eexists. eexists. reflexivity. Qed.

(** The confidence for a base and a quality score: it does not decrease
    when either grows, and it is at most 1. *)
Lemma confidence_of_base_mono (b b' q q' : float) :
  nonneg64 b = true -> nonneg64 b' = true ->
  nonneg64 q = true -> nonneg64 q' = true ->
  value64 b <= value64 b' -> value64 q <= value64 q' ->
  nonneg64 (PyFloat.min (b + q * 0.1) 1) = true
  /\ nonneg64 (PyFloat.min (b' + q' * 0.1) 1) = true
  /\ value64 (PyFloat.min (b + q * 0.1) 1)
     <= value64 (PyFloat.min (b' + q' * 0.1) 1)
  /\ value64 (PyFloat.min (b + q * 0.1) 1) <= value64 1.
Proof.
  intros Hb Hb' Hq Hq' Hlb Hlq. destruct tenth_finite as (m & e & H01).
  destruct (mul64_mono q q' 0.1 m e H01 Hq Hq' Hlq) as (Ht & Ht' & Hlt).
  destruct (add64 b _ Hb Ht) as [Ha _]. destruct (add64 b' _ Hb' Ht') as [Ha' _].
  pose proof (add64_mono _ _ _ _ Hb Ht Hb' Ht' Hlb Hlt) as Hla.
  assert (nonneg64 1 = true) as H1 by reflexivity.
  destruct (min64 _ 1 Ha H1) as [Hm Hmv].
  destruct (min64 _ 1 Ha' H1) as [Hm' Hmv'].
  split; [exact Hm |]. split; [exact Hm' |]. rewrite Hmv, Hmv'.
  split; [apply Q.min_le_compat_r, Hla | apply Q.le_min_r].
Qed.

End ConfidenceFormula.

(** X13: in binary64, for a quality score that is not negative (and not
    NaN) the confidence lies between 0 and 1; a satisfied context never
    lowers it, a pattern match never lowers it, and it does not decrease when
    the quality score grows. *)
Theorem calculate_confidence_bounded_monotone
    (pattern_match context_match : bool)
    (code_quality_score higher_score : float) :
  (0 <=? code_quality_score)%float = true ->
  (code_quality_score <=? higher_score)%float = true ->
  (0 <=? calculate_confidence_binary64 pattern_match context_match
           code_quality_score)%float = true
  /\ (calculate_confidence_binary64 pattern_match context_match
        code_quality_score <=? 1)%float = true
  /\ (calculate_confidence_binary64 pattern_match false code_quality_score
      <=? calculate_confidence_binary64 pattern_match true code_quality_score)%float
     = true
  /\ (calculate_confidence_binary64 false context_match code_quality_score
      <=? calculate_confidence_binary64 true context_match code_quality_score)%float
     = true
  /\ (calculate_confidence_binary64 pattern_match context_match
        code_quality_score
      <=? calculate_confidence_binary64 pattern_match context_match
            higher_score)%float = true.
Proof.
  intros Hq Hle. rewrite <- nonneg64_leb in Hq.
  pose proof (leb_nonneg64 _ _ Hq Hle) as Hq'.
  apply (leb64 _ _ Hq Hq') in Hle.
  assert (forall pm cm q,
            calculate_confidence_binary64 pm cm q
            = PyFloat.min
                ((if cm then (if pm then 0.7 else 0.0) + 0.2
                  else (if pm then 0.7 else 0.0)) + q * 0.1) 1)%float as Hform
    by reflexivity.
  rewrite !Hform.
  assert (forall b b' : float,
            nonneg64 b = true -> nonneg64 b' = true ->
            (value64 b <= value64 b')%Q ->
            forall q q' : float,
              nonneg64 q = true -> nonneg64 q' = true ->
              (value64 q <= value64 q')%Q ->
              (PyFloat.min (b + q * 0.1) 1 <=? PyFloat.min (b' + q' * 0.1) 1)%float
              = true) as Hmono.
  { intros b b' Hb Hb' Hlb q q' Hnq Hnq' Hlq.
    destruct (confidence_of_base_mono b b' q q' Hb Hb' Hnq Hnq' Hlb Hlq)
      as (Hm & Hm' & Hl & _).
    apply leb64; assumption. }
  assert (forall b : float,
            nonneg64 b = true ->
            (0 <=? PyFloat.min (b + code_quality_score * 0.1) 1)%float = true
            /\ (PyFloat.min (b + code_quality_score * 0.1) 1 <=? 1)%float = true)
    as Hbound.
  { intros b Hb.
    destruct (confidence_of_base_mono b b code_quality_score code_quality_score
                Hb Hb Hq Hq (Qle_refl _) (Qle_refl _)) as (Hm & _ & _ & Hl).
    split; [rewrite <- nonneg64_leb; exact Hm |].
    apply leb64; [exact Hm | reflexivity | exact Hl]. }
  split; [| split; [| split; [| split]]].
  - destruct pattern_match, context_match; apply Hbound; reflexivity.
  - destruct pattern_match, context_match; apply Hbound; reflexivity.
  - destruct pattern_match;
      (apply Hmono;
       [reflexivity | reflexivity | vm_compute; discriminate
       | exact Hq | exact Hq | apply Qle_refl]).
  - destruct context_match;
      (apply Hmono;
       [reflexivity | reflexivity | vm_compute; discriminate
       | exact Hq | exact Hq | apply Qle_refl]).
  - destruct pattern_match, context_match;
      (apply Hmono;
       [reflexivity | reflexivity | apply Qle_refl
       | exact Hq | exact Hq' | exact Hle]).
Qed.

Lemma calculate_confidence_bounded_monotone_witness :
  (0 <=? calculate_confidence_binary64 true true 0.5)%float = true
  /\ (calculate_confidence_binary64 true true 0.5 <=? 1)%float = true
  /\ (calculate_confidence_binary64 true false 0.5
      <=? calculate_confidence_binary64 true true 0.5)%float = true
  /\ (calculate_confidence_binary64 false true 0.5
      <=? calculate_confidence_binary64 true true 0.5)%float = true
  /\ (calculate_confidence_binary64 true true 0.5
      <=? calculate_confidence_binary64 true true 1)%float = true.
Proof.
  apply (calculate_confidence_bounded_monotone true true 0.5 1);
    vm_compute; reflexivity.
Defined.

(** ** The keys of a tally *)

Lemma count_by_field_loop_dom (vulnerabilities : list Vulnerability.t)
    (field : Vulnerability.t -> string) (counts : gmap string Z) :
  dom
    (fold_left
       (fun counts vuln =>
          let value := field vuln in
          <[value := default 0 (counts !! value) + 1]> counts)
       vulnerabilities counts)
  = dom counts ∪ list_to_set (field <$> vulnerabilities).
Proof.
  revert counts. induction vulnerabilities as [| v vs IH]; intros counts.
  - cbn. rewrite union_empty_r_L. reflexivity.
  - cbn [fold_left]. rewrite IH, dom_insert_L. cbn [fmap list_fmap list_to_set].
    rewrite (union_comm_L {[field v]} (dom counts)), <- union_assoc_L.
    reflexivity.
Qed.

Lemma count_by_field_loop_positive (vulnerabilities : list Vulnerability.t)
    (field : Vulnerability.t -> string) (counts : gmap string Z) :
  map_Forall (fun _ c => 1 <= c) counts ->
  map_Forall (fun _ c => 1 <= c)
    (fold_left
       (fun counts vuln =>
          let value := field vuln in
          <[value := default 0 (counts !! value) + 1]> counts)
       vulnerabilities counts).
Proof.
  revert counts. induction vulnerabilities as [| v vs IH]; intros counts Hpos.
  - exact Hpos.
  - cbn [fold_left]. apply IH. apply map_Forall_insert_2; [| exact Hpos].
    destruct (counts !! field v) as [c |] eqn:Hc; cbn [default id]; [| lia].
    specialize (Hpos _ _ Hc). cbn beta in Hpos. lia.
Qed.

(** X14: the keys of a tally are exactly the values that occur in the
    finding list, and every count is at least 1: no bucket is empty and no
    occurring value is missing. *)
Theorem tally_keys_are_the_values_present
    (vulnerabilities : list Vulnerability.t) (field : Vulnerability.t -> string) :
  dom (count_by_field vulnerabilities field)
  = list_to_set (field <$> vulnerabilities)
  /\ map_Forall (fun _ c => 1 <= c) (count_by_field vulnerabilities field).
Proof.
  unfold count_by_field. split.
  - rewrite count_by_field_loop_dom, dom_empty_L, union_empty_l_L. reflexivity.
  - apply count_by_field_loop_positive, map_Forall_empty.
Qed.

(** ** Line numbers *)

Lemma count_newlines_slice_mono (s : string) (p q : nat) :
  (p <= q)%nat ->
  (Py.count_newlines (Py.slice_to s p) <= Py.count_newlines (Py.slice_to s q))%nat.
Proof.
  revert p q. induction s as [| c s IH]; intros [| p] [| q] Hpq;
    cbn [Py.slice_to Py.count_newlines]; try lia.
  specialize (IH p q ltac:(lia)). lia.
Qed.

Lemma slice_to_all (s : string) (p : nat) :
  (String.length s <= p)%nat -> Py.slice_to s p = s.
Proof.
  revert p. induction s as [| c s IH]; intros [| p] Hp;
    cbn [Py.slice_to String.length] in *; try reflexivity; try lia.
  rewrite IH by lia. reflexivity.
Qed.

Lemma length_split_lines (s : string) :
  length (Py.split_lines s) = S (Py.count_newlines s).
Proof.
  induction s as [| c s IH]; cbn [Py.split_lines Py.count_newlines];
    [reflexivity |].
  destruct (Ascii.eqb c Py.newline).
  - cbn [length]. rewrite IH. reflexivity.
  - destruct (Py.split_lines s) as [| piece pieces]; [discriminate IH |].
    cbn [length] in *. lia.
Qed.

Lemma get_line_number_bounds (s : string) (p : nat) :
  1 <= get_line_number s p <= Z.of_nat (length (Py.split_lines s)).
Proof.
  unfold get_line_number. rewrite length_split_lines.
  pose proof (count_newlines_slice_mono s p (Nat.max p (String.length s))
                ltac:(lia)) as Hle.
  rewrite (slice_to_all s (Nat.max p (String.length s))) in Hle by lia.
  lia.
Qed.

(** X15: the line number of a character offset is at least 1 and at most
    the number of lines of the source, whatever the offset (also past the
    end), and a later offset never gets an earlier line. *)
Theorem line_number_in_range_and_monotone
    (source_code : string) (position later : nat) :
  (position <= later)%nat ->
  1 <= get_line_number source_code position
  /\ get_line_number source_code position <= get_line_number source_code later
  /\ get_line_number source_code later
     <= Z.of_nat (length (Py.split_lines source_code)).
Proof.
  intros Hle. split; [apply get_line_number_bounds |].
  split; [| apply get_line_number_bounds].
  unfold get_line_number.
  pose proof (count_newlines_slice_mono source_code position later Hle). lia.
Qed.

Lemma line_number_in_range_and_monotone_witness :
  1 <= get_line_number tx_origin_source 0
  /\ get_line_number tx_origin_source 0 <= get_line_number tx_origin_source 9
  /\ get_line_number tx_origin_source 9
     <= Z.of_nat (length (Py.split_lines tx_origin_source)).
Proof.
  apply (line_number_in_range_and_monotone tx_origin_source 0 9). lia.
Defined.

(** ** The snippet of a finding *)







(** ** The order of the findings *)

Section ScanOrder.
Context `{Re}.

Lemma match_fold_sublist name key info src ms vs vid :
  exists kept found,
    fold_left (match_step name key info src) ms (vs, vid)
    = (vs ++ found, vid + Z.of_nat (length found))
    /\ sublist kept ms
    /\ Forall2
         (fun m v =>
            Vulnerability.line_number v = get_line_number src (m_start m)
            /\ Vulnerability.name v = Info.name info)
         kept found.
Proof.
  revert vs vid. induction ms as [| m ms IH]; intros vs vid; cbn [fold_left].
  - exists [], []. rewrite app_nil_r. cbn [length Z.of_nat].
    rewrite Z.add_0_r. repeat constructor.
  - destruct (match_step_built name key info src vs vid m)
      as [-> | (v & -> & Hv)].
    + destruct (IH vs vid) as (kept & found & Heq & Hsub & Hall).
      exists kept, found. split; [exact Heq |].
      split; [apply sublist_cons, Hsub | exact Hall].
    + destruct (IH (vs ++ [v]) (vid + 1)) as (kept & found & Heq & Hsub & Hall).
      exists (m :: kept), (v :: found). split; [| split].
      * rewrite Heq, <- app_assoc. cbn [app length]. f_equal. lia.
      * apply sublist_skip, Hsub.
      * constructor; [| exact Hall].
        destruct Hv as (_ & Hn & _ & _ & _ & _ & _ & Hl & _). auto.
Qed.

Lemma rule_fold_groups name src rs vs vid :
  exists groups,
    fold_left (rule_step name src) rs (vs, vid)
    = (vs ++ concat groups, vid + Z.of_nat (length (concat groups)))
    /\ Forall2
         (fun (entry : string * Info.t) found =>
            exists kept,
              sublist kept
                (finditer (Info.pattern entry.2) src [IGNORECASE; MULTILINE])
              /\ Forall2
                   (fun m v =>
                      Vulnerability.line_number v
                      = get_line_number src (m_start m)
                      /\ Vulnerability.name v = Info.name entry.2)
                   kept found)
         rs groups.
Proof.
  revert vs vid. induction rs as [| [key info] rs IH]; intros vs vid;
    cbn [fold_left].
  - exists []. cbn [concat length Z.of_nat]. rewrite app_nil_r, Z.add_0_r.
    split; [reflexivity | constructor].
  - unfold rule_step at 2.
    destruct (match_fold_sublist name key info src
                (finditer (Info.pattern info) src [IGNORECASE; MULTILINE])
                vs vid) as (kept & found & -> & Hsub & Hall).
    destruct (IH (vs ++ found) (vid + Z.of_nat (length found)))
      as (groups & -> & Hgroups).
    exists (found :: groups). split.
    + cbn [concat]. rewrite <- app_assoc, length_app. f_equal. lia.
    + constructor; [| exact Hgroups]. exists kept. cbn [snd]. auto.
Qed.

End ScanOrder.

(** X17: the findings of a scan come in catalog order and, within a
    rule, in match order: the list is the concatenation of one block per rule
    of the catalog, and the block of a rule corresponds, one to one and in
    order, to a sub-sequence of the matches of that rule's primary pattern. *)
Theorem findings_follow_catalog_then_match_order `{Re}
    (rules : list (string * Info.t)) (source_code contract_name : string) :
  exists groups,
    analyze_rules rules source_code contract_name = concat groups
    /\ Forall2
         (fun (entry : string * Info.t) found =>
            exists kept,
              sublist kept
                (finditer (Info.pattern entry.2) source_code
                   [IGNORECASE; MULTILINE])
              /\ Forall2
                   (fun m v =>
                      Vulnerability.line_number v
                      = get_line_number source_code (m_start m)
                      /\ Vulnerability.name v = Info.name entry.2)
                   kept found)
         rules groups.
Proof.
  unfold analyze_rules.
  destruct (rule_fold_groups contract_name source_code rules [] 1)
    as (groups & -> & Hgroups).
  exists groups. split; [reflexivity | exact Hgroups].
Qed.

(** X18: a rule declared CRITICAL or HIGH whose exclusion pattern, if
    any, does not hit reports every match of its primary pattern: its pass
    appends exactly one finding per match, in match order, MEDIUM with
    confidence 0.60 where a mitigation was found and with the declared
    severity and confidence 0.95 elsewhere. *)
Theorem critical_high_rule_reports_every_match `{Re}
    (contract_name vuln_key : string) (vuln_info : Info.t)
    (source_code : string) (vulnerabilities : list Vulnerability.t)
    (vuln_id : Z) :
  Info.severity vuln_info = "CRITICAL" \/ Info.severity vuln_info = "HIGH" ->
  excluded vuln_info source_code = false ->
  exists found,
    rule_step contract_name source_code (vulnerabilities, vuln_id)
      (vuln_key, vuln_info)
    = (vulnerabilities ++ found, vuln_id + Z.of_nat (length found))
    /\ Forall2
         (fun m v =>
            Vulnerability.line_number v = get_line_number source_code (m_start m)
            /\ ((context_check vuln_info source_code m = true
                 /\ Vulnerability.severity v = Info.severity vuln_info
                 /\ Vulnerability.confidence v = 0.95%Q)
                \/ (context_check vuln_info source_code m = false
                    /\ Vulnerability.severity v = "MEDIUM"
                    /\ Vulnerability.confidence v = 0.60%Q)))
         (finditer (Info.pattern vuln_info) source_code [IGNORECASE; MULTILINE])
         found.
Proof.
  intros Hsev Hex. apply in_list_critical_high in Hsev. unfold rule_step.
  revert vulnerabilities vuln_id.
  induction (finditer (Info.pattern vuln_info) source_code
               [IGNORECASE; MULTILINE]) as [| m ms IH];
    intros vs vid; cbn [fold_left].
  - exists []. rewrite app_nil_r. cbn [length Z.of_nat]. rewrite Z.add_0_r.
    split; [reflexivity | constructor].
  - destruct (context_check vuln_info source_code m) eqn:Hctx.
    + destruct (match_step_plain contract_name vuln_key vuln_info source_code
                  vs vid m Hex Hctx) as (v & -> & Hs & _ & Hl & Hc).
      destruct (IH (vs ++ [v]) (vid + 1)) as (found & -> & Hall).
      exists (v :: found). split.
      * rewrite <- app_assoc. cbn [app length]. f_equal. lia.
      * constructor; [| exact Hall]. rewrite Hctx. auto.
    + destruct (match_step_downgraded contract_name vuln_key vuln_info
                  source_code vs vid m Hex Hctx Hsev)
        as (v & -> & Hs & _ & Hl & Hc).
      destruct (IH (vs ++ [v]) (vid + 1)) as (found & -> & Hall).
      exists (v :: found). split.
      * rewrite <- app_assoc. cbn [app length]. f_equal. lia.
      * constructor; [| exact Hall]. rewrite Hctx. auto.
Qed.

Lemma critical_high_rule_reports_every_match_witness :
  exists found,
    @rule_step guarded_send_re "C" guarded_send_source ([], 1)
      ("reentrancy", Rules.reentrancy)
    = ([] ++ found, 1 + Z.of_nat (length found))
    /\ Forall2
         (fun m v =>
            Vulnerability.line_number v
            = get_line_number guarded_send_source (m_start m)
            /\ ((@context_check guarded_send_re Rules.reentrancy
                   guarded_send_source m = true
                 /\ Vulnerability.severity v = Info.severity Rules.reentrancy
                 /\ Vulnerability.confidence v = 0.95%Q)
                \/ (@context_check guarded_send_re Rules.reentrancy
                      guarded_send_source m = false
                    /\ Vulnerability.severity v = "MEDIUM"
                    /\ Vulnerability.confidence v = 0.60%Q)))
         (@finditer guarded_send_re (Info.pattern Rules.reentrancy)
            guarded_send_source [IGNORECASE; MULTILINE])
         found.
Proof.
  apply (@critical_high_rule_reports_every_match guarded_send_re "C"
           "reentrancy" Rules.reentrancy guarded_send_source [] 1).
  - left. reflexivity.
  - reflexivity.
Defined.

(** ** Edge cases of the endpoints *)

(** X19: the batch endpoint answers by the shape of the request. It
    rejects with status 400 exactly the parsed bodies that count as false or
    are no object; it answers 200 with results exactly the non-empty objects
    whose entries are all well formed; it answers 500 exactly when reading
    the body raises or some entry is not well formed, with the exception of
    the first such entry. In a 200 answer an entry that did not succeed is
    the failure with the message [No contract code provided]. *)
Theorem batch_answer_follows_request_shape `{Re} (request : get_json) :
  (batch_analyze request
   = (BatchRejected "Expected object with contract names as keys", 400)
   <-> exists data,
         request = GetJson data
         /\ (truthy data = false \/ is_dict data = false))
  /\ ((exists results, batch_analyze request = (BatchResults results, 200))
      <-> exists items,
            request = GetJson (JObject items) /\ items <> []
            /\ Forall (fun item => entry_ok item.2 = true) items)
  /\ ((exists e, batch_analyze request = (BatchFailed e, 500))
      <-> request = GetJsonRaises
          \/ exists items,
               request = GetJson (JObject items)
               /\ Exists (fun item => entry_ok item.2 = false) items)
  /\ (forall items1 contract_name contract_data items2,
        request
        = GetJson (JObject (items1 ++ (contract_name, contract_data) :: items2)) ->
        Forall (fun item => entry_ok item.2 = true) items1 ->
        entry_ok contract_data = false ->
        batch_analyze request
        = (BatchFailed (entry_exception contract_data), 500))
  /\ (forall results contract_name entry,
        batch_analyze request = (BatchResults results, 200) ->
        results !! contract_name = Some entry ->
        entry_success entry = false ->
        entry = EntryFailed "No contract code provided").
Proof.
  split; [| split; [| split; [| split]]].
  - split.
    + destruct request as [| data]; [discriminate |].
      intros Hreq. exists data. split; [reflexivity |].
      unfold batch_analyze in Hreq.
      destruct (truthy data); [| left; reflexivity].
      destruct (is_dict data); [| right; reflexivity].
      cbn [negb orb] in Hreq.
      destruct (batch_loop _ _); discriminate Hreq.
    + intros (data & -> & Hdata). unfold batch_analyze.
      destruct Hdata as [-> | ->]; [reflexivity |].
      rewrite orb_true_r. reflexivity.
  - split.
    + intros [results Hreq]. destruct request as [| data]; [discriminate |].
      unfold batch_analyze in Hreq.
      destruct data as [| | | | | | items]; try discriminate Hreq;
        try (cbn [truthy is_dict negb orb] in Hreq;
             rewrite ?orb_true_r in Hreq; discriminate Hreq).
      destruct items as [| item items]; [discriminate Hreq |].
      cbn [truthy is_dict negb orb] in Hreq.
      destruct (batch_loop (item :: items) ∅) as [e | results'] eqn:Hloop;
        [discriminate Hreq |].
      exists (item :: items). split; [reflexivity |]. split; [discriminate |].
      exact (batch_loop_inr _ _ _ Hloop).
    + intros (items & -> & Hne & Hok). unfold batch_analyze.
      destruct items as [| item items]; [congruence |].
      cbn [truthy is_dict negb orb].
      destruct (batch_loop_runs (item :: items) ∅ Hok) as [results ->].
      exists results. reflexivity.
  - split.
    + intros [e Hreq]. destruct request as [| data]; [left; reflexivity |].
      right. unfold batch_analyze in Hreq.
      destruct data as [| | | | | | items]; try discriminate Hreq;
        try (cbn [truthy is_dict negb orb] in Hreq;
             rewrite ?orb_true_r in Hreq; discriminate Hreq).
      destruct items as [| item items]; [discriminate Hreq |].
      cbn [truthy is_dict negb orb] in Hreq.
      exists (item :: items). split; [reflexivity |].
      destruct (batch_loop (item :: items) ∅) as [e' | results] eqn:Hloop;
        [| discriminate Hreq].
      destruct (decide (Forall (fun item => entry_ok item.2 = true)
                          (item :: items))) as [Hok | Hnot].
      * destruct (batch_loop_runs (item :: items) ∅ Hok) as [results Hruns].
        congruence.
      * apply not_Forall_Exists in Hnot; [| intros x; apply _].
        eapply Exists_impl; [exact Hnot |].
        intros x Hx. cbn beta in Hx. apply not_true_is_false, Hx.
    + intros [-> | (items & -> & Hbad)]; [eexists; reflexivity |].
      unfold batch_analyze.
      destruct items as [| item items]; [inversion Hbad |].
      cbn [truthy is_dict negb orb].
      destruct (batch_loop_inl (item :: items) ∅ Hbad) as [e ->].
      exists e. reflexivity.
  - intros items1 name cd items2 -> Hok Hbad. unfold batch_analyze.
    assert (truthy (JObject (items1 ++ (name, cd) :: items2)) = true) as ->.
    { destruct items1; reflexivity. }
    cbn [is_dict negb orb].
    rewrite (batch_loop_raises _ _ _ _ _ Hok Hbad). reflexivity.
  - intros results name entry Hreq Hentry Hfail.
    destruct request as [| data]; [discriminate |].
    unfold batch_analyze in Hreq.
    destruct (negb (truthy data) || negb (is_dict data)); [discriminate Hreq |].
    destruct (batch_loop _ ∅) as [e | results'] eqn:Hloop; [discriminate Hreq |].
    injection Hreq as <-.
    destruct (batch_loop_entries _ _ _ _ _ Hloop Hentry)
      as [Hacc | (cd & _ & ->)].
    + rewrite lookup_empty in Hacc. discriminate Hacc.
    + unfold entry_result, batch_result in *.
      destruct (entry_field cd) as [[| | | | s | |] |]; try reflexivity.
      destruct (String.eqb s EmptyString); [reflexivity | discriminate Hfail].
Qed.

(** X20: an accepted request is scanned under its [contractName], or
    under [Unknown] when the key is missing: the response names that
    contract, every identifier starts with that name and a dash, and the
    message states the number of findings, which is the reported total. *)
Theorem accepted_request_is_scanned_under_its_name `{Re}
    (d : gmap string string) (contract_code : string) :
  d !! "contractCode" = Some contract_code ->
  contract_code <> EmptyString ->
  let name := default "Unknown" (d !! "contractName") in
  let response := (analyze_contract (Some d)).1 in
  contract_name response = Some name
  /\ vulnerabilities response = analyze_contract_patterns contract_code name
  /\ message response
     = "Analysis completed. Found "
       +:+ Py.str (Z.of_nat (length (vulnerabilities response)))
       +:+ " potential vulnerabilities."
  /\ (exists m,
        metrics response = Some m
        /\ overall_risk_score m
           = calculate_risk_score (vulnerabilities response))
  /\ forall v,
       v ∈ vulnerabilities response ->
       exists rest, Vulnerability.id v = name +:+ "-" +:+ rest.
Proof.
  intros Hcode Hne name response.
  assert (response = (analyze_contract (Some d)).1) as Hr by reflexivity.
  unfold analyze_contract in Hr.
  rewrite bool_decide_eq_false_2 in Hr.
  2: { intros ->. rewrite lookup_empty in Hcode. discriminate Hcode. }
  rewrite Hcode in Hr. cbn [default id] in Hr.
  apply String.eqb_neq in Hne. rewrite Hne in Hr. cbn [fst] in Hr.
  fold name in Hr. rewrite Hr.
  cbn [contract_name vulnerabilities message metrics].
  split; [reflexivity |]. split; [reflexivity |]. split; [reflexivity |].
  split; [eexists; split; reflexivity |].
  intros v Hv. apply list_elem_of_lookup in Hv as [k Hk].
  destruct (analyze_rules_elements _ _ _ _ _ Hk)
    as (key & info & m & _ & _ & Hid & _).
  eexists. exact Hid.
Qed.

Lemma accepted_request_is_scanned_under_its_name_witness :
  let name := default "Unknown" (tx_origin_request !! "contractName") in
  let response := (@analyze_contract tx_origin_re (Some tx_origin_request)).1 in
  contract_name response = Some name
  /\ vulnerabilities response
     = @analyze_contract_patterns tx_origin_re tx_origin_source name
  /\ message response
     = "Analysis completed. Found "
       +:+ Py.str (Z.of_nat (length (vulnerabilities response)))
       +:+ " potential vulnerabilities."
  /\ (exists m,
        metrics response = Some m
        /\ overall_risk_score m
           = calculate_risk_score (vulnerabilities response))
  /\ forall v,
       v ∈ vulnerabilities response ->
       exists rest, Vulnerability.id v = name +:+ "-" +:+ rest.
Proof.
  apply (@accepted_request_is_scanned_under_its_name tx_origin_re
           tx_origin_request tx_origin_source).
  - vm_compute. reflexivity.
  - discriminate.
Defined.
